(** * aws-k8s-tester: cluster-role stack lifecycle and WordPress add-on

    A shallow embedding of [eks/role.go] and [eks/wordpress/wordpress.go].

    Go values are represented as follows.
    - [string] is a Rocq [string] (a sequence of bytes); a nil [*string] read
      through [aws.StringValue] is the empty string.
    - [time.Time] and [time.Duration] are [Z], in nanoseconds.
    - An [error] is a value of the inductive type [error]; a Go function
      returning [error] returns [option error], [None] being [nil].
    - A channel, as seen by a receiver, is a function from the index of the
      check point to what a receive finds there.
    - Everything outside the two files (the Kubernetes and CloudFormation
      clients, helm, the configuration sink, the HTTP transport, the clock) is
      an environment that answers each call; the calls made are logged in a
      trace. *)

From Stdlib Require Import ZArith List Bool Ascii String Lia.
Import ListNotations.

Local Open Scope string_scope.
Local Open Scope Z_scope.

(** ** Go's [strings] package, as far as the sources use it *)

Module Strings.

(** [strings.Split(s, sep)] for a one-byte separator: the pieces of [s]
    between the occurrences of [sep]; never an empty slice. *)
Fixpoint Split (s : string) (sep : ascii) : list string :=
  match s with
  | EmptyString => [EmptyString]
  | String c s' =>
      if Ascii.eqb c sep then EmptyString :: Split s' sep
      else match Split s' sep with
           | [] => [String c EmptyString]
           | piece :: pieces => String c piece :: pieces
           end
  end.

(** [strings.Replace(s, old, new, -1)] for one-byte [old] and [new]. *)
Fixpoint Replace (s : string) (old new : ascii) : string :=
  match s with
  | EmptyString => EmptyString
  | String c s' =>
      String (if Ascii.eqb c old then new else c) (Replace s' old new)
  end.

(** [strings.Join(elems, sep)]. *)
Fixpoint Join (elems : list string) (sep : string) : string :=
  match elems with
  | [] => EmptyString
  | [e] => e
  | e :: rest => e ++ sep ++ Join rest sep
  end.

(** [strings.Contains(s, substr)], as a proposition. *)
Definition Contains (s substr : string) : Prop :=
  exists pre post, s = pre ++ substr ++ post.

(** Indexing a slice at 0; the default stands for Go's panic on an empty
    slice, which [Split] never returns. *)
Definition first (pieces : list string) : string := hd EmptyString pieces.

(** The substring of [s] before the first occurrence of the byte [c], in the
    words of the specification; all of [s] when [c] does not occur. *)
Definition substring_before (c : ascii) (s : string) : string :=
  match String.index 0 (String c EmptyString) s with
  | Some i => String.substring 0 i s
  | None => s
  end.

(** [c] does not occur in [s]. *)
Fixpoint free_of (c : ascii) (s : string) : bool :=
  match s with
  | EmptyString => true
  | String d s' => negb (Ascii.eqb d c) && free_of c s'
  end.

(** [t] is [s] with every [old] replaced by [new], in the words of the
    specification: byte for byte. *)
Definition replaced_every (old new : ascii) (s t : string) : Prop :=
  String.length t = String.length s /\
  forall i : nat,
    String.get i t =
    option_map (fun ch => if Ascii.eqb ch old then new else ch) (String.get i s).

(** The longest prefix of [s] that has no [c]: what [Split s c] starts with. *)
Fixpoint upto (c : ascii) (s : string) : string :=
  match s with
  | EmptyString => EmptyString
  | String d s' => if Ascii.eqb d c then EmptyString else String d (upto c s')
  end.

End Strings.

(** ** Values shared by the two packages *)

(** [os.Signal], by the text its [String] method gives. *)
Definition Signal := string.

(** What a receiver sees of a channel: at the check point with index [n], a
    receive either finds a value (a sent value, or the zero value of a closed
    channel) before the timer of that check point expires, or finds nothing. *)
Definition chan (A : Type) := nat -> option A.

(** [make(chan T)] when no reference to the new channel is kept anywhere else:
    nothing can send on it or close it, so a receive never finds a value. *)
Definition make_chan {A : Type} : chan A := fun _ => None.

(** Go [error] values. The constructors are the sites that build them. *)
Inductive error : Type :=
| errors_New (text : string)
    (** [errors.New(text)] *)
| External (text : string)
    (** an error returned by a collaborator, with its [Error()] text *)
| ErrReceivedSignal (sig : Signal)
    (** [fmt.Errorf("received os signal %v", sig)] *)
| ErrReturnedStatus (u : string) (code : Z)
    (** [fmt.Errorf("%q returned %d", u, code)] *)
| ErrUnexpectedOutputKey (k stackID : string)
    (** [fmt.Errorf("unexpected OutputKey %q from %q", k, stackID)] *)
| ErrPollStopped
| ErrPollSignal (sig : Signal)
| ErrPollDeadline.
    (** the last three are the poller's cancellation and timeout errors *)

(** Which case of a [select] over a stop channel, a signal channel and a timer
    ran. *)
Inductive selected : Type :=
| RecvStop
| RecvSig (sig : Signal)
| RecvTimer.

(** A [select] with a freshly armed timer: the timer case runs only when
    neither channel becomes ready first; when both channels are ready Go picks
    one of them pseudo-randomly ([pick]). *)
Definition select (stopc : chan unit) (sigc : chan Signal) (n : nat)
    (pick : bool) : selected :=
  match stopc n, sigc n with
  | Some _, Some sig => if pick then RecvStop else RecvSig sig
  | Some _, None => RecvStop
  | None, Some sig => RecvSig sig
  | None, None => RecvTimer
  end.

Definition is_ready {A : Type} (r : option A) : bool :=
  match r with Some _ => true | None => false end.

Definition Second : Z := 1000000000.
Definition Minute : Z := 60 * Second.

(** What an HTTP GET and the copy of its body do. *)
Inductive HTTPResult : Type :=
| GetFails (text : string)
| Responds (StatusCode : Z) (Body : string) (copyErr : option string).

(** The environment's answer to one call. Every call reads the fields it
    needs. *)
Record Answer : Type := mkAnswer {
  a_err : option string;       (** the collaborator's error, by text; [None] is nil *)
  a_pick : bool;               (** the pick of a [select] with two ready channels *)
  a_late : N;                  (** time taken; for a timer or a sleep, time beyond its duration *)
  a_ingress : list string;     (** [Hostname] of each [Status.LoadBalancer.Ingress] entry *)
  a_http : HTTPResult;         (** what [cli.Get] and [io.Copy] do *)
  a_stackId : string;          (** [StackId] of a [CreateStackOutput] *)
  a_status : string;           (** [StackStatus] of a described stack *)
  a_outputs : list (string * string)  (** [Outputs] of a described stack *)
}.

(** The environment: the answer to the call with index [n] (the number of
    calls made before it). *)
Definition Env := nat -> Answer.

Definition lift_err (e : option string) : option error :=
  match e with Some text => Some (External text) | None => None end.

(** ** Package [wordpress] *)

Module Wordpress.

(** The fields of [eksconfig.AddOnWordpress] that the package reads or
    writes. The display strings [CreateTookString] and [DeleteTookString] are
    functions of [CreateTook] and [DeleteTook] and are left out. *)
Record AddOnWordpress : Type := mkAddOn {
  Created : bool;
  Namespace : string;
  UserName : string;
  Password : string;
  URL : string;
  NLBName : string;
  NLBARN : string;
  CreateTook : Z;
  DeleteTook : Z
}.

(** The fields of [eksconfig.Config] that the package reads or writes;
    [ManagedNodeGroups] is what [IsEnabledAddOnManagedNodeGroups()]
    answers. *)
Record EKSConfig : Type := mkConfig {
  AddOn : AddOnWordpress;
  Region : string;
  AWSAccountID : string;
  KubectlPath : string;
  KubeConfigPath : string;
  ManagedNodeGroups : bool
}.

Definition with_AddOn (c : EKSConfig) (a : AddOnWordpress) : EKSConfig :=
  mkConfig a (Region c) (AWSAccountID c) (KubectlPath c) (KubeConfigPath c)
           (ManagedNodeGroups c).

Definition set_Created (b : bool) (c : EKSConfig) : EKSConfig :=
  let a := AddOn c in
  with_AddOn c (mkAddOn b (Namespace a) (UserName a) (Password a) (URL a)
                        (NLBName a) (NLBARN a) (CreateTook a) (DeleteTook a)).

Definition set_CreateTook (d : Z) (c : EKSConfig) : EKSConfig :=
  let a := AddOn c in
  with_AddOn c (mkAddOn (Created a) (Namespace a) (UserName a) (Password a)
                        (URL a) (NLBName a) (NLBARN a) d (DeleteTook a)).

Definition set_DeleteTook (d : Z) (c : EKSConfig) : EKSConfig :=
  let a := AddOn c in
  with_AddOn c (mkAddOn (Created a) (Namespace a) (UserName a) (Password a)
                        (URL a) (NLBName a) (NLBARN a) (CreateTook a) d).

Definition set_endpoint (url name arn : string) (c : EKSConfig) : EKSConfig :=
  let a := AddOn c in
  with_AddOn c (mkAddOn (Created a) (Namespace a) (UserName a) (Password a)
                        url name arn (CreateTook a) (DeleteTook a)).

(** Helm values: [map[string]interface{}] literals, in source order. *)
#[warnings="-register-all"]
Inductive value : Type :=
| VString (s : string)
| VBool (b : bool)
| VMap (entries : list (string * value))
| VAMITypeAL2X8664.  (** the constant [ec2config.AMITypeAL2X8664] *)

(** [helm.InstallConfig], without the logger. *)
Record InstallConfig : Type := mkInstall {
  Timeout : Z;
  ic_KubeConfigPath : string;
  ic_Namespace : string;
  ChartRepoURL : string;
  ChartName : string;
  ReleaseName : string;
  Values : list (string * value)
}.

(** The calls that leave the package. *)
Inductive Event : Type :=
| EvSync (saved : EKSConfig)
| EvCreateNamespace (ns : string)
| EvRepoAdd (name url : string)
| EvInstall (c : InstallConfig)
| EvUninstall (c : InstallConfig)
| EvDeleteNamespaceAndWait (ns : string)
| EvSelect (d : Z) (stopReady sigReady : bool) (taken : selected)
| EvSleep (d : Z)
| EvExec (args : list string)
| EvGetService (ns name : string)
| EvHTTPGet (u : string).

(** The shared configuration object [ts.cfg.EKSConfig] points to, the clock,
    and the calls made so far, oldest first. *)
Record World : Type := mkWorld {
  cfg : EKSConfig;
  now : Z;
  trace : list Event
}.

(** The channels of [Config]; the logger is not modelled, and [EKSConfig] and
    [K8SClient] are in the world and the environment. *)
Record tester : Type := mkTester {
  Stopc : chan unit;
  Sig : chan Signal
}.

Definition chartRepoName : string := "bitnami".
Definition chartRepoURL : string := "https://charts.bitnami.com/bitnami".
Definition chartName : string := "wordpress".

(** *** Calls *)

(** The index the next call has. *)
Definition here (w : World) : nat := List.length (trace w).

(** A call that takes [spent] and is logged as [ev]. *)
Definition logged (ev : Event) (spent : Z) (w : World) : World :=
  mkWorld (cfg w) (now w + spent) (trace w ++ [ev]).

(** A call to a collaborator. *)
Definition call (ev : Event) (env : Env) (w : World) : Answer * World :=
  let a := env (here w) in
  (a, logged ev (Z.of_N (a_late a)) w).

(** [time.Sleep(d)]. *)
Definition Sleep (d : Z) (env : Env) (w : World) : World :=
  logged (EvSleep d) (d + Z.of_N (a_late (env (here w)))) w.

(** [select] over [ts.cfg.Stopc], [ts.cfg.Sig] and [time.After(d)]. *)
Definition Select (ts : tester) (d : Z) (env : Env) (w : World)
  : selected * World :=
  let n := here w in
  let a := env n in
  let taken := select (Stopc ts) (Sig ts) n (a_pick a) in
  let spent := match taken with
               | RecvTimer => d + Z.of_N (a_late a)
               | _ => Z.min d (Z.of_N (a_late a))
               end in
  (taken,
   logged (EvSelect d (is_ready (Stopc ts n)) (is_ready (Sig ts n)) taken)
          spent w).

(** [ts.cfg.EKSConfig.Sync()]. *)
Definition Sync (env : Env) (w : World) : option error * World :=
  let (a, w') := call (EvSync (cfg w)) env w in
  (lift_err (a_err a), w').

Definition update (f : EKSConfig -> EKSConfig) (w : World) : World :=
  mkWorld (f (cfg w)) (now w) (trace w).

(** *** [httpReadInsecure] *)

(** Returns the error and what was written to [wr]. *)
Definition httpReadInsecure (u : string) (env : Env) (w : World)
  : (option error * string) * World :=
  let (a, w') := call (EvHTTPGet u) env w in
  match a_http a with
  | GetFails text => ((Some (External text), EmptyString), w')
  | Responds code body copyErr =>
      if 400 <=? code then ((Some (ErrReturnedStatus u code), EmptyString), w')
      else ((lift_err copyErr, body), w')
  end.

(** *** [createHelmWordpress] and [deleteHelmWordpress] *)

Definition createHelmWordpress (env : Env) (w : World) : option error * World :=
  let c := cfg w in
  let ngType := if ManagedNodeGroups c then "managed" else "custom" in
  let nodeSelector :=
    VMap [("AMIType", VAMITypeAL2X8664); ("NGType", VString ngType)] in
  let persistence :=
    VMap [("enabled", VBool true); ("storageClassName", VString "gp2")] in
  let values :=
    [ ("nodeSelector", nodeSelector);
      ("wordpressUsername", VString (UserName (AddOn c)));
      ("wordpressPassword", VString (Password (AddOn c)));
      ("persistence", persistence);
      ("mariadb",
       VMap [ ("enabled", VBool true);
              ("rootUser",
               VMap [ ("password", VString (Password (AddOn c)));
                      ("forcePassword", VBool false) ]);
              ("db",
               VMap [ ("name", VString "wordpress");
                      ("user", VString (UserName (AddOn c)));
                      ("password", VString (Password (AddOn c))) ]);
              ("master",
               VMap [ ("nodeSelector", nodeSelector);
                      ("persistence", persistence) ]);
              ("slave", VMap [ ("nodeSelector", nodeSelector) ]) ]) ] in
  let (a, w') :=
    call (EvInstall (mkInstall (15 * Minute) (KubeConfigPath c)
                               (Namespace (AddOn c)) chartRepoURL chartName
                               chartName values)) env w in
  (lift_err (a_err a), w').

(** The [helm.InstallConfig] of [deleteHelmWordpress]. *)
Definition uninstallConfig (c : EKSConfig) : InstallConfig :=
  mkInstall (15 * Minute) (KubeConfigPath c) (Namespace (AddOn c)) EmptyString
            chartName chartName [].

Definition deleteHelmWordpress (env : Env) (w : World) : option string * World :=
  let (a, w') := call (EvUninstall (uninstallConfig (cfg w))) env w in
  (a_err a, w').

(** *** Sequencing *)

(** A piece of code that returns an [error]; [None] at the top is a loop cut
    off by its iteration bound (see [waitService_returns]). *)
Definition Run : Type := Env -> World -> option (option error * World).

Definition total (f : Env -> World -> option error * World) : Run :=
  fun env w => Some (f env w).

(** [if err := step(); err != nil { return err }], then [rest]. *)
Definition andThen (step rest : Run) : Run :=
  fun env w =>
    match step env w with
    | None => None
    | Some (Some e, w') => Some (Some e, w')
    | Some (None, w') => rest env w'
    end.

Notation "step ;; rest" := (andThen step rest)
  (at level 61, right associativity).

(** *** [waitService] *)

Definition svcName : string := "wordpress".
Definition waitDur : Z := 2 * Minute.
Definition tick : Z := 5 * Second.

(** A loop's iterations each wait for a [tick], so [window_ticks] of them
    fill the window. *)
Definition window_ticks : nat := 24.

Definition kubectlArgs (c : EKSConfig) : list string :=
  [ KubectlPath c;
    "--kubeconfig=" ++ KubeConfigPath c;
    "--namespace=" ++ Namespace (AddOn c);
    "describe"; "svc"; svcName ].

(** The first loop. [hostName] is the variable of that name; the result is
    the error to return, if any, and [hostName] at the loop's end. *)
Fixpoint discover (fuel : nat) (ts : tester) (retryStart : Z)
    (hostName : string) (env : Env) (w : World)
  : option ((option error * string) * World) :=
  if now w - retryStart <? waitDur then
    match fuel with
    | O => None
    | S fuel' =>
        match Select ts tick env w with
        | (RecvStop, w1) =>
            Some ((Some (errors_New "WordPress service creation aborted"),
                   hostName), w1)
        | (RecvSig sig, w1) =>
            Some ((Some (ErrReceivedSignal sig), hostName), w1)
        | (RecvTimer, w1) =>
            let (_, w2) := call (EvExec (kubectlArgs (cfg w1))) env w1 in
            let (so, w3) :=
              call (EvGetService (Namespace (AddOn (cfg w2))) svcName) env w2 in
            match a_err so with
            | Some _ =>
                discover fuel' ts retryStart hostName env (Sleep tick env w3)
            | None =>
                let hostName' :=
                  match a_ingress so with
                  | [] => hostName
                  | ing :: _ => ing
                  end in
                if String.eqb hostName' EmptyString
                then discover fuel' ts retryStart hostName' env w3
                else Some ((None, hostName'), w3)
            end
        end
    end
  else Some ((None, hostName), w).

Definition deriveNLBName (hostName : string) : string :=
  Strings.first (Strings.Split hostName "-").

Definition deriveNLBARN (region accountID hostName : string) : string :=
  let ss := Strings.first (Strings.Split hostName ".") in
  let ss := Strings.Replace ss "-" "/" in
  "arn:aws:elasticloadbalancing:" ++ region ++ ":" ++ accountID
    ++ ":loadbalancer/net/" ++ ss.

(** The assignments to [URL], [NLBName] and [NLBARN]. *)
Definition recordEndpoint (hostName : string) (c : EKSConfig) : EKSConfig :=
  set_endpoint ("http://" ++ hostName)
               (deriveNLBName hostName)
               (deriveNLBARN (Region c) (AWSAccountID c) hostName)
               c.

Definition welcome : string :=
  "<p>Welcome to WordPress. This is your first post.".

Definition containsb (s substr : string) : bool :=
  is_ready (String.index 0 substr s).

(** The second loop; the result is the error to return, if any. *)
Fixpoint probe (fuel : nat) (ts : tester) (retryStart : Z)
    (env : Env) (w : World) : option (option error * World) :=
  if now w - retryStart <? waitDur then
    match fuel with
    | O => None
    | S fuel' =>
        match Select ts tick env w with
        | (RecvStop, w1) =>
            Some (Some (errors_New "WordPress Service creation aborted"), w1)
        | (RecvSig sig, w1) => Some (Some (ErrReceivedSignal sig), w1)
        | (RecvTimer, w1) =>
            let '((err, httpOutput), w2) :=
              httpReadInsecure (URL (AddOn (cfg w1))) env w1 in
            match err with
            | Some _ => probe fuel' ts retryStart env (Sleep tick env w2)
            | None =>
                if containsb httpOutput welcome || true
                then Some (None, w2)
                else probe fuel' ts retryStart env w2
            end
        end
    end
  else Some (None, w).

Definition waitService (ts : tester) : Run :=
  fun env w =>
    match Select ts waitDur env w with
    | (RecvStop, w1) =>
        Some (Some (errors_New "WordPress service creation aborted"), w1)
    | (RecvSig sig, w1) => Some (Some (ErrReceivedSignal sig), w1)
    | (RecvTimer, w1) =>
        match discover window_ticks ts (now w1) EmptyString env w1 with
        | None => None
        | Some ((Some e, _), w2) => Some (Some e, w2)
        | Some ((None, hostName), w2) =>
            if String.eqb hostName EmptyString
            then Some (Some (errors_New "failed to find host name"), w2)
            else
              let w3 := update (recordEndpoint hostName) w2 in
              let w4 := Sleep (20 * Second) env w3 in
              (probe window_ticks ts (now w4) ;; total Sync) env w4
        end
    end.

(** *** [Create] and [Delete] *)

Definition CreateNamespace : Run :=
  total (fun env w =>
           let (a, w') :=
             call (EvCreateNamespace (Namespace (AddOn (cfg w)))) env w in
           (lift_err (a_err a), w')).

Definition RepoAdd : Run :=
  total (fun env w =>
           let (a, w') := call (EvRepoAdd chartRepoName chartRepoURL) env w in
           (lift_err (a_err a), w')).

Definition Create (ts : tester) : Run :=
  fun env w =>
    if Created (AddOn (cfg w)) then Some (None, w)
    else
      let w0 := update (set_Created true) w in
      let (_, w1) := Sync env w0 in
      let createStart := now w1 in
      let deferred (w' : World) : World :=
        snd (Sync env (update (set_CreateTook (now w' - createStart)) w')) in
      match (CreateNamespace ;; RepoAdd ;; total createHelmWordpress ;;
             waitService ts ;; total Sync) env w1 with
      | None => None
      | Some (r, w') => Some (r, deferred w')
      end.

Definition Delete (ts : tester) (env : Env) (w : World)
  : option error * World :=
  if negb (Created (AddOn (cfg w))) then (None, w)
  else
    let deleteStart := now w in
    let deferred (w' : World) : World :=
      snd (Sync env (update (set_DeleteTook (now w' - deleteStart)) w')) in
    let (err1, w1) := deleteHelmWordpress env w in
    let errs := match err1 with
                | Some text => [text]
                | None => []
                end in
    let (a, w2) :=
      call (EvDeleteNamespaceAndWait (Namespace (AddOn (cfg w1)))) env w1 in
    let errs :=
      match a_err a with
      | Some text =>
          List.app errs
            ["failed to delete Wordpress namespace (" ++ text ++ ")"]
      | None => errs
      end in
    if (0 <? List.length errs)%nat
    then (Some (errors_New (Strings.Join errs ", ")), deferred w2)
    else
      let (r, w3) := Sync env (update (set_Created false) w2) in
      (r, deferred w3).

(** *** Notions the statements use *)

(** [w'] is [w] after the calls [evs], which left the configuration as it
    was. *)
Definition follows (w w' : World) (evs : list Event) : Prop :=
  cfg w' = cfg w /\ now w <= now w' /\ trace w' = List.app (trace w) evs.

(** A check point that found the stop channel or the signal channel ready. *)
Definition cancel_seen (ev : Event) : bool :=
  match ev with
  | EvSelect _ stopReady sigReady _ => stopReady || sigReady
  | _ => false
  end.

(** No check point among [evs] found a channel ready. *)
Definition calm (evs : list Event) : Prop :=
  Forall (fun ev => cancel_seen ev = false) evs.

(** The timer case of a [select] ran. *)
Definition timer_taken (taken : selected) : bool :=
  match taken with
  | RecvTimer => true
  | RecvStop | RecvSig _ => false
  end.

(** A check point logged as call [n] shows what the two channels of [ts]
    held then, and its timer case ran exactly when neither was ready. *)
Definition heard_at (ts : tester) (n : nat) (ev : Event) : bool :=
  match ev with
  | EvSelect _ stopReady sigReady taken =>
      Bool.eqb stopReady (is_ready (Stopc ts n))
      && Bool.eqb sigReady (is_ready (Sig ts n))
      && Bool.eqb (timer_taken taken) (negb (stopReady || sigReady))
  | _ => true
  end.

(** So does every check point among [evs], the calls from call [n] on. *)
Fixpoint heard (ts : tester) (n : nat) (evs : list Event) : bool :=
  match evs with
  | [] => true
  | ev :: rest => heard_at ts n ev && heard ts (S n) rest
  end.

(** Every run of kubectl and every GET among [evs] is the call right after
    a check point whose timer case ran; [after_timer] says whether the call
    before [evs] was such a check point. *)
Fixpoint guarded (after_timer : bool) (evs : list Event) : bool :=
  match evs with
  | [] => true
  | ev :: rest =>
      match ev with
      | EvSelect _ _ _ taken => guarded (timer_taken taken) rest
      | EvExec _ | EvHTTPGet _ => after_timer && guarded false rest
      | _ => guarded false rest
      end
  end.

(** The last of the calls [evs] is a check point that found a channel
    ready, and no check point before it did. *)
Definition aborted_at_last (evs : list Event) : Prop :=
  exists pre d stopReady sigReady taken,
    evs = List.app pre [EvSelect d stopReady sigReady taken]
    /\ calm pre
    /\ stopReady || sigReady = true.

(** The errors [waitService] returns at a check point that was cancelled. *)
Definition cancellation (r : option error) : Prop :=
  r = Some (errors_New "WordPress service creation aborted")
  \/ r = Some (errors_New "WordPress Service creation aborted")
  \/ exists sig, r = Some (ErrReceivedSignal sig).

(** What the calls [evs] of a run from [w] to [w'] that returned [r] show:
    its check points read the channels of [ts], its kubectl runs and GETs
    are guarded by them, and either it was aborted at its last call with a
    cancellation error, or no check point found a channel ready and it
    returned nil. *)
Definition checks (ts : tester) (w w' : World) (r : option error)
    (evs : list Event) : Prop :=
  trace w' = List.app (trace w) evs
  /\ heard ts (here w) evs = true
  /\ guarded false evs = true
  /\ ((cancellation r /\ aborted_at_last evs) \/ (r = None /\ calm evs)).

(** [run] always returns. *)
Definition returns (run : Run) : Prop :=
  forall env w, exists r w', run env w = Some (r, w').

(** [run] only adds calls to the trace and leaves [Created] as it is. *)
Definition keeps_Created (run : Run) : Prop :=
  forall env w r w',
    run env w = Some (r, w') ->
    Created (AddOn (cfg w')) = Created (AddOn (cfg w))
    /\ exists evs, trace w' = List.app (trace w) evs.

(** [w'] is no earlier than [w], and its configuration differs from the one
    of [w] at most in the endpoint and the two durations: what the package is
    installed as, and where, is the same. *)
Definition steady (w w' : World) : Prop :=
  now w <= now w'
  /\ Created (AddOn (cfg w')) = Created (AddOn (cfg w))
  /\ Namespace (AddOn (cfg w')) = Namespace (AddOn (cfg w))
  /\ UserName (AddOn (cfg w')) = UserName (AddOn (cfg w))
  /\ Password (AddOn (cfg w')) = Password (AddOn (cfg w))
  /\ KubeConfigPath (cfg w') = KubeConfigPath (cfg w)
  /\ KubectlPath (cfg w') = KubectlPath (cfg w)
  /\ Region (cfg w') = Region (cfg w)
  /\ AWSAccountID (cfg w') = AWSAccountID (cfg w).

(** Every run of [run] is [steady]. *)
Definition keeps_steady (run : Run) : Prop :=
  forall env w r w', run env w = Some (r, w') -> steady w w'.

(** What the two sub-steps of [Delete] answer when [Delete] starts in [w]:
    the uninstall is the next call, the namespace deletion the one after. *)
Definition uninstall_error (env : Env) (w : World) : option string :=
  a_err (env (here w)).

Definition namespace_error (env : Env) (w : World) : option string :=
  a_err (env (S (here w))).

(** *** Inputs for the examples *)

(** An answer with no error, no delay, no ingress and a refused connection. *)
Definition quiet : Answer :=
  mkAnswer None false 0 [] (GetFails "connection refused") EmptyString
           EmptyString [].

Definition failing (text : string) : Answer :=
  mkAnswer (Some text) false 0 [] (GetFails "connection refused") EmptyString
           EmptyString [].

Definition exampleHost : string := "abcd1234-zone.elb.amazonaws.com".

Definition exampleConfig : EKSConfig :=
  mkConfig (mkAddOn false "wordpress" "user" "secret" EmptyString EmptyString
                    EmptyString 0 0)
           "us-west-2" "123456789012" "/usr/bin/kubectl" "/tmp/kubeconfig"
           false.

Definition freshWorld : World := mkWorld exampleConfig 0 [].

Definition installedWorld : World :=
  mkWorld (set_Created true exampleConfig) 0 [].

(** A tester nobody stops. *)
Definition unstopped : tester := mkTester make_chan make_chan.

(** A tester whose stop channel is closed from the start. *)
Definition stopped : tester :=
  mkTester (fun _ => Some tt) make_chan.

(** The service gets its ingress at the first query (call 7 of [Create]);
    every HTTP GET is refused. *)
Definition neverResponds : Env :=
  fun n =>
    if Nat.eqb n 7
    then mkAnswer None false 0 [exampleHost] (GetFails "connection refused")
                  EmptyString EmptyString []
    else quiet.

(** The install (call 3 of [Create]) fails. *)
Definition installFails : Env :=
  fun n => if Nat.eqb n 3 then failing "helm install failed" else quiet.

(** The uninstall (call 0 of [Delete]) fails. *)
Definition uninstallFails : Env :=
  fun n => if Nat.eqb n 0 then failing "helm uninstall failed" else quiet.

(** Both sub-steps of [Delete] succeed, the [Sync] after them (call 2) fails. *)
Definition syncFails : Env :=
  fun n => if Nat.eqb n 2 then failing "disk full" else quiet.

Definition allQuiet : Env := fun _ => quiet.

(** The service has its ingress, and answers every GET with a 200, from the
    start. *)
Definition ready : Env :=
  fun _ =>
    mkAnswer None false 0 [exampleHost] (Responds 200 "<html></html>" None)
             EmptyString EmptyString [].

(** A tester whose stop channel is closed just before check point 5: in a
    run of [waitService] against [ready], the check point right before the
    first GET. *)
Definition stoppedBeforeProbe : tester :=
  mkTester (fun n => if Nat.eqb n 5 then Some tt else None) make_chan.

(** The number of GETs among the calls. *)
Definition gets (evs : list Event) : nat :=
  List.length
    (filter (fun ev => match ev with EvHTTPGet _ => true | _ => false end) evs).

End Wordpress.

(** ** Package [eks]: the cluster role *)

Module Role.

Record Parameters : Type := mkParameters {
  ClusterRoleCreate : bool;
  Parameters_ClusterRoleARN : string;
  ClusterRoleName : string;
  ClusterRoleServicePrincipals : list string;
  ClusterRoleManagedPolicyARNs : list string
}.

Record Status : Type := mkStatus {
  ClusterRoleCFNStackID : string;
  Status_ClusterRoleARN : string
}.

(** The fields of [eksconfig.Config] that [role.go] reads or writes;
    [NLBHelloWorld_Enable] is [AddOnNLBHelloWorld.Enable]. *)
Record Config : Type := mkConfig {
  Name : string;
  Params : Parameters;
  Stat : Status;
  NLBHelloWorld_Enable : bool
}.

Definition set_ClusterRoleCFNStackID (id : string) (c : Config) : Config :=
  mkConfig (Name c) (Params c)
           (mkStatus id (Status_ClusterRoleARN (Stat c)))
           (NLBHelloWorld_Enable c).

Definition set_ClusterRoleARN (arn : string) (c : Config) : Config :=
  mkConfig (Name c) (Params c)
           (mkStatus (ClusterRoleCFNStackID (Stat c)) arn)
           (NLBHelloWorld_Enable c).

(** The two template constants, by name. *)
Inductive Template : Type :=
| TemplateClusterRoleBasic
| TemplateClusterRoleNLB.

Record CreateStackInput : Type := mkCreateStackInput {
  StackName : string;
  Capabilities : list string;
  OnFailure : string;
  TemplateBody : Template;
  Tags : list (string * string);
  StackParameters : list (string * string)
}.

Record Output : Type := mkOutput {
  OutputKey : string;
  OutputValue : string
}.

Record Stack_ : Type := mkStack {
  StackStatus_ : string;
  Outputs : list Output
}.

(** [awscfn.StackStatus]. *)
Record StackStatus : Type := mkStackStatus {
  Stack : Stack_;
  Error : option error
}.

(** The zero value a [var st awscfn.StackStatus] starts with. *)
Definition zeroStackStatus : StackStatus :=
  mkStackStatus (mkStack EmptyString []) None.

(** How one wait of the poller ended. *)
Inductive waited : Type :=
| WaitStop
| WaitSig (sig : Signal)
| WaitDeadline
| WaitTimer.

Inductive Event : Type :=
| EvCreateStack (input : CreateStackInput)
| EvDeleteStack (stackName : string)
| EvPollWait (d : Z) (stopReady sigReady : bool) (ended : waited)
| EvDescribeStacks (stackID : string)
| EvRecordStatus (format : string) (arg : error)
| EvSync (saved : Config).

Record World : Type := mkWorld {
  cfg : Config;
  now : Z;
  trace : list Event
}.

(** The channels of [Tester]; [cfg] is in the world, [cfnAPI] in the
    environment, and the logger is not modelled. *)
Record Tester : Type := mkTester {
  stopCreationCh : chan unit;
  interruptSig : chan Signal
}.

Definition here (w : World) : nat := List.length (trace w).

Definition logged (ev : Event) (spent : Z) (w : World) : World :=
  mkWorld (cfg w) (now w + spent) (trace w ++ [ev]).

Definition call (ev : Event) (env : Env) (w : World) : Answer * World :=
  let a := env (here w) in
  (a, logged ev (Z.of_N (a_late a)) w).

Definition update (f : Config -> Config) (w : World) : World :=
  mkWorld (f (cfg w)) (now w) (trace w).

(** [ts.cfg.Sync()]. *)
Definition Sync (env : Env) (w : World) : option error * World :=
  let (a, w') := call (EvSync (cfg w)) env w in
  (lift_err (a_err a), w').

(** [ts.cfg.RecordStatus(fmt.Sprintf(format, arg))]. *)
Definition RecordStatus (format : string) (arg : error) (env : Env)
    (w : World) : World :=
  snd (call (EvRecordStatus format arg) env w).

Definition ResourceStatusCreateComplete : string := "CREATE_COMPLETE".
Definition ResourceStatusDeleteComplete : string := "DELETE_COMPLETE".
Definition OnFailureDelete : string := "DELETE".

(** *** The poller *)

Definition failed (e : error) : StackStatus :=
  mkStackStatus (mkStack EmptyString []) (Some e).

(** Modelled from the spec: one wait of [awscfn.Poll], whose package
    [pkg/aws/cloudformation] is not among the sources. Section 5: a select
    among the timer, the stop signal, the interrupt signal and the deadline
    of the context, whichever resolves first. *)
Definition PollWait (deadline : Z) (stopc : chan unit) (sigc : chan Signal)
    (d : Z) (env : Env) (w : World) : waited * World :=
  let n := here w in
  let a := env n in
  let late := Z.of_N (a_late a) in
  let (ended, spent) :=
    match select stopc sigc n (a_pick a) with
    | RecvStop => (WaitStop, Z.min d late)
    | RecvSig sig => (WaitSig sig, Z.min d late)
    | RecvTimer =>
        if deadline <? now w + d
        then (WaitDeadline, Z.max 0 (deadline - now w) + late)
        else (WaitTimer, d + late)
    end in
  (ended,
   logged (EvPollWait d (is_ready (stopc n)) (is_ready (sigc n)) ended)
          spent w).

(** Modelled from the spec: the attempts of [awscfn.Poll]. Section 4.1: the
    stream closes on the desired status (one result with the outputs), on a
    query failure, on the deadline (a timeout error) or on a cancellation
    signal (a cancellation error), whichever comes first; between attempts
    the poller waits [pollInterval]. *)
Fixpoint pollLoop (fuel : nat) (deadline : Z) (stopc : chan unit)
    (sigc : chan Signal) (stackID desired : string) (pollInterval : Z)
    (env : Env) (w : World) : option (list StackStatus * World) :=
  match fuel with
  | O => None
  | S fuel' =>
      let (a, w1) := call (EvDescribeStacks stackID) env w in
      match a_err a with
      | Some text => Some ([failed (External text)], w1)
      | None =>
          let snapshot :=
            mkStackStatus
              (mkStack (a_status a)
                       (map (fun kv => mkOutput (fst kv) (snd kv))
                            (a_outputs a)))
              None in
          if String.eqb (a_status a) desired then Some ([snapshot], w1)
          else
            match PollWait deadline stopc sigc pollInterval env w1 with
            | (WaitStop, w2) => Some ([snapshot; failed ErrPollStopped], w2)
            | (WaitSig sig, w2) =>
                Some ([snapshot; failed (ErrPollSignal sig)], w2)
            | (WaitDeadline, w2) =>
                Some ([snapshot; failed ErrPollDeadline], w2)
            | (WaitTimer, w2) =>
                match pollLoop fuel' deadline stopc sigc stackID desired
                               pollInterval env w2 with
                | None => None
                | Some (rest, w3) => Some (snapshot :: rest, w3)
                end
            end
      end
  end.

(** Modelled from the spec: [awscfn.Poll], in the argument order of its
    callers, the two durations being the poll interval and the initial
    delay (section 4.2: 25s and 10s). The result is the stream of snapshots
    the caller ranges over. The first attempt is delayed by [initialDelay];
    the attempts that fit before the deadline are at most
    [(deadline - now) / pollInterval + 1]. *)
Definition Poll (deadline : Z) (stopc : chan unit) (sigc : chan Signal)
    (stackID desired : string) (pollInterval initialDelay : Z)
    (env : Env) (w : World) : option (list StackStatus * World) :=
  match PollWait deadline stopc sigc initialDelay env w with
  | (WaitStop, w1) => Some ([failed ErrPollStopped], w1)
  | (WaitSig sig, w1) => Some ([failed (ErrPollSignal sig)], w1)
  | (WaitDeadline, w1) => Some ([failed ErrPollDeadline], w1)
  | (WaitTimer, w1) =>
      pollLoop (S (Z.to_nat ((deadline - now w1) / pollInterval + 1)))
               deadline stopc sigc stackID desired pollInterval env w1
  end.

(** *** [createClusterRole] and [deleteClusterRole] *)

(** [for st = range ch { if st.Error != nil { cancel(); RecordStatus(...) } }]:
    the statuses are received in order, [st] ends as the last one received.
    The poller closes the stream once it has sent an error, so the [cancel()]
    in the body changes nothing. *)
Fixpoint rangeStatuses (format : string) (ch : list StackStatus)
    (st : StackStatus) (env : Env) (w : World) : StackStatus * World :=
  match ch with
  | [] => (st, w)
  | received :: rest =>
      let w' := match Error received with
                | Some e => RecordStatus format e env w
                | None => w
                end in
      rangeStatuses format rest received env w'
  end.

(** [for _, o := range st.Stack.Outputs { switch k := ...; k { ... } }]. *)
Fixpoint installOutputs (outputs : list Output) (w : World)
  : option error * World :=
  match outputs with
  | [] => (None, w)
  | o :: rest =>
      let k := OutputKey o in
      if String.eqb k "ClusterRoleARN"
      then installOutputs rest (update (set_ClusterRoleARN (OutputValue o)) w)
      else (Some (ErrUnexpectedOutputKey
                    k (ClusterRoleCFNStackID (Stat (cfg w)))), w)
  end.

Definition nonempty (s : string) : bool := negb (String.eqb s EmptyString).

Definition stackInputOf (c : Config) : CreateStackInput :=
  let tmpl := if NLBHelloWorld_Enable c then TemplateClusterRoleNLB
              else TemplateClusterRoleBasic in
  let p := Params c in
  let params := [("ClusterRoleName", ClusterRoleName p)] in
  let params :=
    if (0 <? List.length (ClusterRoleServicePrincipals p))%nat
    then List.app params
           [("ClusterRoleServicePrincipals",
             Strings.Join (ClusterRoleServicePrincipals p) ",")]
    else params in
  let params :=
    if (0 <? List.length (ClusterRoleManagedPolicyARNs p))%nat
    then List.app params
           [("ClusterRoleManagedPolicyARNs",
             Strings.Join (ClusterRoleManagedPolicyARNs p) ",")]
    else params in
  mkCreateStackInput (ClusterRoleName p) ["CAPABILITY_NAMED_IAM"]
                     OnFailureDelete tmpl
                     [("Kind", "aws-k8s-tester"); ("Name", Name c)]
                     params.

Definition createClusterRole (ts : Tester) (env : Env) (w : World)
  : option (option error * World) :=
  let c := cfg w in
  if negb (ClusterRoleCreate (Params c)) then Some (None, w)
  else if nonempty (Parameters_ClusterRoleARN (Params c))
          || nonempty (ClusterRoleCFNStackID (Stat c))
          || nonempty (Status_ClusterRoleARN (Stat c))
  then Some (None, w)
  else if String.eqb (ClusterRoleName (Params c)) EmptyString
  then Some (Some (errors_New "empty Parameters.ClusterRoleName"), w)
  else
    let (stackOutput, w1) := call (EvCreateStack (stackInputOf c)) env w in
    match a_err stackOutput with
    | Some text => Some (Some (External text), w1)
    | None =>
        let w2 :=
          update (set_ClusterRoleCFNStackID (a_stackId stackOutput)) w1 in
        let deadline := now w2 + 10 * Minute in
        match Poll deadline (stopCreationCh ts) (interruptSig ts)
                   (ClusterRoleCFNStackID (Stat (cfg w2)))
                   ResourceStatusCreateComplete
                   (25 * Second) (10 * Second) env w2 with
        | None => None
        | Some (ch, w3) =>
            let (st, w4) :=
              rangeStatuses "failed to create role (%v)" ch zeroStackStatus
                            env w3 in
            match Error st with
            | Some e => Some (Some e, w4)
            | None =>
                match installOutputs (Outputs (Stack st)) w4 with
                | (Some e, w5) => Some (Some e, w5)
                | (None, w5) => Some (Sync env w5)
                end
            end
        end
    end.

Definition deleteClusterRole (ts : Tester) (env : Env) (w : World)
  : option (option error * World) :=
  let c := cfg w in
  if negb (ClusterRoleCreate (Params c)) then Some (None, w)
  else if String.eqb (ClusterRoleCFNStackID (Stat c)) EmptyString
  then Some (None, w)
  else
    let (a, w1) :=
      call (EvDeleteStack (ClusterRoleCFNStackID (Stat c))) env w in
    match a_err a with
    | Some text => Some (Some (External text), w1)
    | None =>
        let deadline := now w1 + 10 * Minute in
        match Poll deadline make_chan make_chan
                   (ClusterRoleCFNStackID (Stat (cfg w1)))
                   ResourceStatusDeleteComplete
                   (25 * Second) (10 * Second) env w1 with
        | None => None
        | Some (ch, w2) =>
            let (st, w3) :=
              rangeStatuses "failed to delete role (%v)" ch zeroStackStatus
                            env w2 in
            match Error st with
            | Some e => Some (Some e, w3)
            | None => Some (Sync env w3)
            end
        end
    end.

(** *** Notions the statements use *)

(** [w'] is [w] after the calls [evs], which left the configuration as it
    was. *)
Definition follows (w w' : World) (evs : list Event) : Prop :=
  cfg w' = cfg w /\ now w <= now w' /\ trace w' = List.app (trace w) evs.

(** The output key is in the known schema. *)
Definition in_schema (o : Output) : bool :=
  String.eqb (OutputKey o) "ClusterRoleARN".

(** The outputs before the first one whose key is not in the schema: the
    ones the loop over the outputs visits and installs. *)
Fixpoint schema_prefix (outputs : list Output) : list Output :=
  match outputs with
  | [] => []
  | o :: rest => if in_schema o then o :: schema_prefix rest else []
  end.

(** The first output whose key is not in the schema, if any. *)
Fixpoint first_unknown (outputs : list Output) : option Output :=
  match outputs with
  | [] => None
  | o :: rest => if in_schema o then first_unknown rest else Some o
  end.

(** The world in which [createClusterRole] starts to poll: the stack was
    submitted and the stack ID returned is in the status. *)
Definition afterSubmission (env : Env) (w : World) : World :=
  update (set_ClusterRoleCFNStackID (a_stackId (env (here w))))
         (snd (call (EvCreateStack (stackInputOf (cfg w))) env w)).

(** The polling of [createClusterRole]: the stream it ranges over. *)
Definition createPoll (ts : Tester) (env : Env) (w : World)
  : option (list StackStatus * World) :=
  Poll (now (afterSubmission env w) + 10 * Minute)
       (stopCreationCh ts) (interruptSig ts)
       (ClusterRoleCFNStackID (Stat (cfg (afterSubmission env w))))
       ResourceStatusCreateComplete (25 * Second) (10 * Second)
       env (afterSubmission env w).

(** How a polling of [stackID] for [desired] ended, whose calls [evs] began
    at call [base], which left the world [w'] and whose last status carried
    [e]: at its deadline, at a query that failed, or at a query that found
    the desired status. The last call is that query in the last two. *)
Definition poll_ended (env : Env) (base : nat) (stackID desired : string)
    (deadline : Z) (evs : list Event) (w' : World) (e : option error)
  : Prop :=
  (e = Some ErrPollDeadline /\ deadline <= now w')
  \/ (exists pre text,
        evs = List.app pre [EvDescribeStacks stackID]
        /\ a_err (env (base + List.length pre)%nat) = Some text
        /\ e = Some (External text))
  \/ (exists pre,
        evs = List.app pre [EvDescribeStacks stackID]
        /\ a_err (env (base + List.length pre)%nat) = None
        /\ a_status (env (base + List.length pre)%nat) = desired
        /\ e = None).

(** The conditions under which [createClusterRole] has nothing to create. *)
Definition nothing_to_create (c : Config) : Prop :=
  ClusterRoleCreate (Params c) = false
  \/ Parameters_ClusterRoleARN (Params c) <> EmptyString
  \/ ClusterRoleCFNStackID (Stat c) <> EmptyString
  \/ Status_ClusterRoleARN (Stat c) <> EmptyString.

(** The conditions under which [createClusterRole] goes on to create: the
    negation of [nothing_to_create]. *)
Definition must_create (c : Config) : Prop :=
  ClusterRoleCreate (Params c) = true
  /\ Parameters_ClusterRoleARN (Params c) = EmptyString
  /\ ClusterRoleCFNStackID (Stat c) = EmptyString
  /\ Status_ClusterRoleARN (Stat c) = EmptyString.

(** An error of the poller that reports a cancellation. *)
Definition poll_cancelled (e : option error) : bool :=
  match e with
  | Some ErrPollStopped | Some (ErrPollSignal _) => true
  | _ => false
  end.

(** What a stack deletion can return when nothing cancels its polling: nil,
    the deadline of the polling, or an error of a collaborator. *)
Definition uncancelled (e : option error) : Prop :=
  e = None \/ e = Some ErrPollDeadline \/ exists text, e = Some (External text).

(** A wait of the poller that found a channel ready, or that a channel
    ended. *)
Definition wait_cancelled (ev : Event) : bool :=
  match ev with
  | EvPollWait _ stopReady sigReady ended =>
      stopReady || sigReady
      || match ended with
         | WaitStop | WaitSig _ => true
         | WaitDeadline | WaitTimer => false
         end
  | _ => false
  end.

(** No wait among [evs] was cancelled. *)
Definition undisturbed (evs : list Event) : Prop :=
  Forall (fun ev => wait_cancelled ev = false) evs.

(** No [Sync] is among [evs]. *)
Definition unsynced (evs : list Event) : Prop :=
  Forall (fun ev => match ev with EvSync _ => False | _ => True end) evs.

(** The errors [createClusterRole] builds or takes from the poller's stream
    after the submission, as opposed to the one its final [Sync] returns. *)
Definition creation_error (r : option error) : bool :=
  match r with
  | Some ErrPollStopped | Some (ErrPollSignal _) | Some ErrPollDeadline
  | Some (ErrUnexpectedOutputKey _ _) => true
  | _ => false
  end.

(** The number of stack deletions submitted. *)
Definition deletions (evs : list Event) : nat :=
  List.length
    (filter (fun ev => match ev with EvDeleteStack _ => true | _ => false end)
            evs).

(** *** Inputs for the examples *)

Definition exampleStackID : string :=
  "arn:aws:cloudformation:us-west-2:123456789012:stack/eks-role/1".

Definition exampleRoleARN : string :=
  "arn:aws:iam::123456789012:role/eks-role".

(** Nothing created yet, creation enabled. *)
Definition toCreate : Config :=
  mkConfig "eks-test"
           (mkParameters true EmptyString "eks-role" [] [])
           (mkStatus EmptyString EmptyString)
           false.

(** A role created before. *)
Definition created : Config :=
  mkConfig "eks-test"
           (mkParameters true EmptyString "eks-role" [] [])
           (mkStatus exampleStackID exampleRoleARN)
           false.

(** Creation disabled. *)
Definition notEnabled : Config :=
  mkConfig "eks-test"
           (mkParameters false EmptyString "eks-role" [] [])
           (mkStatus EmptyString EmptyString)
           false.

Definition startingFrom (c : Config) : World := mkWorld c 0 [].

(** A tester nobody stops, and one whose stop channel is closed from the
    start. *)
Definition unstopped : Tester := mkTester make_chan make_chan.

Definition stopped : Tester := mkTester (fun _ => Some tt) make_chan.

(** The stack is reported deleted at the first query. *)
Definition deleteCompletes : Env :=
  fun _ =>
    mkAnswer None false 0 [] (GetFails EmptyString) EmptyString
             ResourceStatusDeleteComplete [].

(** The stack is never reported deleted. *)
Definition deleteHangs : Env :=
  fun _ =>
    mkAnswer None false 0 [] (GetFails EmptyString) EmptyString
             "DELETE_IN_PROGRESS" [].

(** The stack is created at the first query, with the given outputs. *)
Definition createCompletes (outputs : list (string * string)) : Env :=
  fun _ =>
    mkAnswer None false 0 [] (GetFails EmptyString) exampleStackID
             ResourceStatusCreateComplete outputs.

(** Creation enabled, but no name for the role. *)
Definition unnamed : Config :=
  mkConfig "eks-test"
           (mkParameters true EmptyString EmptyString [] [])
           (mkStatus EmptyString EmptyString)
           false.

(** Creation enabled, with service principals and managed policies of its
    own. *)
Definition customised : Config :=
  mkConfig "eks-test"
           (mkParameters true EmptyString "eks-role"
                         ["eks.amazonaws.com"; "ec2.amazonaws.com"]
                         ["arn:aws:iam::aws:policy/AmazonEKSClusterPolicy"])
           (mkStatus EmptyString EmptyString)
           true.

(** A stack ID is recorded, but creation is not enabled. *)
Definition foreign : Config :=
  mkConfig "eks-test"
           (mkParameters false EmptyString "eks-role" [] [])
           (mkStatus exampleStackID exampleRoleARN)
           false.

(** The stack is created at the first query, with an output that is not
    expected before the expected one. *)
Definition unexpectedFirst : Env :=
  createCompletes [("RoleName", "eks-role"); ("ClusterRoleARN", exampleRoleARN)].

(** The deletion is accepted, and every call after it fails: the first
    query of the stack is throttled. *)
Definition describeFails : Env :=
  fun n =>
    mkAnswer (match n with O => None | S _ => Some "Throttling" end)
             false 0 [] (GetFails EmptyString) EmptyString
             "DELETE_IN_PROGRESS" [].

(** Every call fails. *)
Definition rejects : Env :=
  fun _ =>
    mkAnswer (Some "AccessDenied") false 0 [] (GetFails EmptyString)
             EmptyString EmptyString [].

(** The parameter of the stack input with the given key, if any. *)
Definition parameter (key : string) (input : CreateStackInput)
  : option string :=
  option_map snd
    (find (fun kv => String.eqb (fst kv) key) (StackParameters input)).

Definition commaFree (l : list string) : Prop :=
  Forall (fun s => Strings.free_of "," s = true) l.

End Role.

(** * Properties *)

(** ** Strings *)

Module StringsFacts.
Import Strings.

Lemma Split_nonempty (s : string) (sep : ascii) : Split s sep <> [].
Proof.
  destruct s as [|c s]; simpl; [discriminate|].
  destruct (Ascii.eqb c sep); [discriminate|].
  destruct (Split s sep); discriminate.
Qed.

Lemma first_Split (s : string) (sep : ascii) :
  first (Split s sep) = upto sep s.
Proof.
  induction s as [|c s IH]; simpl; [reflexivity|].
  destruct (Ascii.eqb c sep); [reflexivity|].
  unfold first in IH.
  destruct (Split s sep) as [|p ps] eqn:E; simpl in *.
  - exfalso. now apply (Split_nonempty s sep).
  - now rewrite IH.
Qed.

Lemma prefix_single (c d : ascii) (s : string) :
  String.prefix (String c EmptyString) (String d s) = Ascii.eqb d c.
Proof.
  simpl. destruct (ascii_dec c d) as [->|N].
  - rewrite Ascii.eqb_refl. now destruct s.
  - symmetry. apply Ascii.eqb_neq. congruence.
Qed.

(** [Split s c] starts with the substring of [s] before the first [c]. *)
Lemma upto_substring_before (c : ascii) (s : string) :
  upto c s = substring_before c s.
Proof.
  unfold substring_before.
  induction s as [|d s IH].
  - reflexivity.
  - cbn [upto String.index]. rewrite prefix_single.
    destruct (Ascii.eqb d c); [reflexivity|].
    destruct (String.index 0 (String c EmptyString) s) as [i|].
    + cbn [String.substring]. now rewrite IH.
    + now rewrite IH.
Qed.

(** The substring before the first [c] has no [c], and [s] continues with [c]
    right after it when [c] occurs at all. *)
Lemma upto_free (c : ascii) (s : string) : free_of c (upto c s) = true.
Proof.
  induction s as [|d s IH]; simpl; [reflexivity|].
  destruct (Ascii.eqb d c) eqn:E; simpl; [reflexivity|]. now rewrite E.
Qed.

Lemma upto_split (c : ascii) (s : string) :
  s = upto c s \/ exists rest, s = upto c s ++ String c rest.
Proof.
  induction s as [|d s IH]; simpl; [now left|].
  destruct (Ascii.eqb d c) eqn:E.
  - right. exists s. apply Ascii.eqb_eq in E. now subst.
  - destruct IH as [IH|[rest IH]].
    + left. now rewrite <- IH.
    + right. exists rest. simpl. now rewrite <- IH.
Qed.

Lemma Replace_every (old new : ascii) (s : string) :
  replaced_every old new s (Replace s old new).
Proof.
  split.
  - induction s as [|c s IH]; simpl; [reflexivity|]. now rewrite IH.
  - induction s as [|c s IH]; intros [|i]; simpl; try reflexivity. apply IH.
Qed.

Lemma append_assoc (a b c : string) : (a ++ b) ++ c = a ++ b ++ c.
Proof.
  induction a as [|x a IH]; simpl; [reflexivity|]. now rewrite IH.
Qed.

Lemma append_empty_r (a : string) : a ++ EmptyString = a.
Proof.
  induction a as [|x a IH]; simpl; [reflexivity|]. now rewrite IH.
Qed.

End StringsFacts.

(** ** The WordPress add-on *)

Module WordpressFacts.
Import Wordpress.

(** *** Calls *)

Lemma follows_refl (w : World) : follows w w [].
Proof.
  unfold follows. rewrite app_nil_r. repeat split. lia.
Qed.

Lemma follows_trans (w1 w2 w3 : World) (e1 e2 : list Event) :
  follows w1 w2 e1 -> follows w2 w3 e2 -> follows w1 w3 (List.app e1 e2).
Proof.
  unfold follows. intros (C1 & N1 & T1) (C2 & N2 & T2).
  repeat split; [congruence | lia |].
  rewrite T2, T1. now rewrite app_assoc.
Qed.

Lemma logged_follows (ev : Event) (spent : Z) (w : World) :
  0 <= spent -> follows w (logged ev spent w) [ev].
Proof.
  unfold follows, logged. simpl. intros. repeat split. lia.
Qed.

Lemma call_follows (ev : Event) (env : Env) (w : World) :
  follows w (snd (call ev env w)) [ev].
Proof.
  unfold call. simpl. apply logged_follows. lia.
Qed.

Lemma Sleep_follows (d : Z) (env : Env) (w : World) :
  0 <= d -> follows w (Sleep d env w) [EvSleep d].
Proof.
  intros. unfold Sleep. apply logged_follows. lia.
Qed.

Lemma Sleep_now (d : Z) (env : Env) (w : World) :
  now w + d <= now (Sleep d env w).
Proof.
  unfold Sleep, logged. simpl. lia.
Qed.

Lemma Sync_follows (env : Env) (w : World) :
  follows w (snd (Sync env w)) [EvSync (cfg w)].
Proof.
  unfold Sync. apply (call_follows (EvSync (cfg w)) env w).
Qed.

Lemma select_timer (stopc : chan unit) (sigc : chan Signal) (n : nat)
    (pick : bool) :
  select stopc sigc n pick = RecvTimer <->
  is_ready (stopc n) || is_ready (sigc n) = false.
Proof.
  unfold select.
  destruct (stopc n), (sigc n); simpl; try destruct pick;
    split; intro; try discriminate; reflexivity.
Qed.

(** A [select] logs one check point; its timer case runs exactly when the
    check point found neither channel ready, and then the whole duration has
    passed. *)
Lemma Select_follows (ts : tester) (d : Z) (env : Env) (w : World) :
  0 <= d ->
  exists ev,
    follows w (snd (Select ts d env w)) [ev]
    /\ (fst (Select ts d env w) = RecvTimer ->
        cancel_seen ev = false /\ now w + d <= now (snd (Select ts d env w)))
    /\ (fst (Select ts d env w) <> RecvTimer -> cancel_seen ev = true).
Proof.
  intro Hd. unfold Select. cbn [fst snd].
  set (n := here w). set (a := env n).
  set (taken := select (Stopc ts) (Sig ts) n (a_pick a)).
  eexists. split; [|split].
  - apply logged_follows. destruct taken; lia.
  - intro E. split.
    + cbn [cancel_seen]. now apply select_timer in E.
    + rewrite E. unfold logged. simpl. lia.
  - intro NE. cbn [cancel_seen].
    destruct (is_ready (Stopc ts n) || is_ready (Sig ts n)) eqn:R;
      [reflexivity|].
    exfalso. apply NE. now apply select_timer.
Qed.

Lemma httpReadInsecure_follows (u : string) (env : Env) (w : World) :
  follows w (snd (httpReadInsecure u env w)) [EvHTTPGet u].
Proof.
  unfold httpReadInsecure.
  pose proof (call_follows (EvHTTPGet u) env w) as F.
  destruct (call (EvHTTPGet u) env w) as [a w1]. cbn [snd] in F.
  destruct (a_http a) as [text|code body copyErr]; [exact F|].
  destruct (400 <=? code); exact F.
Qed.

(** *** The loops of [waitService] *)

Lemma tick_nonneg : 0 <= tick.
Proof. unfold tick, Second. lia. Qed.

Lemma calm_one (ev : Event) : cancel_seen ev = false -> calm [ev].
Proof. intro. now repeat constructor. Qed.

Lemma calm_app (e1 e2 : list Event) : calm e1 -> calm e2 -> calm (List.app e1 e2).
Proof. unfold calm. intros. apply Forall_app. now split. Qed.

Lemma calm_call (ev : Event) :
  match ev with EvSelect _ _ _ _ => False | _ => True end -> calm [ev].
Proof. intro. apply calm_one. now destruct ev. Qed.

Ltac step_call ev env w a w' F :=
  pose proof (call_follows ev env w) as F;
  destruct (call ev env w) as [a w'];
  cbn [snd] in F.

Ltac step_select ts d env w t w' ev F Ht Hc :=
  let P := fresh "P" in
  assert (P : 0 <= d) by (unfold waitDur, tick, Minute, Second; lia);
  destruct (Select_follows ts d env w P) as (ev & F & Ht & Hc);
  clear P;
  destruct (Select ts d env w) as [t w'];
  cbn [fst snd] in F, Ht, Hc.

(** The first loop either returns a cancellation error, or ends without an
    error after check points that were all calm. *)
Lemma discover_sound (fuel : nat) :
  forall ts retryStart hostName env w r hostName' w',
    discover fuel ts retryStart hostName env w = Some ((r, hostName'), w') ->
    exists evs,
      follows w w' evs /\ (cancellation r \/ (r = None /\ calm evs)).
Proof.
  induction fuel as [|fuel IH]; intros ts rs h env w r h' w' H;
    cbn [discover] in H; destruct (now w - rs <? waitDur).
  - discriminate.
  - inversion H; subst. exists []. split; [apply follows_refl|].
    right. split; [reflexivity|constructor].
  - step_select ts tick env w t w1 ev F Ht Hc.
    destruct t as [|sig|].
    + inversion H; subst. exists [ev]. split; [exact F|]. left. now left.
    + inversion H; subst. exists [ev]. split; [exact F|].
      left. right. right. now exists sig.
    + destruct (Ht eq_refl) as [Hev _].
      step_call (EvExec (kubectlArgs (cfg w1))) env w1 a2 w2 F2.
      step_call (EvGetService (Namespace (AddOn (cfg w2))) svcName) env w2
                so w3 F3.
      assert (F13 : follows w w3
                      [ev; EvExec (kubectlArgs (cfg w1));
                       EvGetService (Namespace (AddOn (cfg w2))) svcName]).
      { apply (follows_trans w w1 w3 [ev] _ F).
        apply (follows_trans w1 w2 w3 [_] [_] F2 F3). }
      assert (C13 : calm [ev; EvExec (kubectlArgs (cfg w1));
                          EvGetService (Namespace (AddOn (cfg w2))) svcName]).
      { repeat constructor. exact Hev. }
      destruct (a_err so).
      * apply IH in H. destruct H as (evs & Fr & V).
        pose proof (Sleep_follows tick env w3 tick_nonneg) as F4.
        eexists. split.
        -- eapply follows_trans; [exact F13|].
           eapply follows_trans; [exact F4|exact Fr].
        -- destruct V as [V|[V1 V2]]; [now left|right]. split; [exact V1|].
           apply calm_app; [exact C13|]. apply calm_app; [|exact V2].
           now apply calm_one.
      * destruct (String.eqb _ EmptyString).
        -- apply IH in H. destruct H as (evs & Fr & V).
           eexists. split; [eapply follows_trans; [exact F13|exact Fr]|].
           destruct V as [V|[V1 V2]]; [now left|right]. split; [exact V1|].
           now apply calm_app.
        -- inversion H; subst. eexists. split; [exact F13|]. right.
           split; [reflexivity|exact C13].
  - inversion H; subst. exists []. split; [apply follows_refl|].
    right. split; [reflexivity|constructor].
Qed.

(** So does the second loop. *)
Lemma probe_sound (fuel : nat) :
  forall ts retryStart env w r w',
    probe fuel ts retryStart env w = Some (r, w') ->
    exists evs,
      follows w w' evs /\ (cancellation r \/ (r = None /\ calm evs)).
Proof.
  induction fuel as [|fuel IH]; intros ts rs env w r w' H;
    cbn [probe] in H; destruct (now w - rs <? waitDur).
  - discriminate.
  - inversion H; subst. exists []. split; [apply follows_refl|].
    right. split; [reflexivity|constructor].
  - step_select ts tick env w t w1 ev F Ht Hc.
    destruct t as [|sig|].
    + inversion H; subst. exists [ev]. split; [exact F|]. left. right. now left.
    + inversion H; subst. exists [ev]. split; [exact F|].
      left. right. right. now exists sig.
    + destruct (Ht eq_refl) as [Hev _].
      pose proof (httpReadInsecure_follows (URL (AddOn (cfg w1))) env w1) as F2.
      destruct (httpReadInsecure (URL (AddOn (cfg w1))) env w1)
        as [[err httpOutput] w2].
      cbn [snd] in F2.
      pose proof (follows_trans _ _ _ _ _ F F2) as F12.
      assert (C12 : calm (List.app [ev] [EvHTTPGet (URL (AddOn (cfg w1)))])).
      { repeat constructor. exact Hev. }
      destruct err.
      * apply IH in H. destruct H as (evs & Fr & V).
        pose proof (Sleep_follows tick env w2 tick_nonneg) as F3.
        eexists. split.
        -- eapply follows_trans; [exact F12|].
           eapply follows_trans; [exact F3|exact Fr].
        -- destruct V as [V|[V1 V2]]; [now left|right]. split; [exact V1|].
           apply calm_app; [exact C12|]. apply calm_app; [|exact V2].
           now apply calm_one.
      * rewrite orb_true_r in H. inversion H; subst.
        eexists. split; [exact F12|]. right. split; [reflexivity|exact C12].
  - inversion H; subst. exists []. split; [apply follows_refl|].
    right. split; [reflexivity|constructor].
Qed.

(** Every iteration waits for a tick, so a loop that has [fuel] ticks left in
    its window returns within [fuel] iterations. *)
Lemma discover_returns (fuel : nat) :
  forall ts retryStart hostName env w,
    retryStart + waitDur - now w <= Z.of_nat fuel * tick ->
    exists res, discover fuel ts retryStart hostName env w = Some res.
Proof.
  induction fuel as [|fuel IH]; intros ts rs h env w B;
    cbn [discover]; destruct (now w - rs <? waitDur) eqn:C;
    try (eexists; reflexivity).
  - apply Z.ltb_lt in C. lia.
  - step_select ts tick env w t w1 ev F Ht Hc.
    destruct t as [|sig|]; try (eexists; reflexivity).
    destruct (Ht eq_refl) as [_ N1].
    step_call (EvExec (kubectlArgs (cfg w1))) env w1 a2 w2 F2.
    step_call (EvGetService (Namespace (AddOn (cfg w2))) svcName) env w2
              so w3 F3.
    destruct F2 as (_ & N2 & _), F3 as (_ & N3 & _).
    destruct (a_err so).
    + apply IH. pose proof (Sleep_now tick env w3). pose proof tick_nonneg. lia.
    + destruct (String.eqb _ EmptyString); [|eexists; reflexivity].
      apply IH. lia.
Qed.

Lemma probe_returns (fuel : nat) :
  forall ts retryStart env w,
    retryStart + waitDur - now w <= Z.of_nat fuel * tick ->
    exists res, probe fuel ts retryStart env w = Some res.
Proof.
  induction fuel as [|fuel IH]; intros ts rs env w B;
    cbn [probe]; destruct (now w - rs <? waitDur) eqn:C;
    try (eexists; reflexivity).
  - apply Z.ltb_lt in C. lia.
  - step_select ts tick env w t w1 ev F Ht Hc.
    destruct t as [|sig|]; try (eexists; reflexivity).
    destruct (Ht eq_refl) as [_ N1].
    pose proof (httpReadInsecure_follows (URL (AddOn (cfg w1))) env w1) as F2.
    destruct (httpReadInsecure (URL (AddOn (cfg w1))) env w1)
      as [[err httpOutput] w2].
    cbn [snd] in F2. destruct F2 as (_ & N2 & _).
    destruct err.
    + apply IH. pose proof (Sleep_now tick env w2). pose proof tick_nonneg. lia.
    + rewrite orb_true_r. eexists; reflexivity.
Qed.

Lemma window_is_ticks : waitDur = Z.of_nat window_ticks * tick.
Proof. reflexivity. Qed.

(** *** [waitService] *)

(** [waitService] always returns. *)
Lemma waitService_returns (ts : tester) (env : Env) (w : World) :
  exists r w', waitService ts env w = Some (r, w').
Proof.
  unfold waitService.
  pose proof window_is_ticks as B. revert B.
  generalize window_ticks. intros fuel B.
  destruct (Select ts waitDur env w) as [t w1].
  destruct t as [|sig|]; try (do 2 eexists; reflexivity).
  destruct (discover_returns fuel ts (now w1) EmptyString env w1)
    as [[[r h] w2] E].
  { rewrite <- B. lia. }
  rewrite E. destruct r as [e|]; [do 2 eexists; reflexivity|].
  destruct (String.eqb h EmptyString); [do 2 eexists; reflexivity|].
  set (w4 := Sleep (20 * Second) env (update (recordEndpoint h) w2)).
  unfold andThen.
  destruct (probe_returns fuel ts (now w4) env w4) as [[r' w5] E'].
  { rewrite <- B. lia. }
  rewrite E'. destruct r'; do 2 eexists; reflexivity.
Qed.

(** What a run of [waitService] leaves: the calls it made; the configuration
    either as it was or with the endpoint of a non-empty host name recorded;
    and either a cancellation error or check points that were all calm. *)
Lemma waitService_sound (ts : tester) (env : Env) (w : World)
    (r : option error) (w' : World) :
  waitService ts env w = Some (r, w') ->
  exists evs,
    trace w' = List.app (trace w) evs
    /\ (cfg w' = cfg w
        \/ exists hostName,
             hostName <> EmptyString
             /\ cfg w' = recordEndpoint hostName (cfg w))
    /\ (cancellation r \/ calm evs).
Proof.
  unfold waitService. generalize window_ticks. intros fuel H.
  step_select ts waitDur env w t w1 ev F Ht Hc.
  destruct t as [|sig|].
  - inversion H; subst. destruct F as (C & _ & T).
    exists [ev]. repeat split; [exact T|now left|]. left. now left.
  - inversion H; subst. destruct F as (C & _ & T).
    exists [ev]. repeat split; [exact T|now left|].
    left. right. right. now exists sig.
  - destruct (Ht eq_refl) as [Hev _].
    destruct (discover fuel ts (now w1) EmptyString env w1)
      as [[[r1 h] w2]|] eqn:D; [|discriminate].
    apply discover_sound in D. destruct D as (e1 & F1 & V1).
    pose proof (follows_trans _ _ _ _ _ F F1) as F01.
    destruct r1 as [e|].
    + inversion H; subst. destruct F01 as (C & _ & T).
      eexists. repeat split; [exact T|now left|]. left.
      destruct V1 as [V1|[V1 _]]; [exact V1|discriminate].
    + destruct V1 as [V1|[_ V1]].
      { exfalso. destruct V1 as [V1|[V1|[s V1]]]; discriminate. }
      assert (C01 : calm (List.app [ev] e1)).
      { apply calm_app; [now apply calm_one|exact V1]. }
      destruct (String.eqb h EmptyString) eqn:Eh.
      * inversion H; subst. destruct F01 as (C & _ & T).
        eexists. repeat split; [exact T|now left|now right].
      * apply String.eqb_neq in Eh.
        set (w3 := update (recordEndpoint h) w2) in *.
        assert (F03 : follows w3 (Sleep (20 * Second) env w3)
                              [EvSleep (20 * Second)]).
        { apply Sleep_follows. unfold Second. lia. }
        set (w4 := Sleep (20 * Second) env w3) in *.
        unfold andThen in H.
        destruct (probe fuel ts (now w4) env w4)
          as [[r2 w5]|] eqn:P; [|discriminate].
        apply probe_sound in P. destruct P as (e2 & F2 & V2).
        pose proof (follows_trans _ _ _ _ _ F03 F2) as F35.
        assert (C3 : cfg w3 = recordEndpoint h (cfg w)).
        { unfold w3, update. cbn [cfg]. destruct F01 as (C & _). now rewrite C. }
        assert (T3 : trace w3 = List.app (trace w) (List.app [ev] e1)).
        { unfold w3, update. cbn [trace]. now destruct F01 as (_ & _ & T). }
        destruct r2 as [e|].
        -- inversion H; subst. destruct F35 as (C & _ & T).
           eexists. repeat split.
           ++ rewrite T, T3, <- app_assoc. reflexivity.
           ++ right. exists h. split; [exact Eh|congruence].
           ++ left. destruct V2 as [V2|[V2 _]]; [exact V2|discriminate].
        -- destruct V2 as [V2|[_ V2]].
           { exfalso. destruct V2 as [V2|[V2|[s V2]]]; discriminate. }
           pose proof (Sync_follows env w5) as F5.
           unfold total in H. destruct (Sync env w5) as [r5 w6].
           cbn [snd] in F5. inversion H; subst.
           pose proof (follows_trans _ _ _ _ _ F35 F5) as F36.
           destruct F36 as (C & _ & T).
           eexists. repeat split.
           ++ rewrite T, T3, <- app_assoc. reflexivity.
           ++ right. exists h. split; [exact Eh|now rewrite C].
           ++ right. apply calm_app; [exact C01|].
              apply calm_app; [apply calm_app|];
                [now apply calm_one|exact V2|now apply calm_one].
Qed.

(** *** Sequences of steps *)

Lemma total_returns (f : Env -> World -> option error * World) :
  returns (total f).
Proof.
  intros env w. unfold total. destruct (f env w) as [r w']. now exists r, w'.
Qed.

Lemma andThen_returns (step rest : Run) :
  returns step -> returns rest -> returns (step ;; rest).
Proof.
  intros Hs Hr env w. unfold andThen.
  destruct (Hs env w) as (r & w1 & E). rewrite E.
  destruct r as [e|]; [now exists (Some e), w1|apply Hr].
Qed.

Lemma andThen_keeps (step rest : Run) :
  keeps_Created step -> keeps_Created rest -> keeps_Created (step ;; rest).
Proof.
  intros Hs Hr env w r w' H. unfold andThen in H.
  destruct (step env w) as [[r1 w1]|] eqn:E; [|discriminate].
  apply Hs in E. destruct E as (C1 & e1 & T1).
  destruct r1 as [e|].
  - inversion H; subst. split; [exact C1|now exists e1].
  - apply Hr in H. destruct H as (C2 & e2 & T2).
    split; [congruence|]. exists (List.app e1 e2).
    now rewrite T2, T1, app_assoc.
Qed.

Lemma total_keeps (f : Env -> World -> option error * World) :
  (forall env w, exists evs, follows w (snd (f env w)) evs) ->
  keeps_Created (total f).
Proof.
  intros Hf env w r w' H. unfold total in H.
  destruct (Hf env w) as (evs & C & _ & T).
  destruct (f env w) as [r1 w1]. cbn [snd] in C, T. inversion H; subst.
  split; [now rewrite C|now exists evs].
Qed.

Lemma CreateNamespace_keeps : keeps_Created CreateNamespace.
Proof.
  apply total_keeps. intros env w. eexists.
  pose proof (call_follows (EvCreateNamespace (Namespace (AddOn (cfg w)))) env w)
    as F.
  destruct (call _ env w). exact F.
Qed.

Lemma RepoAdd_keeps : keeps_Created RepoAdd.
Proof.
  apply total_keeps. intros env w. eexists.
  pose proof (call_follows (EvRepoAdd chartRepoName chartRepoURL) env w) as F.
  destruct (call _ env w). exact F.
Qed.

Lemma createHelmWordpress_keeps : keeps_Created (total createHelmWordpress).
Proof.
  apply total_keeps. intros env w. eexists. unfold createHelmWordpress.
  match goal with
  | |- context [call ?ev env w] =>
      pose proof (call_follows ev env w) as F; destruct (call ev env w)
  end.
  exact F.
Qed.

Lemma Sync_keeps : keeps_Created (total Sync).
Proof.
  apply total_keeps. intros env w. eexists. apply Sync_follows.
Qed.

Lemma waitService_keeps (ts : tester) : keeps_Created (waitService ts).
Proof.
  intros env w r w' H. apply waitService_sound in H.
  destruct H as (evs & T & C & _). split; [|now exists evs].
  destruct C as [C|(h & _ & C)]; now rewrite C.
Qed.

(** The steps of [Create] after the first [Sync]. *)
Lemma Create_steps_returns (ts : tester) :
  returns (CreateNamespace ;; RepoAdd ;; total createHelmWordpress ;;
           waitService ts ;; total Sync).
Proof.
  repeat apply andThen_returns; try apply total_returns.
  intros env w. apply waitService_returns.
Qed.

Lemma Create_steps_keep (ts : tester) :
  keeps_Created (CreateNamespace ;; RepoAdd ;; total createHelmWordpress ;;
                 waitService ts ;; total Sync).
Proof.
  repeat apply andThen_keeps;
    auto using CreateNamespace_keeps, RepoAdd_keeps, createHelmWordpress_keeps,
               waitService_keeps, Sync_keeps.
Qed.

(** [Create] on an add-on that is marked created does nothing. *)
Lemma Create_skips (ts : tester) (env : Env) (w : World) :
  Created (AddOn (cfg w)) = true -> Create ts env w = Some (None, w).
Proof.
  intro C. unfold Create. now rewrite C.
Qed.

(** [Create] always returns. *)
Lemma Create_returns (ts : tester) : returns (Create ts).
Proof.
  intros env w. unfold Create.
  destruct (Created (AddOn (cfg w))); [now exists None, w|].
  destruct (Sync env (update (set_Created true) w)) as [r0 w1].
  destruct (Create_steps_returns ts env w1) as (r & w2 & E).
  rewrite E. now eexists _, _.
Qed.

(** *** [Delete] *)

Lemma here_logged (ev : Event) (spent : Z) (w : World) :
  here (logged ev spent w) = S (here w).
Proof.
  unfold here, logged. cbn [trace]. rewrite length_app. simpl. lia.
Qed.

(** [Delete] on an add-on that is marked created, by what its two sub-steps
    answer: both are called; a failure of either gives the joined error and
    leaves [Created]; otherwise [Created] is cleared and the result is the
    one of [Sync]. *)
Lemma Delete_run (ts : tester) (env : Env) (w : World) :
  Created (AddOn (cfg w)) = true ->
  exists rest,
    trace (snd (Delete ts env w)) =
      List.app (trace w)
        (EvUninstall (uninstallConfig (cfg w))
           :: EvDeleteNamespaceAndWait (Namespace (AddOn (cfg w))) :: rest)
    /\ match uninstall_error env w, namespace_error env w with
       | None, None =>
           fst (Delete ts env w) = lift_err (a_err (env (S (S (here w)))))
           /\ Created (AddOn (cfg (snd (Delete ts env w)))) = false
       | Some t1, None =>
           fst (Delete ts env w) = Some (errors_New t1)
           /\ Created (AddOn (cfg (snd (Delete ts env w)))) = true
       | None, Some t2 =>
           fst (Delete ts env w) =
             Some (errors_New
                     ("failed to delete Wordpress namespace (" ++ t2 ++ ")"))
           /\ Created (AddOn (cfg (snd (Delete ts env w)))) = true
       | Some t1, Some t2 =>
           fst (Delete ts env w) =
             Some (errors_New
                     (t1 ++ ", "
                         ++ "failed to delete Wordpress namespace (" ++ t2 ++ ")"))
           /\ Created (AddOn (cfg (snd (Delete ts env w)))) = true
       end.
Proof.
  intro C. unfold Delete, uninstall_error, namespace_error. rewrite C.
  cbn [negb]. unfold deleteHelmWordpress, call.
  set (w1 := logged (EvUninstall (uninstallConfig (cfg w)))
                    (Z.of_N (a_late (env (here w)))) w).
  assert (H1 : here w1 = S (here w)) by apply here_logged.
  assert (C1 : cfg w1 = cfg w) by reflexivity.
  rewrite H1, C1.
  set (w2 := logged (EvDeleteNamespaceAndWait (Namespace (AddOn (cfg w))))
                    (Z.of_N (a_late (env (S (here w))))) w1).
  assert (H2 : here w2 = S (S (here w))).
  { unfold w2. now rewrite here_logged, H1. }
  assert (T2 : trace w2 =
               List.app (trace w)
                 [EvUninstall (uninstallConfig (cfg w));
                  EvDeleteNamespaceAndWait (Namespace (AddOn (cfg w)))]).
  { unfold w2, w1, logged. cbn [trace]. now rewrite <- app_assoc. }
  destruct (a_err (env (here w))) as [t1|];
    destruct (a_err (env (S (here w)))) as [t2|];
    cbn [List.app List.length Nat.ltb Nat.leb Strings.Join];
    unfold Sync, call; cbn [fst snd update logged cfg trace];
    try rewrite H2; rewrite T2, <- !app_assoc; cbn [List.app];
    eexists; (split; [reflexivity|]); split; try reflexivity;
    try exact C.
  unfold update, here. cbn [trace]. fold (here w2). now rewrite H2.
Qed.

(** *** The claims about the add-on *)

(** The errors [waitService] can return: a cancellation, the host name that
    was not found, or what the final [Sync] returns. None of them says that no
    probe succeeded. *)
Lemma waitService_errors (ts : tester) (env : Env) (w : World) (e : error)
    (w' : World) :
  waitService ts env w = Some (Some e, w') ->
  cancellation (Some e)
  \/ e = errors_New "failed to find host name"
  \/ exists text, e = External text.
Proof.
  unfold waitService. generalize window_ticks. intros fuel H.
  destruct (Select ts waitDur env w) as [t w1].
  destruct t as [|sig|].
  - inversion H; subst. left. now left.
  - inversion H; subst. left. right. right. now exists sig.
  - destruct (discover fuel ts (now w1) EmptyString env w1)
      as [[[r1 h] w2]|] eqn:D; [|discriminate].
    apply discover_sound in D. destruct D as (e1 & _ & V1).
    destruct r1 as [e'|].
    + inversion H; subst. left.
      destruct V1 as [V1|[V1 _]]; [exact V1|discriminate].
    + destruct (String.eqb h EmptyString).
      * inversion H; subst. right. now left.
      * unfold andThen in H.
        destruct (probe fuel ts _ env _) as [[r2 w5]|] eqn:P;
          [|discriminate].
        apply probe_sound in P. destruct P as (e2 & _ & V2).
        destruct r2 as [e'|].
        -- inversion H; subst. left.
           destruct V2 as [V2|[V2 _]]; [exact V2|discriminate].
        -- unfold total, Sync, call in H. inversion H as [[E1 E2]].
           destruct (a_err (env (here w5))) as [text|]; [|discriminate].
           inversion E1. right. right. now exists text.
Qed.

(** C1: a run of [Create] in which the host name is found and then every
    probe of the two-minute window is refused should end in a readiness error.
    It ends in success: against [neverResponds], [Create] finds the host,
    makes twelve GETs that all fail, and returns nil. *)
Theorem C1_Create_succeeds_though_no_probe_did :
  (forall n, a_http (neverResponds n) = GetFails "connection refused")
  /\ exists w',
       Create unstopped neverResponds freshWorld = Some (None, w')
       /\ URL (AddOn (cfg w')) = "http://abcd1234-zone.elb.amazonaws.com"
       /\ gets (trace w') = 12%nat
       /\ now w' = 265 * Second.
Proof.
  split.
  - intro n. unfold neverResponds. now destruct (Nat.eqb n 7).
  - eexists. split; [vm_compute; reflexivity|]. now vm_compute.
Qed.

(** C2, as the code has it: [Delete] on an add-on that is marked created
    attempts both sub-steps, and clears [Created] exactly when both succeeded;
    when one of them failed it returns the joined error and [Created] stays
    true. *)
Theorem C2_Delete_clears_Created_only_on_success (ts : tester) (env : Env)
    (w : World) :
  Created (AddOn (cfg w)) = true ->
  (exists rest,
     trace (snd (Delete ts env w)) =
       List.app (trace w)
         (EvUninstall (uninstallConfig (cfg w))
            :: EvDeleteNamespaceAndWait (Namespace (AddOn (cfg w))) :: rest))
  /\ Created (AddOn (cfg (snd (Delete ts env w)))) =
       is_ready (uninstall_error env w) || is_ready (namespace_error env w)
  /\ (Created (AddOn (cfg (snd (Delete ts env w)))) = true ->
      exists msg, fst (Delete ts env w) = Some (errors_New msg)).
Proof.
  intro C. destruct (Delete_run ts env w C) as (rest & T & V).
  split; [now exists rest|].
  destruct (uninstall_error env w) as [t1|], (namespace_error env w) as [t2|];
    destruct V as [R K]; rewrite K, R; cbn [is_ready orb];
    (split; [reflexivity|]); intro; try discriminate; now eexists.
Qed.

(** The theorem above at a run in which both sub-steps succeed. *)
Lemma C2_witness :
  (exists rest,
     trace (snd (Delete unstopped allQuiet installedWorld)) =
       List.app (trace installedWorld)
         (EvUninstall (uninstallConfig (cfg installedWorld))
            :: EvDeleteNamespaceAndWait
                 (Namespace (AddOn (cfg installedWorld))) :: rest))
  /\ Created (AddOn (cfg (snd (Delete unstopped allQuiet installedWorld)))) =
       is_ready (uninstall_error allQuiet installedWorld)
       || is_ready (namespace_error allQuiet installedWorld)
  /\ (Created (AddOn (cfg (snd (Delete unstopped allQuiet installedWorld))))
      = true ->
      exists msg,
        fst (Delete unstopped allQuiet installedWorld)
        = Some (errors_New msg)).
Proof.
  exact (C2_Delete_clears_Created_only_on_success
           unstopped allQuiet installedWorld eq_refl).
Defined.

(** C2 fails as stated: when the uninstall fails, both sub-steps are
    attempted, the error is returned, and [Created] is still true. *)
Lemma C2_counterexample :
  fst (Delete unstopped uninstallFails installedWorld)
    = Some (errors_New "helm uninstall failed")
  /\ trace (snd (Delete unstopped uninstallFails installedWorld)) =
       [ EvUninstall (uninstallConfig (cfg installedWorld));
         EvDeleteNamespaceAndWait "wordpress";
         EvSync (cfg installedWorld) ]
  /\ Created (AddOn (cfg (snd (Delete unstopped uninstallFails installedWorld))))
     <> false.
Proof.
  repeat split; try (vm_compute; reflexivity). vm_compute. discriminate.
Qed.

Lemma Contains_self_then (text post : string) :
  Strings.Contains (text ++ post) text.
Proof.
  exists EmptyString, post. reflexivity.
Qed.

Lemma Contains_middle (pre text post : string) :
  Strings.Contains (pre ++ text ++ post) text.
Proof.
  now exists pre, post.
Qed.

Lemma Contains_after (a b c text post : string) :
  Strings.Contains (a ++ b ++ c ++ text ++ post) text.
Proof.
  exists (a ++ b ++ c), post.
  now rewrite !StringsFacts.append_assoc.
Qed.

Lemma Contains_refl (text : string) : Strings.Contains text text.
Proof.
  exists EmptyString, EmptyString. cbn [String.append].
  now rewrite StringsFacts.append_empty_r.
Qed.

(** [Delete] on an add-on that is marked created attempts the namespace
    deletion whatever the uninstall answered; it returns the joined error
    exactly when a sub-step failed, and the text of that error contains the
    text of every failing sub-step; when no sub-step failed it returns what
    the final [Sync] returns. *)
Lemma Delete_aggregates_failures (ts : tester) (env : Env) (w : World) :
  Created (AddOn (cfg w)) = true ->
  (exists rest,
     trace (snd (Delete ts env w)) =
       List.app (trace w)
         (EvUninstall (uninstallConfig (cfg w))
            :: EvDeleteNamespaceAndWait (Namespace (AddOn (cfg w))) :: rest))
  /\ ((exists msg, fst (Delete ts env w) = Some (errors_New msg))
      <-> is_ready (uninstall_error env w) || is_ready (namespace_error env w)
          = true)
  /\ (forall text,
        uninstall_error env w = Some text ->
        exists msg,
          fst (Delete ts env w) = Some (errors_New msg)
          /\ Strings.Contains msg text)
  /\ (forall text,
        namespace_error env w = Some text ->
        exists msg,
          fst (Delete ts env w) = Some (errors_New msg)
          /\ Strings.Contains msg text)
  /\ (is_ready (uninstall_error env w) || is_ready (namespace_error env w)
      = false ->
      fst (Delete ts env w) = lift_err (a_err (env (S (S (here w)))))).
Proof.
  intro C. destruct (Delete_run ts env w C) as (rest & T & V).
  split; [now exists rest|].
  destruct (uninstall_error env w) as [t1|], (namespace_error env w) as [t2|];
    destruct V as [R _]; rewrite R; cbn [is_ready orb];
    (split; [|split; [|split]]); try discriminate.
  - split; intro; [reflexivity|now eexists].
  - intros text E. inversion E; subst. eexists. split; [reflexivity|].
    apply Contains_self_then.
  - intros text E. inversion E; subst. eexists. split; [reflexivity|].
    apply Contains_after.
  - split; intro; [reflexivity|now eexists].
  - intros text E. inversion E; subst. eexists. split; [reflexivity|].
    apply Contains_refl.
  - split; intro; [reflexivity|now eexists].
  - intros text E. inversion E; subst. eexists. split; [reflexivity|].
    apply Contains_middle.
  - split; [|discriminate]. intros [msg H].
    destruct (a_err (env (S (S (here w))))); discriminate.
  - reflexivity.
Qed.

(** When no sub-step fails, [Delete] returns what the [Sync] after them
    returns, which can be an error. *)
Lemma Delete_returns_failed_Sync :
  uninstall_error syncFails installedWorld = None
  /\ namespace_error syncFails installedWorld = None
  /\ fst (Delete unstopped syncFails installedWorld)
     = Some (External "disk full").
Proof.
  repeat split; vm_compute; reflexivity.
Qed.



(** C7: the name recorded for a host name is the substring before its first
    [-], and the ARN recorded is the fixed prefix with the region and the
    account, followed by the substring before the first [.] in which every
    [-] is replaced by [/]; a run that discovers
    [abcd1234-zone.elb.amazonaws.com] in region [us-west-2] for account
    [123456789012] records the name [abcd1234] and the ARN ending in
    [loadbalancer/net/abcd1234/zone]. *)
Theorem C7_endpoint_derivation (hostName : string) (c : EKSConfig) :
  NLBName (AddOn (recordEndpoint hostName c))
    = Strings.substring_before "-" hostName
  /\ (exists tail,
        NLBARN (AddOn (recordEndpoint hostName c))
          = "arn:aws:elasticloadbalancing:" ++ Region c ++ ":"
              ++ AWSAccountID c ++ ":loadbalancer/net/" ++ tail
        /\ Strings.replaced_every
             "-" "/" (Strings.substring_before "." hostName) tail)
  /\ exists w',
       waitService unstopped ready freshWorld = Some (None, w')
       /\ cfg w' = recordEndpoint "abcd1234-zone.elb.amazonaws.com"
                                  (cfg freshWorld)
       /\ NLBName (AddOn (cfg w')) = "abcd1234"
       /\ NLBARN (AddOn (cfg w'))
          = "arn:aws:elasticloadbalancing:us-west-2:123456789012:loadbalancer/net/abcd1234/zone".
Proof.
  split; [|split].
  - cbn. unfold deriveNLBName.
    now rewrite StringsFacts.first_Split, StringsFacts.upto_substring_before.
  - eexists. split.
    + cbn. unfold deriveNLBARN. reflexivity.
    + rewrite StringsFacts.first_Split, StringsFacts.upto_substring_before.
      apply StringsFacts.Replace_every.
  - eexists. split; [vm_compute; reflexivity|]. now vm_compute.
Qed.

(** The check point a [select] logs records what it found on the two channels
    of the tester at its index. *)
Lemma Select_logs (ts : tester) (d : Z) (env : Env) (w : World) :
  exists taken spent,
    snd (Select ts d env w) =
      logged (EvSelect d (is_ready (Stopc ts (here w)))
                       (is_ready (Sig ts (here w))) taken) spent w
    /\ (is_ready (Stopc ts (here w)) || is_ready (Sig ts (here w)) = true ->
        fst (Select ts d env w) <> RecvTimer).
Proof.
  unfold Select. cbn [fst snd]. do 2 eexists. split; [reflexivity|].
  intros R E. apply select_timer in E. congruence.
Qed.

(** A stop that arrives at the check point right before the GET that would
    have succeeded aborts the run. *)
Lemma waitService_stopped_before_probe :
  exists w',
    waitService stoppedBeforeProbe ready freshWorld
    = Some (Some (errors_New "WordPress Service creation aborted"), w')
    /\ gets (trace w') = 0%nat
    /\ existsb cancel_seen (trace w') = true.
Proof.
  eexists. split; [vm_compute; reflexivity|]. now vm_compute.
Qed.

(** C10: [Create] on an add-on that is not marked created returns; its first
    call is the [Sync] of a configuration in which [Created] is true; whatever
    it returns, [Created] is true afterwards; and a [Create] after it returns
    nil and changes nothing. *)
Theorem C10_Create_marks_created_first (ts : tester) (env : Env) (w : World) :
  Created (AddOn (cfg w)) = false ->
  exists r w' rest,
    Create ts env w = Some (r, w')
    /\ trace w' =
         List.app (trace w) (EvSync (set_Created true (cfg w)) :: rest)
    /\ Created (AddOn (set_Created true (cfg w))) = true
    /\ Created (AddOn (cfg w')) = true
    /\ forall ts' env', Create ts' env' w' = Some (None, w').
Proof.
  intro C. unfold Create at 1. rewrite C.
  pose proof (Sync_follows env (update (set_Created true) w)) as F0.
  destruct (Sync env (update (set_Created true) w)) as [r0 w1].
  cbn [snd] in F0. destruct F0 as (C0 & _ & T0).
  destruct (Create_steps_returns ts env w1) as (r & w2 & E). rewrite E.
  apply Create_steps_keep in E. destruct E as (C2 & evs & T2).
  set (w3 := update (set_CreateTook (now w2 - now w1)) w2).
  pose proof (Sync_follows env w3) as F3. destruct F3 as (C3 & _ & T3).
  assert (K : Created (AddOn (cfg (snd (Sync env w3)))) = true).
  { rewrite C3. unfold w3, update. cbn. rewrite C2, C0. reflexivity. }
  eexists r, _, _. repeat split.
  - rewrite T3. unfold w3, update. cbn [trace]. rewrite T2, T0.
    unfold update. cbn [trace cfg]. rewrite <- !app_assoc. reflexivity.
  - exact K.
  - intros ts' env'. now apply Create_skips.
Qed.

(** The theorem above at a run in which the install fails. *)
Lemma C10_witness :
  exists r w' rest,
    Create unstopped installFails freshWorld = Some (r, w')
    /\ trace w' =
         List.app (trace freshWorld)
                  (EvSync (set_Created true (cfg freshWorld)) :: rest)
    /\ Created (AddOn (set_Created true (cfg freshWorld))) = true
    /\ Created (AddOn (cfg w')) = true
    /\ forall ts' env', Create ts' env' w' = Some (None, w').
Proof.
  exact (C10_Create_marks_created_first unstopped installFails freshWorld
                                        eq_refl).
Defined.

(** The run of the witness is one whose install step fails. *)
Lemma Create_install_fails :
  exists w',
    Create unstopped installFails freshWorld
    = Some (Some (External "helm install failed"), w')
    /\ Created (AddOn (cfg w')) = true.
Proof.
  eexists. split; [vm_compute; reflexivity|]. now vm_compute.
Qed.

(** *** More about [httpReadInsecure] *)

(** [httpReadInsecure] makes one GET. It returns nil exactly when the GET got
    a response with a status code below 400 whose body was copied without an
    error, and then what it wrote is that body; a status code of 400 or more
    is an error that carries the URL and the code. *)
Theorem httpReadInsecure_result (u : string) (env : Env) (w : World) :
  trace (snd (httpReadInsecure u env w)) = List.app (trace w) [EvHTTPGet u]
  /\ cfg (snd (httpReadInsecure u env w)) = cfg w
  /\ (fst (fst (httpReadInsecure u env w)) = None <->
      exists code body,
        a_http (env (here w)) = Responds code body None /\ code < 400)
  /\ (forall code body copyErr,
        a_http (env (here w)) = Responds code body copyErr ->
        400 <= code ->
        fst (fst (httpReadInsecure u env w))
        = Some (ErrReturnedStatus u code))
  /\ (forall code body,
        a_http (env (here w)) = Responds code body None ->
        code < 400 ->
        snd (fst (httpReadInsecure u env w)) = body).
Proof.
  unfold httpReadInsecure, call.
  destruct (a_http (env (here w))) as [text|code body copyErr] eqn:E.
  - cbn [fst snd logged trace cfg]. repeat split; try discriminate.
    intros (code & body & H & _). discriminate.
  - destruct (400 <=? code) eqn:L; cbn [fst snd logged trace cfg].
    + apply Z.leb_le in L. repeat split; try discriminate.
      * intros (code' & body' & H & Hc). inversion H; subst. lia.
      * intros code' body' ce H _. now inversion H.
      * intros code' body' H Hc. inversion H; subst. lia.
    + apply Z.leb_gt in L. repeat split.
      * intro H. destruct copyErr; [discriminate|]. now exists code, body.
      * intros (code' & body' & H & _). now inversion H.
      * intros code' body' ce H Hc. inversion H; subst. lia.
      * intros code' body' H _. now inversion H.
Qed.

(** *** More about [waitService] *)

Lemma gets_app (e1 e2 : list Event) :
  gets (List.app e1 e2) = (gets e1 + gets e2)%nat.
Proof.
  unfold gets. now rewrite filter_app, length_app.
Qed.

(** The first loop makes no GET. *)
Lemma discover_no_gets (fuel : nat) :
  forall ts retryStart hostName env w res w',
    discover fuel ts retryStart hostName env w = Some (res, w') ->
    exists evs, trace w' = List.app (trace w) evs /\ gets evs = 0%nat.
Proof.
  induction fuel as [|fuel IH]; intros ts rs h env w res w' H;
    cbn [discover] in H; destruct (now w - rs <? waitDur).
  - discriminate.
  - inversion H; subst. exists []. split; [now rewrite app_nil_r|reflexivity].
  - destruct (Select_logs ts tick env w) as (tk & sp & L & _).
    destruct (Select ts tick env w) as [t w1]. cbn [snd] in L.
    assert (T1 : exists ev, trace w1 = List.app (trace w) [ev]
                            /\ gets [ev] = 0%nat).
    { rewrite L. eexists. split; reflexivity. }
    destruct T1 as (ev & T1 & G1). clear L.
    destruct t as [|sig|].
    + inversion H; subst. now exists [ev].
    + inversion H; subst. now exists [ev].
    + unfold call, Sleep in H.
      set (w2 := logged (EvExec (kubectlArgs (cfg w1)))
                        (Z.of_N (a_late (env (here w1)))) w1) in H.
      set (w3 := logged (EvGetService (Namespace (AddOn (cfg w2))) svcName)
                        (Z.of_N (a_late (env (here w2)))) w2) in H.
      assert (T3 : trace w3 =
                   List.app (trace w)
                     [ev; EvExec (kubectlArgs (cfg w1));
                      EvGetService (Namespace (AddOn (cfg w2))) svcName]).
      { unfold w3, w2, logged. cbn [trace]. rewrite T1, <- !app_assoc.
        reflexivity. }
      assert (G3 : gets [ev; EvExec (kubectlArgs (cfg w1));
                         EvGetService (Namespace (AddOn (cfg w2))) svcName]
                   = 0%nat).
      { change (gets (List.app [ev] [EvExec (kubectlArgs (cfg w1));
                  EvGetService (Namespace (AddOn (cfg w2))) svcName])
                = 0%nat).
        rewrite gets_app, G1. reflexivity. }
      destruct (a_err (env (here w2))).
      * apply IH in H. destruct H as (evs & T & G).
        unfold logged in T. cbn [trace] in T. rewrite T3 in T.
        rewrite <- !app_assoc in T.
        eexists. split; [exact T|]. rewrite !gets_app, G3, G. reflexivity.
      * destruct (String.eqb _ EmptyString).
        -- apply IH in H. destruct H as (evs & T & G).
           rewrite T3, <- app_assoc in T.
           eexists. split; [exact T|]. now rewrite gets_app, G3, G.
        -- inversion H; subst. eexists. split; [exact T3|exact G3].
  - inversion H; subst. exists []. split; [now rewrite app_nil_r|reflexivity].
Qed.

(** The first loop starts with an empty host name, so it ends with a host
    name that is not empty only after an iteration, which takes a tick. *)
Lemma discover_takes_a_tick (fuel : nat) (ts : tester) (retryStart : Z)
    (env : Env) (w : World) (hostName : string) (w' : World) :
  discover fuel ts retryStart EmptyString env w = Some ((None, hostName), w') ->
  hostName <> EmptyString ->
  now w + tick <= now w'.
Proof.
  intros H N. destruct fuel as [|fuel]; cbn [discover] in H;
    destruct (now w - retryStart <? waitDur).
  1: discriminate.
  1, 3: inversion H; subst; contradiction.
  step_select ts tick env w t w1 ev F Ht Hc.
  destruct t as [|sig|]; try discriminate.
  destruct (Ht eq_refl) as [_ N1].
  step_call (EvExec (kubectlArgs (cfg w1))) env w1 a2 w2 F2.
  step_call (EvGetService (Namespace (AddOn (cfg w2))) svcName) env w2
            so w3 F3.
  destruct F2 as (_ & N2 & _), F3 as (_ & N3 & _).
  destruct (a_err so).
  - apply discover_sound in H. destruct H as (evs & (_ & N4 & _) & _).
    pose proof (Sleep_now tick env w3). pose proof tick_nonneg. lia.
  - destruct (String.eqb _ EmptyString).
    + apply discover_sound in H. destruct H as (evs & (_ & N4 & _) & _). lia.
    + inversion H; subst. lia.
Qed.

(** The second loop ends without an error only after an iteration, or when
    its window is over. *)
Lemma probe_takes_a_tick (fuel : nat) (ts : tester) (retryStart : Z)
    (env : Env) (w w' : World) :
  probe fuel ts retryStart env w = Some (None, w') ->
  now w - retryStart < waitDur ->
  now w + tick <= now w'.
Proof.
  intros H B. apply Z.ltb_lt in B.
  destruct fuel as [|fuel]; cbn [probe] in H; rewrite B in H;
    [discriminate|].
  step_select ts tick env w t w1 ev F Ht Hc.
  destruct t as [|sig|]; try discriminate.
  destruct (Ht eq_refl) as [_ N1].
  pose proof (httpReadInsecure_follows (URL (AddOn (cfg w1))) env w1) as F2.
  destruct (httpReadInsecure (URL (AddOn (cfg w1))) env w1)
    as [[err httpOutput] w2].
  cbn [snd] in F2. destruct F2 as (_ & N2 & _).
  destruct err.
  - apply probe_sound in H. destruct H as (evs & (_ & N4 & _) & _).
    pose proof (Sleep_now tick env w2). pose proof tick_nonneg. lia.
  - rewrite orb_true_r in H. inversion H; subst. lia.
Qed.

(** The first loop ends without a host name only when its window is over. *)
Lemma discover_window_over (fuel : nat) :
  forall ts retryStart env w w',
    discover fuel ts retryStart EmptyString env w
    = Some ((None, EmptyString), w') ->
    waitDur <= now w' - retryStart.
Proof.
  induction fuel as [|fuel IH]; intros ts rs env w w' H;
    cbn [discover] in H; destruct (now w - rs <? waitDur) eqn:C.
  - discriminate.
  - inversion H; subst. apply Z.ltb_ge in C. lia.
  - destruct (Select ts tick env w) as [t w1].
    destruct t as [|sig|].
    + discriminate.
    + discriminate.
    + destruct (call (EvExec (kubectlArgs (cfg w1))) env w1) as [a2 w2].
      destruct (call (EvGetService (Namespace (AddOn (cfg w2))) svcName)
                     env w2) as [so w3].
      destruct (a_err so).
      * now apply IH in H.
      * destruct (a_ingress so) as [|ing ings].
        -- cbn [String.eqb] in H. now apply IH in H.
        -- destruct (String.eqb ing EmptyString) eqn:E.
           ++ apply String.eqb_eq in E. subst ing. now apply IH in H.
           ++ inversion H; subst. now rewrite String.eqb_refl in E.
  - inversion H; subst. apply Z.ltb_ge in C. lia.
Qed.

(** What a run of [waitService] leaves, by its two phases. Either no host
    name was recorded: the configuration is as it was, no GET was made, and
    the result is a cancellation or the host name that was not found, the
    latter only after the initial wait and the whole discovery window. Or a
    host name that is not empty was recorded, after the initial wait and at
    least one tick: then the result is a cancellation, or, at least 150
    seconds after the start, what the final [Sync] returns. *)
Lemma waitService_outcome (ts : tester) (env : Env) (w : World)
    (r : option error) (w' : World) :
  waitService ts env w = Some (r, w') ->
  exists evs,
    trace w' = List.app (trace w) evs
    /\ now w <= now w'
    /\ ((cfg w' = cfg w
         /\ gets evs = 0%nat
         /\ (cancellation r
             \/ (r = Some (errors_New "failed to find host name")
                 /\ now w + 2 * waitDur <= now w')))
        \/ (exists hostName,
              hostName <> EmptyString
              /\ cfg w' = recordEndpoint hostName (cfg w)
              /\ (cancellation r
                  \/ ((r = None \/ exists text, r = Some (External text))
                      /\ now w + 150 * Second <= now w')))).
Proof.
  unfold waitService. generalize window_ticks. intros fuel H.
  destruct (Select_logs ts waitDur env w) as (tk & sp & L & _).
  step_select ts waitDur env w t w1 ev F Ht Hc. cbn [snd] in L.
  assert (G1 : gets [ev] = 0%nat).
  { destruct F as (_ & _ & T). rewrite L in T. unfold logged in T.
    cbn [trace] in T. apply app_inv_head in T. now inversion T. }
  clear L tk sp.
  destruct t as [|sig|].
  - inversion H; subst. destruct F as (C & N & T).
    exists [ev]. split; [exact T|]. split; [exact N|]. left.
    split; [exact C|]. split; [exact G1|]. left. now left.
  - inversion H; subst. destruct F as (C & N & T).
    exists [ev]. split; [exact T|]. split; [exact N|]. left.
    split; [exact C|]. split; [exact G1|]. left. right. right. now exists sig.
  - destruct (Ht eq_refl) as [_ N01].
    destruct (discover fuel ts (now w1) EmptyString env w1)
      as [[[r1 h] w2]|] eqn:D; [|discriminate].
    pose proof (discover_sound _ _ _ _ _ _ _ _ _ D) as (e1 & F1 & V1).
    pose proof (discover_no_gets _ _ _ _ _ _ _ _ D) as (e1' & T1' & G2).
    assert (e1' = e1).
    { destruct F1 as (_ & _ & T1). rewrite T1 in T1'.
      now apply app_inv_head in T1'. }
    subst e1'. clear T1'.
    pose proof (follows_trans _ _ _ _ _ F F1) as F01.
    assert (G01 : gets (List.app [ev] e1) = 0%nat).
    { now rewrite gets_app, G1, G2. }
    destruct r1 as [e|].
    + inversion H; subst. destruct F01 as (C & N & T).
      eexists. split; [exact T|]. split; [exact N|]. left.
      split; [exact C|]. split; [exact G01|]. left.
      destruct V1 as [V1|[V1 _]]; [exact V1|discriminate].
    + destruct (String.eqb h EmptyString) eqn:Eh.
      * apply String.eqb_eq in Eh. subst h. inversion H; subst.
        apply discover_window_over in D.
        destruct F01 as (C & N & T).
        eexists. split; [exact T|]. split; [exact N|]. left.
        split; [exact C|]. split; [exact G01|]. right.
        split; [reflexivity|]. lia.
      * apply String.eqb_neq in Eh.
        pose proof (discover_takes_a_tick _ _ _ _ _ _ _ D Eh) as N12.
        set (w3 := update (recordEndpoint h) w2) in *.
        assert (F03 : follows w3 (Sleep (20 * Second) env w3)
                              [EvSleep (20 * Second)]).
        { apply Sleep_follows. unfold Second. lia. }
        pose proof (Sleep_now (20 * Second) env w3) as N34.
        set (w4 := Sleep (20 * Second) env w3) in *.
        unfold andThen in H.
        destruct (probe fuel ts (now w4) env w4)
          as [[r2 w5]|] eqn:P; [|discriminate].
        pose proof (probe_sound _ _ _ _ _ _ _ P) as (e2 & F2 & V2).
        pose proof (follows_trans _ _ _ _ _ F03 F2) as F35.
        assert (C3 : cfg w3 = recordEndpoint h (cfg w)).
        { unfold w3, update. cbn [cfg]. destruct F01 as (C & _).
          now rewrite C. }
        assert (T3 : trace w3 = List.app (trace w) (List.app [ev] e1)).
        { unfold w3, update. cbn [trace]. now destruct F01 as (_ & _ & T). }
        assert (N3 : now w3 = now w2) by reflexivity.
        destruct r2 as [e|].
        -- inversion H; subst. destruct F35 as (C & N & T).
           eexists. split; [rewrite T, T3, <- app_assoc; reflexivity|].
           split; [destruct F01 as (_ & N01' & _); lia|].
           right. exists h. split; [exact Eh|]. split; [congruence|].
           left. destruct V2 as [V2|[V2 _]]; [exact V2|discriminate].
        -- assert (N45 : now w4 + tick <= now w5).
           { apply (probe_takes_a_tick _ _ _ _ _ _ P).
             unfold waitDur, Minute, Second. lia. }
           pose proof (Sync_follows env w5) as F5.
           assert (O5 : fst (Sync env w5) = None
                        \/ exists text, fst (Sync env w5)
                                        = Some (External text)).
           { unfold Sync, call. cbn [fst].
             destruct (a_err (env (here w5))) as [text|];
               [right; now exists text|now left]. }
           unfold total in H. destruct (Sync env w5) as [r5 w6].
           cbn [fst snd] in F5, O5. inversion H; subst.
           pose proof (follows_trans _ _ _ _ _ F35 F5) as F36.
           destruct F36 as (C & N & T).
           eexists. split; [rewrite T, T3, <- app_assoc; reflexivity|].
           split; [destruct F01 as (_ & N01' & _); lia|].
           right. exists h. split; [exact Eh|].
           split; [now rewrite C|]. right. split; [exact O5|].
           destruct F5 as (_ & N56 & _).
           unfold tick, waitDur, Minute, Second in *. lia.
Qed.

(** [waitService] returns nil only when a host name that is not empty was
    found; the URL, the name and the ARN in the configuration are then the
    ones of that host name, and at least 150 seconds have passed: the
    initial wait, a tick of discovery, the settle delay and a tick of
    probing. *)
Theorem waitService_ready_records_endpoint (ts : tester) (env : Env)
    (w : World) :
  exists r w',
    waitService ts env w = Some (r, w')
    /\ (r = None ->
        exists hostName,
          hostName <> EmptyString
          /\ URL (AddOn (cfg w')) = "http://" ++ hostName
          /\ NLBName (AddOn (cfg w')) = deriveNLBName hostName
          /\ NLBARN (AddOn (cfg w'))
             = deriveNLBARN (Region (cfg w)) (AWSAccountID (cfg w)) hostName
          /\ now w + 150 * Second <= now w').
Proof.
  destruct (waitService_returns ts env w) as (r & w' & E).
  exists r, w'. split; [exact E|]. intro Z. subst r.
  apply waitService_outcome in E.
  destruct E as (evs & _ & _ & [(_ & _ & V)|(h & N & C & V)]).
  - exfalso. destruct V as [[V|[V|[s V]]]|[V _]]; discriminate.
  - exists h. rewrite C. cbn. repeat split; try assumption.
    destruct V as [[V|[V|[s V]]]|[_ V]]; try discriminate. exact V.
Qed.

(** [waitService] returns the error of the host name that was not found only
    after the initial wait and the whole window of the discovery, four
    minutes in all; it has then made no GET and has left the configuration
    as it was. Against an environment in which the service never gets an
    ingress this is what it returns. *)
Theorem waitService_host_not_found (ts : tester) (env : Env) (w : World) :
  (exists r w' evs,
     waitService ts env w = Some (r, w')
     /\ trace w' = List.app (trace w) evs
     /\ (r = Some (errors_New "failed to find host name") ->
         cfg w' = cfg w
         /\ gets evs = 0%nat
         /\ now w + 4 * Minute <= now w'))
  /\ exists w',
       waitService unstopped allQuiet freshWorld
       = Some (Some (errors_New "failed to find host name"), w').
Proof.
  split.
  - destruct (waitService_returns ts env w) as (r & w' & E).
    destruct (waitService_outcome ts env w r w' E) as (evs & T & _ & V).
    exists r, w', evs. split; [exact E|]. split; [exact T|]. intro Z. subst r.
    destruct V as [(C & G & V)|(h & _ & _ & V)].
    + split; [exact C|]. split; [exact G|].
      destruct V as [[V|[V|[s V]]]|[_ V]]; try discriminate.
      unfold waitDur in V. lia.
    + exfalso.
      destruct V as [[V|[V|[s V]]]|[[V|[t V]] _]]; discriminate.
  - eexists. vm_compute. reflexivity.
Qed.

(** *** More about [Create] and [Delete] *)

Lemma steady_refl (w : World) : steady w w.
Proof. unfold steady. repeat split. lia. Qed.

Lemma steady_trans (w1 w2 w3 : World) :
  steady w1 w2 -> steady w2 w3 -> steady w1 w3.
Proof.
  unfold steady.
  intros (N1 & A1 & B1 & C1 & D1 & E1 & F1 & G1 & H1)
         (N2 & A2 & B2 & C2 & D2 & E2 & F2 & G2 & H2).
  repeat split; try congruence. lia.
Qed.

Lemma follows_steady (w w' : World) (evs : list Event) :
  follows w w' evs -> steady w w'.
Proof.
  intros (C & N & _). unfold steady. rewrite C. repeat split. exact N.
Qed.

Lemma andThen_steady (step rest : Run) :
  keeps_steady step -> keeps_steady rest -> keeps_steady (step ;; rest).
Proof.
  intros Hs Hr env w r w' H. unfold andThen in H.
  destruct (step env w) as [[r1 w1]|] eqn:E; [|discriminate].
  apply Hs in E. destruct r1 as [e|].
  - inversion H; subst. exact E.
  - apply Hr in H. now apply (steady_trans _ _ _ E).
Qed.

Lemma total_steady (f : Env -> World -> option error * World) :
  (forall env w, exists evs, follows w (snd (f env w)) evs) ->
  keeps_steady (total f).
Proof.
  intros Hf env w r w' H. unfold total in H.
  destruct (Hf env w) as (evs & F).
  destruct (f env w) as [r1 w1]. cbn [snd] in F. inversion H; subst.
  now apply (follows_steady _ _ evs).
Qed.

Lemma waitService_steady (ts : tester) : keeps_steady (waitService ts).
Proof.
  intros env w r w' H. apply waitService_outcome in H.
  destruct H as (evs & _ & N & [(C & _)|(h & _ & C & _)]);
    unfold steady; rewrite C; now repeat split.
Qed.

Lemma Create_steps_steady (ts : tester) :
  keeps_steady (CreateNamespace ;; RepoAdd ;; total createHelmWordpress ;;
                waitService ts ;; total Sync).
Proof.
  repeat apply andThen_steady; try apply waitService_steady;
    apply total_steady; intros env w; eexists.
  - pose proof (call_follows
                  (EvCreateNamespace (Namespace (AddOn (cfg w)))) env w) as F.
    destruct (call _ env w). exact F.
  - pose proof (call_follows (EvRepoAdd chartRepoName chartRepoURL) env w)
      as F.
    destruct (call _ env w). exact F.
  - unfold createHelmWordpress.
    match goal with
    | |- context [call ?ev env w] =>
        pose proof (call_follows ev env w) as F; destruct (call ev env w)
    end.
    exact F.
  - apply Sync_follows.
Qed.

(** Whatever [Create] returns on an add-on that was not marked created, its
    last call is the [Sync] of the configuration it leaves, and [CreateTook]
    in it is the time the steps took: not negative and no more than the time
    [Create] took. The namespace and the kubeconfig are the ones it found. *)
Theorem Create_records_duration (ts : tester) (env : Env) (w : World) :
  Created (AddOn (cfg w)) = false ->
  exists r w' evs,
    Create ts env w = Some (r, w')
    /\ trace w' = List.app (trace w) (List.app evs [EvSync (cfg w')])
    /\ 0 <= CreateTook (AddOn (cfg w')) <= now w' - now w
    /\ Namespace (AddOn (cfg w')) = Namespace (AddOn (cfg w))
    /\ KubeConfigPath (cfg w') = KubeConfigPath (cfg w).
Proof.
  intro C. unfold Create. rewrite C.
  pose proof (Sync_follows env (update (set_Created true) w)) as F0.
  destruct (Sync env (update (set_Created true) w)) as [r0 w1].
  cbn [snd] in F0. destruct F0 as (C0 & N0 & T0).
  cbn [update now trace cfg] in C0, N0, T0.
  destruct (Create_steps_returns ts env w1) as (r & w2 & E). rewrite E.
  pose proof (Create_steps_keep ts env w1 r w2 E) as (_ & evs & T2).
  pose proof (Create_steps_steady ts env w1 r w2 E)
    as (N2 & _ & S2 & _ & _ & K2 & _).
  set (w3 := update (set_CreateTook (now w2 - now w1)) w2).
  pose proof (Sync_follows env w3) as F3. destruct F3 as (C3 & N3 & T3).
  exists r, (snd (Sync env w3)), (List.app [EvSync (set_Created true (cfg w))] evs).
  split; [reflexivity|]. split.
  { rewrite T3, C3. unfold w3, update. cbn [trace cfg].
    rewrite T2, T0, <- !app_assoc. reflexivity. }
  rewrite C3. unfold w3, update in *. cbn [cfg now] in *.
  cbn. rewrite S2, K2, C0. cbn. repeat split; lia.
Qed.

(** The theorem above at a run whose install step fails. *)
Lemma Create_records_duration_witness :
  exists r w' evs,
    Create unstopped installFails freshWorld = Some (r, w')
    /\ trace w' = List.app (trace freshWorld) (List.app evs [EvSync (cfg w')])
    /\ 0 <= CreateTook (AddOn (cfg w')) <= now w' - now freshWorld
    /\ Namespace (AddOn (cfg w')) = Namespace (AddOn (cfg freshWorld))
    /\ KubeConfigPath (cfg w') = KubeConfigPath (cfg freshWorld).
Proof.
  exact (Create_records_duration unstopped installFails freshWorld eq_refl).
Defined.

(** After a [Create] on an add-on that was not marked created, whatever it
    returned, a [Delete] does not skip: it uninstalls the release with the
    kubeconfig and in the namespace [Create] was given, and deletes that
    namespace. *)
Theorem Create_then_Delete (ts : tester) (env : Env) (w : World) :
  Created (AddOn (cfg w)) = false ->
  exists r w',
    Create ts env w = Some (r, w')
    /\ forall ts2 env2,
       exists rest,
         trace (snd (Delete ts2 env2 w')) =
           List.app (trace w')
             (EvUninstall (uninstallConfig (cfg w))
                :: EvDeleteNamespaceAndWait (Namespace (AddOn (cfg w)))
                :: rest).
Proof.
  intro C.
  destruct (Create_returns ts env w) as (r & w' & E).
  exists r, w'. split; [exact E|]. intros ts2 env2.
  assert (K : Created (AddOn (cfg w')) = true
              /\ Namespace (AddOn (cfg w')) = Namespace (AddOn (cfg w))
              /\ KubeConfigPath (cfg w') = KubeConfigPath (cfg w)).
  { revert E. unfold Create. rewrite C.
    pose proof (Sync_follows env (update (set_Created true) w)) as F0.
    destruct (Sync env (update (set_Created true) w)) as [r0 w1].
    cbn [snd] in F0. destruct F0 as (C0 & _ & _).
    cbn [update cfg] in C0.
    destruct ((CreateNamespace ;; RepoAdd ;; total createHelmWordpress ;;
               waitService ts ;; total Sync) env w1) as [[r1 w2]|] eqn:S;
      [|discriminate].
    pose proof (Create_steps_steady ts env w1 r1 w2 S)
      as (_ & A2 & S2 & _ & _ & K2 & _).
    intro E. inversion E; subst.
    cbn [cfg logged update set_CreateTook with_AddOn AddOn Created Namespace
         KubeConfigPath].
    rewrite A2, S2, K2, C0. now repeat split. }
  destruct K as (K1 & K2 & K3).
  destruct (Delete_run ts2 env2 w' K1) as (rest & T & _).
  exists rest. rewrite T. unfold uninstallConfig. now rewrite K2, K3.
Qed.

(** The theorem above at a run whose install step fails. *)
Lemma Create_then_Delete_witness :
  exists r w',
    Create unstopped installFails freshWorld = Some (r, w')
    /\ forall ts2 env2,
       exists rest,
         trace (snd (Delete ts2 env2 w')) =
           List.app (trace w')
             (EvUninstall (uninstallConfig (cfg freshWorld))
                :: EvDeleteNamespaceAndWait
                     (Namespace (AddOn (cfg freshWorld)))
                :: rest).
Proof.
  exact (Create_then_Delete unstopped installFails freshWorld eq_refl).
Defined.

(** After a [Delete] in which both sub-steps succeeded, [Created] is false,
    so a second [Delete] returns nil and makes no call, whatever the [Sync]
    of the first returned. *)
Theorem Delete_twice_skips (ts : tester) (env : Env) (w : World) :
  Created (AddOn (cfg w)) = true ->
  uninstall_error env w = None ->
  namespace_error env w = None ->
  Created (AddOn (cfg (snd (Delete ts env w)))) = false
  /\ forall ts2 env2,
       Delete ts2 env2 (snd (Delete ts env w))
       = (None, snd (Delete ts env w)).
Proof.
  intros C U N. destruct (Delete_run ts env w C) as (rest & _ & V).
  rewrite U, N in V. destruct V as [_ K]. split; [exact K|].
  intros ts2 env2. unfold Delete at 1. now rewrite K.
Qed.

(** The theorem above at a run in which the [Sync] after the two sub-steps
    fails. *)
Lemma Delete_twice_skips_witness :
  Created (AddOn (cfg (snd (Delete unstopped syncFails installedWorld))))
  = false
  /\ forall ts2 env2,
       Delete ts2 env2 (snd (Delete unstopped syncFails installedWorld))
       = (None, snd (Delete unstopped syncFails installedWorld)).
Proof.
  exact (Delete_twice_skips unstopped syncFails installedWorld
                            eq_refl eq_refl eq_refl).
Defined.

(** After a [Delete] in which a sub-step failed, a second [Delete] attempts
    both sub-steps again, for the same release and namespace. *)
Theorem Delete_failed_is_retried (ts : tester) (env : Env) (w : World) :
  Created (AddOn (cfg w)) = true ->
  is_ready (uninstall_error env w) || is_ready (namespace_error env w) = true ->
  forall ts2 env2,
  exists rest,
    trace (snd (Delete ts2 env2 (snd (Delete ts env w)))) =
      List.app (trace (snd (Delete ts env w)))
        (EvUninstall (uninstallConfig (cfg w))
           :: EvDeleteNamespaceAndWait (Namespace (AddOn (cfg w))) :: rest).
Proof.
  intros C F ts2 env2.
  assert (K : Created (AddOn (cfg (snd (Delete ts env w)))) = true
              /\ Namespace (AddOn (cfg (snd (Delete ts env w))))
                 = Namespace (AddOn (cfg w))
              /\ KubeConfigPath (cfg (snd (Delete ts env w)))
                 = KubeConfigPath (cfg w)).
  { unfold Delete, uninstall_error, namespace_error in *. rewrite C.
    cbn [negb]. unfold deleteHelmWordpress, call.
    set (w1 := logged (EvUninstall (uninstallConfig (cfg w)))
                      (Z.of_N (a_late (env (here w)))) w).
    assert (H1 : here w1 = S (here w)) by apply here_logged.
    rewrite H1.
    destruct (a_err (env (here w))) as [t1|];
      destruct (a_err (env (S (here w)))) as [t2|];
      try discriminate F;
      cbn [List.app List.length Nat.ltb Nat.leb];
      unfold Sync, call; cbn; now rewrite C. }
  destruct K as (K1 & K2 & K3).
  destruct (Delete_run ts2 env2 _ K1) as (rest & T & _).
  exists rest. rewrite T. unfold uninstallConfig. now rewrite K2, K3.
Qed.

(** The theorem above at a run in which the uninstall fails. *)
Lemma Delete_failed_is_retried_witness :
  exists rest,
    trace (snd (Delete unstopped allQuiet
                  (snd (Delete unstopped uninstallFails installedWorld)))) =
      List.app (trace (snd (Delete unstopped uninstallFails installedWorld)))
        (EvUninstall (uninstallConfig (cfg installedWorld))
           :: EvDeleteNamespaceAndWait
                (Namespace (AddOn (cfg installedWorld))) :: rest).
Proof.
  exact (Delete_failed_is_retried unstopped uninstallFails installedWorld
                                  eq_refl eq_refl unstopped allQuiet).
Defined.

(** Whatever [Delete] returns on an add-on that is marked created, its last
    call is the [Sync] of the configuration it leaves, and [DeleteTook] in it
    is not negative and no more than the time [Delete] took. *)
Theorem Delete_records_duration (ts : tester) (env : Env) (w : World) :
  Created (AddOn (cfg w)) = true ->
  exists evs,
    trace (snd (Delete ts env w))
    = List.app (trace w) (List.app evs [EvSync (cfg (snd (Delete ts env w)))])
    /\ 0 <= DeleteTook (AddOn (cfg (snd (Delete ts env w))))
       <= now (snd (Delete ts env w)) - now w.
Proof.
  intro C. unfold Delete. rewrite C. cbn [negb].
  unfold deleteHelmWordpress, call.
  set (w1 := logged (EvUninstall (uninstallConfig (cfg w)))
                    (Z.of_N (a_late (env (here w)))) w).
  set (w2 := logged (EvDeleteNamespaceAndWait (Namespace (AddOn (cfg w1))))
                    (Z.of_N (a_late (env (here w1)))) w1).
  assert (N2 : now w <= now w2).
  { unfold w2, w1, logged. cbn [now]. lia. }
  assert (T2 : trace w2 =
               List.app (trace w)
                 [EvUninstall (uninstallConfig (cfg w));
                  EvDeleteNamespaceAndWait (Namespace (AddOn (cfg w1)))]).
  { unfold w2, w1, logged. cbn [trace]. now rewrite <- app_assoc. }
  destruct (a_err (env (here w))) as [t1|];
    destruct (a_err (env (here w1))) as [t2|];
    cbn [List.app List.length Nat.ltb Nat.leb];
    unfold Sync, call;
    cbn [fst snd update logged cfg trace now set_DeleteTook set_Created
         with_AddOn AddOn DeleteTook];
    rewrite T2.
  1-3: exists [EvUninstall (uninstallConfig (cfg w));
               EvDeleteNamespaceAndWait (Namespace (AddOn (cfg w1)))];
       (split; [rewrite <- !app_assoc; reflexivity|lia]).
  exists [EvUninstall (uninstallConfig (cfg w));
          EvDeleteNamespaceAndWait (Namespace (AddOn (cfg w1)));
          EvSync (set_Created false (cfg w2))].
  split; [rewrite <- !app_assoc; reflexivity|lia].
Qed.

(** The theorem above at a run in which the uninstall fails. *)
Lemma Delete_records_duration_witness :
  exists evs,
    trace (snd (Delete unstopped uninstallFails installedWorld))
    = List.app (trace installedWorld)
        (List.app evs
           [EvSync (cfg (snd (Delete unstopped uninstallFails
                                     installedWorld)))])
    /\ 0 <= DeleteTook
              (AddOn (cfg (snd (Delete unstopped uninstallFails
                                       installedWorld))))
       <= now (snd (Delete unstopped uninstallFails installedWorld))
          - now installedWorld.
Proof.
  exact (Delete_records_duration unstopped uninstallFails installedWorld
                                 eq_refl).
Defined.

(** A failing step ends [Create] at once: when the namespace cannot be
    created, neither the repository nor the release is touched; when the
    repository cannot be added, nothing is installed; when the install fails,
    the service is not waited for. The error of the step is returned, after
    a last [Sync]. *)
Theorem Create_stops_at_first_failure (ts : tester) (env : Env) (w : World) :
  Created (AddOn (cfg w)) = false ->
  (forall text,
     a_err (env (S (here w))) = Some text ->
     exists w',
       Create ts env w = Some (Some (External text), w')
       /\ trace w' =
            List.app (trace w)
              [EvSync (set_Created true (cfg w));
               EvCreateNamespace (Namespace (AddOn (cfg w)));
               EvSync (cfg w')])
  /\ (a_err (env (S (here w))) = None ->
      forall text,
        a_err (env (S (S (here w)))) = Some text ->
        exists w',
          Create ts env w = Some (Some (External text), w')
          /\ trace w' =
               List.app (trace w)
                 [EvSync (set_Created true (cfg w));
                  EvCreateNamespace (Namespace (AddOn (cfg w)));
                  EvRepoAdd chartRepoName chartRepoURL;
                  EvSync (cfg w')])
  /\ (a_err (env (S (here w))) = None ->
      a_err (env (S (S (here w)))) = None ->
      forall text,
        a_err (env (S (S (S (here w))))) = Some text ->
        exists w' install,
          Create ts env w = Some (Some (External text), w')
          /\ ic_Namespace install = Namespace (AddOn (cfg w))
          /\ ReleaseName install = chartName
          /\ trace w' =
               List.app (trace w)
                 [EvSync (set_Created true (cfg w));
                  EvCreateNamespace (Namespace (AddOn (cfg w)));
                  EvRepoAdd chartRepoName chartRepoURL;
                  EvInstall install;
                  EvSync (cfg w')]).
Proof.
  intro C. unfold Create. rewrite C.
  unfold andThen, CreateNamespace, RepoAdd, total, createHelmWordpress,
    Sync, call.
  set (w0 := update (set_Created true) w).
  set (w1 := logged (EvSync (cfg w0)) (Z.of_N (a_late (env (here w0)))) w0).
  assert (H1 : here w1 = S (here w)).
  { unfold w1. rewrite here_logged. reflexivity. }
  set (w2 := logged (EvCreateNamespace (Namespace (AddOn (cfg w1))))
                    (Z.of_N (a_late (env (here w1)))) w1).
  assert (H2 : here w2 = S (S (here w))).
  { unfold w2. now rewrite here_logged, H1. }
  set (w3 := logged (EvRepoAdd chartRepoName chartRepoURL)
                    (Z.of_N (a_late (env (here w2)))) w2).
  assert (H3 : here w3 = S (S (S (here w)))).
  { unfold w3. now rewrite here_logged, H2. }
  rewrite H1, H2, H3.
  split; [|split].
  - intros text E. rewrite E. cbn [lift_err]. eexists.
    split; [reflexivity|].
    clear H1 H2 H3. subst w3 w2 w1 w0.
    cbn [snd logged update trace cfg set_CreateTook set_Created with_AddOn].
    repeat rewrite <- app_assoc. reflexivity.
  - intros E1 text E. rewrite E1, E. cbn [lift_err]. eexists.
    split; [reflexivity|].
    clear H1 H2 H3. subst w3 w2 w1 w0.
    cbn [snd logged update trace cfg set_CreateTook set_Created with_AddOn].
    repeat rewrite <- app_assoc. reflexivity.
  - intros E1 E2 text E. rewrite E1, E2, E. cbn [lift_err]. eexists. eexists.
    split; [reflexivity|].
    clear H1 H2 H3. subst w3 w2 w1 w0.
    cbn [snd logged update trace cfg set_CreateTook set_Created with_AddOn].
    repeat rewrite <- app_assoc.
    split; [|split; [|reflexivity]]; reflexivity.
Qed.

(** The theorem above at a run in which the install fails. *)
Lemma Create_stops_at_first_failure_witness :
  exists w' install,
    Create unstopped installFails freshWorld
    = Some (Some (External "helm install failed"), w')
    /\ ic_Namespace install = Namespace (AddOn (cfg freshWorld))
    /\ ReleaseName install = chartName
    /\ trace w' =
         List.app (trace freshWorld)
           [EvSync (set_Created true (cfg freshWorld));
            EvCreateNamespace (Namespace (AddOn (cfg freshWorld)));
            EvRepoAdd chartRepoName chartRepoURL;
            EvInstall install;
            EvSync (cfg w')].
Proof.
  exact (proj2 (proj2 (Create_stops_at_first_failure
                         unstopped installFails freshWorld eq_refl))
               eq_refl eq_refl "helm install failed" eq_refl).
Defined.

(** *** The derived name and ARN *)

Lemma upto_prefix (c : ascii) (s : string) :
  String.prefix (Strings.upto c s) s = true.
Proof.
  induction s as [|d s IH]; [reflexivity|].
  cbn [Strings.upto]. destruct (Ascii.eqb d c); [reflexivity|].
  cbn [String.prefix]. destruct (ascii_dec d d); [exact IH|contradiction].
Qed.

Lemma upto_all (c : ascii) (s : string) :
  Strings.free_of c s = true -> Strings.upto c s = s.
Proof.
  induction s as [|d s IH]; intro H; [reflexivity|].
  cbn [Strings.free_of] in H. apply andb_true_iff in H. destruct H as [Hd Hs].
  apply negb_true_iff in Hd. cbn [Strings.upto]. rewrite Hd.
  now rewrite (IH Hs).
Qed.

Lemma upto_length (c : ascii) (s : string) :
  (String.length (Strings.upto c s) <= String.length s)%nat.
Proof.
  induction s as [|d s IH]; [apply Nat.le_refl|].
  cbn [Strings.upto]. destruct (Ascii.eqb d c); cbn [String.length]; lia.
Qed.

Lemma Replace_free_old (old new : ascii) (s : string) :
  old <> new -> Strings.free_of old (Strings.Replace s old new) = true.
Proof.
  intro N. induction s as [|d s IH]; [reflexivity|].
  cbn [Strings.Replace Strings.free_of]. rewrite IH, andb_true_r.
  destruct (Ascii.eqb d old) eqn:E.
  - apply negb_true_iff. apply Ascii.eqb_neq. congruence.
  - now rewrite E.
Qed.

Lemma Replace_free_other (c old new : ascii) (s : string) :
  c <> new -> Strings.free_of c s = true ->
  Strings.free_of c (Strings.Replace s old new) = true.
Proof.
  intros N. induction s as [|d s IH]; intro H; [reflexivity|].
  cbn [Strings.free_of] in H. apply andb_true_iff in H. destruct H as [Hd Hs].
  cbn [Strings.Replace Strings.free_of]. rewrite (IH Hs), andb_true_r.
  destruct (Ascii.eqb d old); [|exact Hd].
  apply negb_true_iff. apply Ascii.eqb_neq. congruence.
Qed.

Lemma Replace_length (old new : ascii) (s : string) :
  String.length (Strings.Replace s old new) = String.length s.
Proof.
  induction s as [|d s IH]; [reflexivity|]. cbn. now rewrite IH.
Qed.

(** The name derived from a host name is a prefix of it and has no [-]; it is
    the whole host name when that has no [-]. What the derived ARN adds to
    its fixed prefix has neither a [-] nor a [.], and is no longer than the
    host name. *)
Theorem derived_names_shape (region accountID hostName : string) :
  String.prefix (deriveNLBName hostName) hostName = true
  /\ Strings.free_of "-" (deriveNLBName hostName) = true
  /\ (Strings.free_of "-" hostName = true -> deriveNLBName hostName = hostName)
  /\ exists tail,
       deriveNLBARN region accountID hostName
       = "arn:aws:elasticloadbalancing:" ++ region ++ ":" ++ accountID
           ++ ":loadbalancer/net/" ++ tail
       /\ Strings.free_of "-" tail = true
       /\ Strings.free_of "." tail = true
       /\ (String.length tail <= String.length hostName)%nat.
Proof.
  unfold deriveNLBName, deriveNLBARN.
  rewrite !StringsFacts.first_Split.
  split; [apply upto_prefix|].
  split; [apply StringsFacts.upto_free|].
  split; [apply upto_all|].
  eexists. split; [reflexivity|].
  split; [apply Replace_free_old; discriminate|].
  split.
  - apply Replace_free_other; [discriminate|apply StringsFacts.upto_free].
  - rewrite Replace_length. apply upto_length.
Qed.

(** When the steps of [Create] all succeed, a host name that is not empty was
    recorded on the way, and they took at least 150 seconds. *)
Lemma Create_steps_success (ts : tester) (env : Env) (w w' : World) :
  (CreateNamespace ;; RepoAdd ;; total createHelmWordpress ;;
   waitService ts ;; total Sync) env w = Some (None, w') ->
  exists hostName,
    hostName <> EmptyString
    /\ cfg w' = recordEndpoint hostName (cfg w)
    /\ now w + 150 * Second <= now w'.
Proof.
  unfold andThen, CreateNamespace, RepoAdd, total, createHelmWordpress.
  intro H.
  step_call (EvCreateNamespace (Namespace (AddOn (cfg w)))) env w a1 w1 F1.
  destruct (a_err a1); [discriminate|]. cbn [lift_err] in H.
  step_call (EvRepoAdd chartRepoName chartRepoURL) env w1 a2 w2 F2.
  destruct (a_err a2); [discriminate|]. cbn [lift_err] in H.
  match type of H with
  | context [call ?ev env w2] => step_call ev env w2 a3 w3 F3
  end.
  destruct (a_err a3); [discriminate|]. cbn [lift_err] in H.
  destruct (waitService ts env w3) as [[r4 w4]|] eqn:W; [|discriminate].
  destruct r4 as [e|]; [discriminate|].
  apply waitService_outcome in W.
  destruct W as (evs & _ & _ & [(_ & _ & V)|(h & N & C & V)]).
  { exfalso. destruct V as [[V|[V|[s V]]]|[V _]]; discriminate. }
  destruct V as [[V|[V|[s V]]]|[_ V]]; try discriminate.
  pose proof (Sync_follows env w4) as F5.
  destruct (Sync env w4) as [r5 w5]. cbn [snd] in F5.
  inversion H; subst.
  destruct F1 as (C1 & N1 & _), F2 as (C2 & N2 & _), F3 as (C3 & N3 & _),
           F5 as (C5 & N5 & _).
  exists h. split; [exact N|]. split; [|clear - V N1 N2 N3 N5; lia].
  rewrite C5, C. now rewrite C3, C2, C1.
Qed.

(** [Create] returns nil, on an add-on that was not marked created, only
    when a host name that is not empty was found: the URL, the name and the
    ARN it leaves are the ones of that host name, and [CreateTook] is at
    least 150 seconds. *)
Theorem Create_success_has_endpoint (ts : tester) (env : Env) (w : World) :
  Created (AddOn (cfg w)) = false ->
  exists r w',
    Create ts env w = Some (r, w')
    /\ (r = None ->
        exists hostName,
          hostName <> EmptyString
          /\ URL (AddOn (cfg w')) = "http://" ++ hostName
          /\ NLBName (AddOn (cfg w')) = deriveNLBName hostName
          /\ NLBARN (AddOn (cfg w'))
             = deriveNLBARN (Region (cfg w)) (AWSAccountID (cfg w)) hostName
          /\ 150 * Second <= CreateTook (AddOn (cfg w'))).
Proof.
  intro C. destruct (Create_returns ts env w) as (r & w' & E).
  exists r, w'. split; [exact E|]. intro Z. subst r.
  revert E. unfold Create. rewrite C.
  pose proof (Sync_follows env (update (set_Created true) w)) as F0.
  destruct (Sync env (update (set_Created true) w)) as [r0 w1].
  cbn [snd] in F0. destruct F0 as (C0 & _ & _). cbn [update cfg] in C0.
  destruct ((CreateNamespace ;; RepoAdd ;; total createHelmWordpress ;;
             waitService ts ;; total Sync) env w1) as [[r1 w2]|] eqn:S;
    [|discriminate].
  intro E. inversion E; subst.
  destruct (Create_steps_success ts env w1 w2 S) as (h & N & C2 & T).
  exists h. split; [exact N|].
  cbn [cfg logged update snd Sync call set_CreateTook with_AddOn AddOn URL
       NLBName NLBARN CreateTook].
  rewrite C2, C0. cbn. repeat split. unfold Second in T. lia.
Qed.

(** The theorem above at a run against a service that is ready from the
    start. *)
Lemma Create_success_has_endpoint_witness :
  exists r w',
    Create unstopped ready freshWorld = Some (r, w')
    /\ (r = None ->
        exists hostName,
          hostName <> EmptyString
          /\ URL (AddOn (cfg w')) = "http://" ++ hostName
          /\ NLBName (AddOn (cfg w')) = deriveNLBName hostName
          /\ NLBARN (AddOn (cfg w'))
             = deriveNLBARN (Region (cfg freshWorld))
                            (AWSAccountID (cfg freshWorld)) hostName
          /\ 150 * Second <= CreateTook (AddOn (cfg w'))).
Proof.
  exact (Create_success_has_endpoint unstopped ready freshWorld eq_refl).
Defined.

(** That run does return nil, after exactly 150 seconds. *)
Lemma Create_ready_succeeds :
  exists w',
    Create unstopped ready freshWorld = Some (None, w')
    /\ CreateTook (AddOn (cfg w')) = 150 * Second
    /\ gets (trace w') = 1%nat.
Proof.
  eexists. split; [vm_compute; reflexivity|]. now vm_compute.
Qed.

(** *** The check points of [waitService] *)

Lemma Select_eq (ts : tester) (d : Z) (env : Env) (w : World) :
  exists spent,
    Select ts d env w =
    (select (Stopc ts) (Sig ts) (here w) (a_pick (env (here w))),
     logged (EvSelect d (is_ready (Stopc ts (here w)))
                      (is_ready (Sig ts (here w)))
                      (select (Stopc ts) (Sig ts) (here w)
                              (a_pick (env (here w)))))
            spent w).
Proof.
  unfold Select. eexists. reflexivity.
Qed.

Lemma heard_at_select (ts : tester) (d : Z) (n : nat) (pick : bool) :
  heard_at ts n
           (EvSelect d (is_ready (Stopc ts n)) (is_ready (Sig ts n))
                     (select (Stopc ts) (Sig ts) n pick)) = true.
Proof.
  unfold heard_at, select.
  destruct (Stopc ts n), (Sig ts n), pick; reflexivity.
Qed.

Lemma select_cancelled (stopc : chan unit) (sigc : chan Signal) (n : nat)
    (pick : bool) :
  select stopc sigc n pick <> RecvTimer ->
  is_ready (stopc n) || is_ready (sigc n) = true.
Proof.
  intro N. destruct (is_ready (stopc n) || is_ready (sigc n)) eqn:R;
    [reflexivity|].
  exfalso. apply N. now apply select_timer.
Qed.

Lemma httpReadInsecure_world (u : string) (env : Env) (w : World) :
  snd (httpReadInsecure u env w) =
  logged (EvHTTPGet u) (Z.of_N (a_late (env (here w)))) w.
Proof.
  unfold httpReadInsecure, call.
  destruct (a_http (env (here w))) as [text|code body copyErr];
    [reflexivity|].
  now destruct (400 <=? code).
Qed.

Lemma heard_app (ts : tester) (e1 : list Event) :
  forall n e2,
    heard ts n (List.app e1 e2) =
    heard ts n e1 && heard ts (n + List.length e1) e2.
Proof.
  induction e1 as [|ev e1 IH]; intros n e2; cbn [List.app heard List.length].
  - now rewrite Nat.add_0_r.
  - rewrite IH. replace (n + S (List.length e1))%nat
      with (S n + List.length e1)%nat by lia.
    now rewrite andb_assoc.
Qed.

Lemma guarded_weaken (evs : list Event) (b : bool) :
  guarded false evs = true -> guarded b evs = true.
Proof.
  destruct evs as [|ev rest]; [reflexivity|].
  destruct ev; cbn [guarded]; try (intro H; exact H);
    cbn [andb]; discriminate.
Qed.

Lemma guarded_app (e1 : list Event) :
  forall b e2,
    guarded b e1 = true -> guarded false e2 = true ->
    guarded b (List.app e1 e2) = true.
Proof.
  induction e1 as [|ev e1 IH]; intros b e2 H1 H2.
  - now apply guarded_weaken.
  - cbn [List.app]. destruct ev; cbn [guarded] in *;
      try (now apply IH).
    + apply andb_true_iff in H1. destruct H1 as [B H1]. rewrite B.
      now apply IH.
    + apply andb_true_iff in H1. destruct H1 as [B H1]. rewrite B.
      now apply IH.
Qed.

Lemma heard_nth (ts : tester) (evs : list Event) :
  forall n i d stopReady sigReady taken,
    heard ts n evs = true ->
    nth_error evs i = Some (EvSelect d stopReady sigReady taken) ->
    stopReady = is_ready (Stopc ts (n + i)%nat)
    /\ sigReady = is_ready (Sig ts (n + i)%nat)
    /\ timer_taken taken = negb (stopReady || sigReady).
Proof.
  induction evs as [|ev evs IH]; intros n i d sr gr taken H E.
  - destruct i; discriminate.
  - cbn [heard] in H. apply andb_true_iff in H. destruct H as [H0 H].
    destruct i as [|i].
    + cbn in E. inversion E; subst ev. cbn [heard_at] in H0.
      apply andb_true_iff in H0. destruct H0 as [H0 H3].
      apply andb_true_iff in H0. destruct H0 as [H1 H2].
      apply Bool.eqb_prop in H1, H2, H3. rewrite Nat.add_0_r.
      now repeat split.
    + cbn in E. replace (n + S i)%nat with (S n + i)%nat by lia.
      now apply (IH (S n) i d sr gr taken).
Qed.

Lemma calm_nth (evs : list Event) (i : nat) (ev : Event) :
  calm evs -> nth_error evs i = Some ev -> cancel_seen ev = false.
Proof.
  intros C E. apply nth_error_In in E.
  unfold calm in C. rewrite Forall_forall in C. now apply C.
Qed.

(** A run that was aborted at its last call has no check point that found
    a channel ready but the last call. *)
Lemma aborted_at_last_nth (evs : list Event) (i : nat) (ev : Event) :
  aborted_at_last evs -> nth_error evs i = Some ev ->
  cancel_seen ev = true -> List.length evs = S i.
Proof.
  intros (pre & d & sr & gr & taken & E & C & R) N S. subst evs.
  rewrite length_app. cbn [List.length].
  destruct (Nat.lt_ge_cases i (List.length pre)) as [L|G].
  - rewrite nth_error_app1 in N by exact L.
    pose proof (calm_nth _ _ _ C N). congruence.
  - assert (B : (i < List.length (List.app pre [EvSelect d sr gr taken]))%nat).
    { apply nth_error_Some. congruence. }
    rewrite length_app in B. cbn [List.length] in B. lia.
Qed.

Lemma aborted_at_last_cons (ev : Event) (evs : list Event) :
  cancel_seen ev = false -> aborted_at_last evs ->
  aborted_at_last (ev :: evs).
Proof.
  intros C (pre & d & sr & gr & taken & E & P & R). subst evs.
  exists (ev :: pre), d, sr, gr, taken.
  split; [reflexivity|]. split; [|exact R]. now constructor.
Qed.

Lemma aborted_at_last_app (e1 evs : list Event) :
  calm e1 -> aborted_at_last evs -> aborted_at_last (List.app e1 evs).
Proof.
  intros C A. induction C as [|ev e1 H _ IH]; [exact A|].
  cbn [List.app]. now apply aborted_at_last_cons.
Qed.

Lemma here_trace (w w' : World) (evs : list Event) :
  trace w' = List.app (trace w) evs ->
  here w' = (here w + List.length evs)%nat.
Proof.
  intro T. unfold here. rewrite T. apply length_app.
Qed.

Lemma checks_nil (ts : tester) (w : World) : checks ts w w None [].
Proof.
  unfold checks. rewrite app_nil_r.
  repeat split. right. split; [reflexivity|constructor].
Qed.

(** A loop that went on after calls that were calm and guarded. *)
Lemma checks_after (ts : tester) (w w1 w' : World) (r : option error)
    (e1 evs : list Event) :
  trace w1 = List.app (trace w) e1 ->
  heard ts (here w) e1 = true ->
  guarded false e1 = true ->
  calm e1 ->
  checks ts w1 w' r evs ->
  checks ts w w' r (List.app e1 evs).
Proof.
  intros T1 H1 G1 C1 (T & H & G & V). unfold checks.
  split; [rewrite T, T1; now rewrite app_assoc|].
  split.
  { rewrite heard_app, H1. cbn [andb].
    now rewrite <- (here_trace _ _ _ T1). }
  split; [now apply guarded_app|].
  destruct V as [[V A]|[V C]].
  - left. split; [exact V|]. now apply aborted_at_last_app.
  - right. split; [exact V|]. now apply calm_app.
Qed.

(** A loop that a check point aborted. *)
Lemma checks_aborted (ts : tester) (d : Z) (env : Env) (w : World)
    (spent : Z) (r : option error) :
  select (Stopc ts) (Sig ts) (here w) (a_pick (env (here w))) <> RecvTimer ->
  cancellation r ->
  checks ts w
         (logged (EvSelect d (is_ready (Stopc ts (here w)))
                          (is_ready (Sig ts (here w)))
                          (select (Stopc ts) (Sig ts) (here w)
                                  (a_pick (env (here w)))))
                 spent w)
         r
         [EvSelect d (is_ready (Stopc ts (here w)))
                   (is_ready (Sig ts (here w)))
                   (select (Stopc ts) (Sig ts) (here w)
                           (a_pick (env (here w))))].
Proof.
  intros N R. unfold checks.
  split; [reflexivity|].
  split; [cbn [heard]; now rewrite heard_at_select|].
  split; [reflexivity|].
  left. split; [exact R|].
  exists [], d, (is_ready (Stopc ts (here w))),
         (is_ready (Sig ts (here w))),
         (select (Stopc ts) (Sig ts) (here w) (a_pick (env (here w)))).
  split; [reflexivity|]. split; [constructor|].
  exact (select_cancelled _ _ _ (a_pick (env (here w))) N).
Qed.

(** A loop that went on after a check point whose timer case ran. *)
Lemma select_calm (stopc : chan unit) (sigc : chan Signal) (n : nat)
    (pick : bool) (d : Z) :
  select stopc sigc n pick = RecvTimer ->
  cancel_seen (EvSelect d (is_ready (stopc n)) (is_ready (sigc n)) RecvTimer)
  = false.
Proof.
  intro E. cbn [cancel_seen]. now apply select_timer in E.
Qed.

(** The check points of the first loop. *)
Lemma discover_checks (fuel : nat) :
  forall ts retryStart hostName env w r hostName' w',
    discover fuel ts retryStart hostName env w = Some ((r, hostName'), w') ->
    exists evs, checks ts w w' r evs.
Proof.
  induction fuel as [|fuel IH]; intros ts rs h env w r h' w' H;
    cbn [discover] in H; destruct (now w - rs <? waitDur).
  - discriminate.
  - inversion H; subst. exists []. apply checks_nil.
  - destruct (Select_eq ts tick env w) as (spent & ES). rewrite ES in H.
    clear ES.
    pose proof (checks_aborted ts tick env w spent) as AB.
    pose proof (heard_at_select ts tick (here w) (a_pick (env (here w))))
      as HS.
    pose proof (select_calm (Stopc ts) (Sig ts) (here w)
                            (a_pick (env (here w))) tick) as SC.
    destruct (select (Stopc ts) (Sig ts) (here w) (a_pick (env (here w))))
      as [|sig|].
    + inversion H; subst. eexists. apply AB; [discriminate|]. now left.
    + inversion H; subst. eexists. apply AB; [discriminate|].
      right. right. now exists sig.
    + clear AB. specialize (SC eq_refl).
      set (sel := EvSelect tick (is_ready (Stopc ts (here w)))
                           (is_ready (Sig ts (here w))) RecvTimer) in *.
      set (w1 := logged sel spent w) in *.
      unfold call in H.
      set (w2 := logged (EvExec (kubectlArgs (cfg w1)))
                        (Z.of_N (a_late (env (here w1)))) w1) in *.
      set (so := env (here w2)) in *.
      set (w3 := logged (EvGetService (Namespace (AddOn (cfg w2))) svcName)
                        (Z.of_N (a_late so)) w2) in *.
      assert (T3 : trace w3 =
                     List.app (trace w)
                              [sel; EvExec (kubectlArgs (cfg w1));
                               EvGetService (Namespace (AddOn (cfg w2)))
                                            svcName]).
      { unfold w3, w2, w1, logged. cbn [trace].
        now rewrite <- !app_assoc. }
      assert (H3 : heard ts (here w)
                         [sel; EvExec (kubectlArgs (cfg w1));
                          EvGetService (Namespace (AddOn (cfg w2)))
                                       svcName] = true).
      { cbn [heard]. now rewrite HS. }
      assert (C3 : calm [sel; EvExec (kubectlArgs (cfg w1));
                         EvGetService (Namespace (AddOn (cfg w2)))
                                      svcName]).
      { repeat constructor. exact SC. }
      destruct (a_err so).
      * apply IH in H. destruct H as (evs & K).
        exists (List.app [sel; EvExec (kubectlArgs (cfg w1));
                          EvGetService (Namespace (AddOn (cfg w2))) svcName;
                          EvSleep tick] evs).
        apply (checks_after ts w (Sleep tick env w3)); try exact K.
        -- unfold Sleep, logged. cbn [trace]. rewrite T3.
           now rewrite <- app_assoc.
        -- cbn [heard]. now rewrite HS.
        -- reflexivity.
        -- repeat constructor. exact SC.
      * destruct (String.eqb _ EmptyString).
        -- apply IH in H. destruct H as (evs & K).
           eexists. now apply (checks_after ts w w3 w' r _ evs T3 H3).
        -- inversion H; subst.
           eexists. unfold checks. split; [exact T3|].
           split; [exact H3|]. split; [reflexivity|].
           right. now split.
  - inversion H; subst. exists []. apply checks_nil.
Qed.

(** The check points of the second loop. *)
Lemma probe_checks (fuel : nat) :
  forall ts retryStart env w r w',
    probe fuel ts retryStart env w = Some (r, w') ->
    exists evs, checks ts w w' r evs.
Proof.
  induction fuel as [|fuel IH]; intros ts rs env w r w' H;
    cbn [probe] in H; destruct (now w - rs <? waitDur).
  - discriminate.
  - inversion H; subst. exists []. apply checks_nil.
  - destruct (Select_eq ts tick env w) as (spent & ES). rewrite ES in H.
    clear ES.
    pose proof (checks_aborted ts tick env w spent) as AB.
    pose proof (heard_at_select ts tick (here w) (a_pick (env (here w))))
      as HS.
    pose proof (select_calm (Stopc ts) (Sig ts) (here w)
                            (a_pick (env (here w))) tick) as SC.
    destruct (select (Stopc ts) (Sig ts) (here w) (a_pick (env (here w))))
      as [|sig|].
    + inversion H; subst. eexists. apply AB; [discriminate|].
      right. now left.
    + inversion H; subst. eexists. apply AB; [discriminate|].
      right. right. now exists sig.
    + clear AB. specialize (SC eq_refl).
      set (sel := EvSelect tick (is_ready (Stopc ts (here w)))
                           (is_ready (Sig ts (here w))) RecvTimer) in *.
      set (w1 := logged sel spent w) in *.
      pose proof (httpReadInsecure_world (URL (AddOn (cfg w1))) env w1) as HW.
      destruct (httpReadInsecure (URL (AddOn (cfg w1))) env w1)
        as [[err httpOutput] w2].
      cbn [snd] in HW.
      assert (T2 : trace w2 =
                     List.app (trace w)
                              [sel; EvHTTPGet (URL (AddOn (cfg w1)))]).
      { rewrite HW. unfold w1, logged. cbn [trace].
        now rewrite <- !app_assoc. }
      assert (H2 : heard ts (here w)
                         [sel; EvHTTPGet (URL (AddOn (cfg w1)))] = true).
      { cbn [heard]. now rewrite HS. }
      assert (C2 : calm [sel; EvHTTPGet (URL (AddOn (cfg w1)))]).
      { repeat constructor. exact SC. }
      destruct err.
      * apply IH in H. destruct H as (evs & K).
        exists (List.app [sel; EvHTTPGet (URL (AddOn (cfg w1)));
                          EvSleep tick] evs).
        apply (checks_after ts w (Sleep tick env w2)); try exact K.
        -- unfold Sleep, logged. cbn [trace]. rewrite T2.
           now rewrite <- app_assoc.
        -- cbn [heard]. now rewrite HS.
        -- reflexivity.
        -- repeat constructor. exact SC.
      * rewrite orb_true_r in H. inversion H; subst.
        eexists. unfold checks. split; [exact T2|].
        split; [exact H2|]. split; [reflexivity|].
        right. now split.
  - inversion H; subst. exists []. apply checks_nil.
Qed.

Lemma cancellation_not_nil : ~ cancellation None.
Proof.
  intros [V|[V|[s V]]]; discriminate.
Qed.

Lemma cancellation_is_error (r : option error) : cancellation r -> r <> None.
Proof.
  intros V E. subst r. now apply cancellation_not_nil.
Qed.

(** The calls of a run that went through without a cancellation. *)
Lemma checks_calm (ts : tester) (w w' : World) (evs : list Event) :
  checks ts w w' None evs ->
  trace w' = List.app (trace w) evs
  /\ heard ts (here w) evs = true
  /\ guarded false evs = true
  /\ calm evs.
Proof.
  intros (T & H & G & [[V _]|[_ C]]); [|now repeat split].
  exfalso. now apply cancellation_not_nil.
Qed.

(** The calls of a run that returned an error of a loop. *)
Lemma checks_error (ts : tester) (w w' : World) (e : error)
    (evs : list Event) :
  checks ts w w' (Some e) evs ->
  trace w' = List.app (trace w) evs
  /\ heard ts (here w) evs = true
  /\ guarded false evs = true
  /\ cancellation (Some e) /\ aborted_at_last evs.
Proof.
  intros (T & H & G & [[V A]|[V _]]); [now repeat split|discriminate].
Qed.

(** The check points of [waitService]: the first call is the check point
    of the two minutes; every check point reads the channels of the tester;
    every run of kubectl and every GET is guarded by one; and the run either
    was aborted at its last call, a check point that found a channel ready,
    with a cancellation error, or had no check point that found one. *)
Lemma waitService_checks (ts : tester) (env : Env) (w : World)
    (r : option error) (w' : World) :
  waitService ts env w = Some (r, w') ->
  exists taken rest,
    trace w' =
      List.app (trace w)
               (EvSelect waitDur (is_ready (Stopc ts (here w)))
                         (is_ready (Sig ts (here w))) taken :: rest)
    /\ heard ts (here w)
             (EvSelect waitDur (is_ready (Stopc ts (here w)))
                       (is_ready (Sig ts (here w))) taken :: rest) = true
    /\ guarded false
               (EvSelect waitDur (is_ready (Stopc ts (here w)))
                         (is_ready (Sig ts (here w))) taken :: rest) = true
    /\ ((cancellation r
         /\ aborted_at_last
              (EvSelect waitDur (is_ready (Stopc ts (here w)))
                        (is_ready (Sig ts (here w))) taken :: rest))
        \/ calm (EvSelect waitDur (is_ready (Stopc ts (here w)))
                          (is_ready (Sig ts (here w))) taken :: rest)).
Proof.
  unfold waitService. generalize window_ticks. intros fuel H.
  destruct (Select_eq ts waitDur env w) as (spent & ES). rewrite ES in H.
  clear ES.
  pose proof (checks_aborted ts waitDur env w spent) as AB.
  pose proof (heard_at_select ts waitDur (here w) (a_pick (env (here w))))
    as HS.
  pose proof (select_calm (Stopc ts) (Sig ts) (here w)
                          (a_pick (env (here w))) waitDur) as SC.
  destruct (select (Stopc ts) (Sig ts) (here w) (a_pick (env (here w))))
    as [|sig|].
  - inversion H; subst.
    destruct (AB (Some (errors_New "WordPress service creation aborted")))
      as (T & Hh & G & V); [discriminate|now left|].
    exists RecvStop, []. split; [exact T|]. split; [exact Hh|].
    split; [exact G|].
    destruct V as [V|[V _]]; [now left|discriminate].
  - inversion H; subst.
    destruct (AB (Some (ErrReceivedSignal sig)))
      as (T & Hh & G & V); [discriminate|right; right; now exists sig|].
    exists (RecvSig sig), []. split; [exact T|]. split; [exact Hh|].
    split; [exact G|].
    destruct V as [V|[V _]]; [now left|discriminate].
  - clear AB. specialize (SC eq_refl).
    set (sel := EvSelect waitDur (is_ready (Stopc ts (here w)))
                         (is_ready (Sig ts (here w))) RecvTimer) in *.
    set (w1 := logged sel spent w) in *.
    assert (T1 : trace w1 = List.app (trace w) [sel]) by reflexivity.
    assert (H1 : heard ts (here w) [sel] = true).
    { cbn [heard]. now rewrite HS. }
    assert (G1 : guarded false [sel] = true) by reflexivity.
    assert (C1 : calm [sel]) by (now apply calm_one).
    destruct (discover fuel ts (now w1) EmptyString env w1)
      as [[[r1 h] w2]|] eqn:D; [|discriminate].
    apply discover_checks in D. destruct D as (e1 & K1).
    pose proof (checks_after ts w w1 w2 r1 [sel] e1 T1 H1 G1 C1 K1) as K2.
    cbn [List.app] in K2. clear K1.
    exists RecvTimer. fold sel.
    destruct r1 as [e|].
    { inversion H; subst. exists e1.
      apply checks_error in K2. destruct K2 as (T & Hh & G & V & A).
      split; [exact T|]. split; [exact Hh|]. split; [exact G|]. now left. }
    apply checks_calm in K2. destruct K2 as (T2 & H2 & G2 & C2).
    destruct (String.eqb h EmptyString).
    { inversion H; subst. exists e1. now repeat split; try right. }
    set (w3 := update (recordEndpoint h) w2) in *.
    set (w4 := Sleep (20 * Second) env w3) in *.
    assert (T4 : trace w4 =
                   List.app (trace w)
                            (List.app (sel :: e1) [EvSleep (20 * Second)])).
    { unfold w4, Sleep, logged, w3, update. cbn [trace]. rewrite T2.
      now rewrite <- app_assoc. }
    assert (H4 : heard ts (here w)
                       (List.app (sel :: e1) [EvSleep (20 * Second)])
                 = true).
    { rewrite heard_app, H2. reflexivity. }
    assert (G4 : guarded false
                         (List.app (sel :: e1) [EvSleep (20 * Second)])
                 = true).
    { now apply guarded_app. }
    assert (C4 : calm (List.app (sel :: e1) [EvSleep (20 * Second)])).
    { apply calm_app; [exact C2|]. now apply calm_one. }
    unfold andThen in H.
    destruct (probe fuel ts (now w4) env w4) as [[r2 w5]|] eqn:P;
      [|discriminate].
    apply probe_checks in P. destruct P as (e2 & K5).
    pose proof (checks_after ts w w4 w5 r2 _ e2 T4 H4 G4 C4 K5) as K6.
    clear K5. rewrite <- app_assoc in K6. cbn [List.app] in K6.
    destruct r2 as [e|].
    { inversion H; subst. eexists.
      apply checks_error in K6. destruct K6 as (T & Hh & G & V & A).
      split; [exact T|]. split; [exact Hh|]. split; [exact G|]. now left. }
    unfold total, Sync, call in H. cbn [fst snd] in H.
    inversion H; subst r w'. clear H.
    set (w6 := logged (EvSync (cfg w5)) (Z.of_N (a_late (env (here w5))))
                      w5).
    assert (K7 : checks ts w5 w6 None [EvSync (cfg w5)]).
    { unfold checks. repeat split. right. split; [reflexivity|].
      now apply calm_one. }
    apply checks_calm in K6. destruct K6 as (T6 & H6 & G6 & C6).
    pose proof (checks_after ts w w5 w6 None _ _ T6 H6 G6 C6 K7) as K8.
    cbn [List.app] in K8. rewrite <- app_assoc in K8. cbn [List.app] in K8.
    apply checks_calm in K8. destruct K8 as (T & Hh & G & C).
    eexists. split; [exact T|]. split; [exact Hh|]. split; [exact G|].
    now right.
Qed.

(** C8: [waitService] returns. Its first call is the check point of the
    two minutes on the stop channel and the signal channel of the tester;
    every check point of the run shows what the two channels held at its
    turn, and its timer case ran exactly when neither was ready; every run
    of kubectl and every GET comes right after a check point whose timer
    case ran. So when the stop channel or the signal channel is ready at any
    check point of the run, the run ends at that check point, and what it
    returns is a cancellation error, never nil. *)
Theorem C8_ready_channel_at_check_point_aborts (ts : tester) (env : Env)
    (w : World) :
  exists r w' evs,
    waitService ts env w = Some (r, w')
    /\ trace w' = List.app (trace w) evs
    /\ (exists taken rest,
          evs = EvSelect waitDur (is_ready (Stopc ts (here w)))
                         (is_ready (Sig ts (here w))) taken :: rest)
    /\ heard ts (here w) evs = true
    /\ guarded false evs = true
    /\ (forall i d stopReady sigReady taken,
          nth_error evs i = Some (EvSelect d stopReady sigReady taken) ->
          is_ready (Stopc ts (here w + i)%nat)
          || is_ready (Sig ts (here w + i)%nat) = true ->
          cancellation r /\ r <> None /\ List.length evs = S i)
    /\ (is_ready (Stopc ts (here w)) || is_ready (Sig ts (here w)) = true ->
        cancellation r /\ List.length evs = 1%nat).
Proof.
  destruct (waitService_returns ts env w) as (r & w' & E).
  destruct (waitService_checks ts env w r w' E)
    as (taken & rest & T & H & G & V).
  set (evs := EvSelect waitDur (is_ready (Stopc ts (here w)))
                       (is_ready (Sig ts (here w))) taken :: rest) in *.
  assert (A : forall i d stopReady sigReady taken',
             nth_error evs i = Some (EvSelect d stopReady sigReady taken') ->
             is_ready (Stopc ts (here w + i)%nat)
             || is_ready (Sig ts (here w + i)%nat) = true ->
             cancellation r /\ r <> None /\ List.length evs = S i).
  { intros i d sr gr taken' N R.
    destruct (heard_nth ts evs (here w) i d sr gr taken' H N)
      as (Es & Eg & _).
    assert (S : cancel_seen (EvSelect d sr gr taken') = true).
    { cbn [cancel_seen]. now rewrite Es, Eg. }
    destruct V as [[V L]|C].
    - split; [exact V|]. split; [now apply cancellation_is_error|].
      exact (aborted_at_last_nth evs i _ L N S).
    - pose proof (calm_nth evs i _ C N). congruence. }
  exists r, w', evs.
  split; [exact E|]. split; [exact T|].
  split; [now exists taken, rest|].
  split; [exact H|]. split; [exact G|]. split; [exact A|].
  intro R.
  destruct (A 0%nat waitDur (is_ready (Stopc ts (here w)))
              (is_ready (Sig ts (here w))) taken eq_refl)
    as (V1 & _ & L).
  { now rewrite Nat.add_0_r. }
  now split.
Qed.

End WordpressFacts.

(** ** The cluster role *)

Module RoleFacts.
Import Role.

(** *** Calls *)

Lemma stack_follows_refl (w : World) : follows w w [].
Proof.
  unfold follows. rewrite app_nil_r. repeat split. lia.
Qed.

Lemma stack_follows_trans (w1 w2 w3 : World) (e1 e2 : list Event) :
  follows w1 w2 e1 -> follows w2 w3 e2 -> follows w1 w3 (List.app e1 e2).
Proof.
  unfold follows. intros (C1 & N1 & T1) (C2 & N2 & T2).
  repeat split; [congruence | lia |].
  rewrite T2, T1. now rewrite app_assoc.
Qed.

Lemma stack_logged_follows (ev : Event) (spent : Z) (w : World) :
  0 <= spent -> follows w (logged ev spent w) [ev].
Proof.
  unfold follows, logged. simpl. intros. repeat split. lia.
Qed.

Lemma stack_call_follows (ev : Event) (env : Env) (w : World) :
  follows w (snd (call ev env w)) [ev].
Proof.
  unfold call. simpl. apply stack_logged_follows. lia.
Qed.

Lemma stack_Sync_follows (env : Env) (w : World) :
  follows w (snd (Sync env w)) [EvSync (cfg w)].
Proof.
  unfold Sync. apply (stack_call_follows (EvSync (cfg w)) env w).
Qed.

Lemma stack_Sync_outcome (env : Env) (w : World) :
  uncancelled (fst (Sync env w)).
Proof.
  unfold Sync, call. cbn [fst].
  destruct (a_err (env (here w))) as [text|]; [|now left].
  right. right. now exists text.
Qed.

Lemma RecordStatus_follows (format : string) (arg : error) (env : Env)
    (w : World) :
  follows w (RecordStatus format arg env w) [EvRecordStatus format arg].
Proof.
  unfold RecordStatus. apply stack_call_follows.
Qed.

(** One wait of the poller logs one event and takes no negative time; when
    it ends by its timer the whole duration has passed; and on channels that
    are never ready it ends by its timer or by the deadline. *)
Lemma PollWait_follows (deadline : Z) (stopc : chan unit) (sigc : chan Signal)
    (d : Z) (env : Env) (w : World) :
  0 <= d ->
  exists ev,
    follows w (snd (PollWait deadline stopc sigc d env w)) [ev]
    /\ (fst (PollWait deadline stopc sigc d env w) = WaitTimer ->
        now w + d <= now (snd (PollWait deadline stopc sigc d env w))
        /\ now w + d <= deadline)
    /\ ((forall n, stopc n = None) -> (forall n, sigc n = None) ->
        wait_cancelled ev = false
        /\ fst (PollWait deadline stopc sigc d env w) <> WaitStop
        /\ forall sig,
             fst (PollWait deadline stopc sigc d env w) <> WaitSig sig).
Proof.
  intro Hd. unfold PollWait.
  set (n := here w). set (a := env n). set (late := Z.of_N (a_late a)).
  assert (Hl : 0 <= late) by (unfold late; lia).
  unfold select.
  destruct (stopc n) as [u|] eqn:Es; destruct (sigc n) as [sig|] eqn:Eg.
  - destruct (a_pick a); cbn [fst snd]; eexists;
      (split; [apply stack_logged_follows; lia|]);
      (split; [discriminate|]);
      intros Qs _; rewrite Qs in Es; discriminate.
  - cbn [fst snd]. eexists.
    split; [apply stack_logged_follows; lia|]. split; [discriminate|].
    intros Qs _. rewrite Qs in Es. discriminate.
  - cbn [fst snd]. eexists.
    split; [apply stack_logged_follows; lia|]. split; [discriminate|].
    intros _ Qg. rewrite Qg in Eg. discriminate.
  - destruct (deadline <? now w + d) eqn:Ed; cbn [fst snd]; eexists;
      (split; [apply stack_logged_follows; lia|]).
    + split; [discriminate|]. intros _ _.
      cbn [wait_cancelled is_ready orb].
      repeat split; intros; discriminate.
    + split.
      * intros _. apply Z.ltb_ge in Ed. unfold logged. cbn [now]. lia.
      * intros _ _. cbn [wait_cancelled is_ready orb].
        repeat split; intros; discriminate.
Qed.

(** *** The poller *)

Ltac step_wait deadline stopc sigc d env w ended w' ev F Ht Hq :=
  let P := fresh "P" in
  assert (P : 0 <= d) by (unfold Second in *; lia);
  destruct (PollWait_follows deadline stopc sigc d env w P)
    as (ev & F & Ht & Hq);
  clear P;
  destruct (PollWait deadline stopc sigc d env w) as [ended w'];
  cbn [fst snd] in F, Ht, Hq.

Ltac step_stack_call ev env w a w' F :=
  pose proof (stack_call_follows ev env w) as F;
  destruct (call ev env w) as [a w'];
  cbn [snd] in F.

Lemma pollLoop_step (fuel : nat) (deadline : Z) (stopc : chan unit)
    (sigc : chan Signal) (stackID desired : string) (pollInterval : Z)
    (env : Env) (w : World) :
  pollLoop (S fuel) deadline stopc sigc stackID desired pollInterval env w =
  let (a, w1) := call (EvDescribeStacks stackID) env w in
  match a_err a with
  | Some text => Some ([failed (External text)], w1)
  | None =>
      let snapshot :=
        mkStackStatus
          (mkStack (a_status a)
                   (map (fun kv => mkOutput (fst kv) (snd kv)) (a_outputs a)))
          None in
      if String.eqb (a_status a) desired then Some ([snapshot], w1)
      else
        match PollWait deadline stopc sigc pollInterval env w1 with
        | (WaitStop, w2) => Some ([snapshot; failed ErrPollStopped], w2)
        | (WaitSig sig, w2) => Some ([snapshot; failed (ErrPollSignal sig)], w2)
        | (WaitDeadline, w2) => Some ([snapshot; failed ErrPollDeadline], w2)
        | (WaitTimer, w2) =>
            match pollLoop fuel deadline stopc sigc stackID desired
                           pollInterval env w2 with
            | None => None
            | Some (rest, w3) => Some (snapshot :: rest, w3)
            end
        end
  end.
Proof. reflexivity. Qed.

(** The attempts that fit before the deadline are bounded, so the poller
    returns. *)
Lemma pollLoop_returns (fuel : nat) :
  forall deadline stopc sigc stackID desired pollInterval env w,
    0 < pollInterval ->
    deadline - now w < Z.of_nat fuel * pollInterval ->
    exists res,
      pollLoop (S fuel) deadline stopc sigc stackID desired pollInterval env w
      = Some res.
Proof.
  induction fuel as [|fuel IH];
    intros deadline stopc sigc id desired I env w HI B;
    rewrite pollLoop_step;
    step_stack_call (EvDescribeStacks id) env w a w1 F;
    destruct F as (_ & N1 & _);
    (destruct (a_err a); [eexists; reflexivity|]);
    (destruct (String.eqb (a_status a) desired); [eexists; reflexivity|]);
    step_wait deadline stopc sigc I env w1 ended w2 ev F2 Ht Hq;
    destruct ended; try (eexists; reflexivity);
    destruct (Ht eq_refl) as [N2 D2].
  - exfalso. lia.
  - destruct (IH deadline stopc sigc id desired I env w2 HI) as [[rest w3] E].
    { lia. }
    rewrite E. eexists; reflexivity.
Qed.

Lemma Poll_returns (deadline : Z) (stopc : chan unit) (sigc : chan Signal)
    (stackID desired : string) (pollInterval initialDelay : Z) (env : Env)
    (w : World) :
  0 < pollInterval -> 0 <= initialDelay ->
  exists res,
    Poll deadline stopc sigc stackID desired pollInterval initialDelay env w
    = Some res.
Proof.
  intros HI Hd. unfold Poll.
  destruct (PollWait deadline stopc sigc initialDelay env w) as [ended w1].
  destruct ended; try (eexists; reflexivity).
  apply pollLoop_returns; [exact HI|].
  set (x := deadline - now w1).
  destruct (Z.neg_nonneg_cases x) as [Hx|Hx].
  - assert (Hq : x / pollInterval + 1 <= 0).
    { pose proof (Z.div_lt_upper_bound x pollInterval 0 HI). lia. }
    replace (Z.to_nat (x / pollInterval + 1)) with 0%nat by lia. lia.
  - pose proof (Z.div_pos x pollInterval Hx HI).
    rewrite Z2Nat.id by lia.
    pose proof (Z.mul_succ_div_gt x pollInterval HI). lia.
Qed.

Lemma uncancelled_failed_external (text : string) :
  uncancelled (Error (failed (External text))).
Proof. right. right. now exists text. Qed.

(** What the poller leaves: the calls it made, the configuration untouched;
    and on channels that are never ready no wait is cancelled and no status
    carries a cancellation. *)
Lemma pollLoop_sound (fuel : nat) :
  forall deadline stopc sigc stackID desired pollInterval env w ch w',
    0 <= pollInterval ->
    pollLoop fuel deadline stopc sigc stackID desired pollInterval env w
    = Some (ch, w') ->
    exists evs,
      follows w w' evs
      /\ ((forall n, stopc n = None) -> (forall n, sigc n = None) ->
          undisturbed evs /\ Forall (fun st => uncancelled (Error st)) ch).
Proof.
  induction fuel as [|fuel IH];
    intros deadline stopc sigc id desired I env w ch w' HI H;
    [discriminate|rewrite pollLoop_step in H].
  step_stack_call (EvDescribeStacks id) env w a w1 F.
  assert (U1 : undisturbed [EvDescribeStacks id]) by (now repeat constructor).
  destruct (a_err a) as [text|].
  { inversion H; subst. eexists. split; [exact F|]. intros _ _.
    split; [exact U1|].
    constructor; [apply uncancelled_failed_external|constructor]. }
  destruct (String.eqb (a_status a) desired).
  { inversion H; subst. eexists. split; [exact F|]. intros _ _.
    split; [exact U1|]. constructor; [now left|constructor]. }
  step_wait deadline stopc sigc I env w1 ended w2 ev F2 Ht Hq.
  pose proof (stack_follows_trans _ _ _ _ _ F F2) as F12.
  destruct ended as [|sig| |].
  - inversion H; subst. eexists. split; [exact F12|]. intros Qs Qg.
    exfalso. now destruct (Hq Qs Qg) as (_ & N & _).
  - inversion H; subst. eexists. split; [exact F12|]. intros Qs Qg.
    exfalso. destruct (Hq Qs Qg) as (_ & _ & N). now apply (N sig).
  - inversion H; subst. eexists. split; [exact F12|]. intros Qs Qg.
    destruct (Hq Qs Qg) as (Q & _). split.
    + repeat constructor. exact Q.
    + constructor; [now left|].
      constructor; [right; now left|constructor].
  - destruct (pollLoop fuel deadline stopc sigc id desired I env w2)
      as [[rest w3]|] eqn:E; [|discriminate].
    apply IH in E; [|exact HI]. destruct E as (evs & F3 & V).
    inversion H; subst. eexists.
    split; [eapply stack_follows_trans; [exact F12|exact F3]|].
    intros Qs Qg. destruct (Hq Qs Qg) as (Q & _).
    destruct (V Qs Qg) as (V1 & V2). split.
    + apply Forall_app. split; [repeat constructor; exact Q|exact V1].
    + constructor; [now left|exact V2].
Qed.

Lemma Poll_sound (deadline : Z) (stopc : chan unit) (sigc : chan Signal)
    (stackID desired : string) (pollInterval initialDelay : Z) (env : Env)
    (w : World) (ch : list StackStatus) (w' : World) :
  0 <= pollInterval -> 0 <= initialDelay ->
  Poll deadline stopc sigc stackID desired pollInterval initialDelay env w
  = Some (ch, w') ->
  exists evs,
    follows w w' evs
    /\ ((forall n, stopc n = None) -> (forall n, sigc n = None) ->
        undisturbed evs /\ Forall (fun st => uncancelled (Error st)) ch).
Proof.
  intros HI Hd H. unfold Poll in H.
  step_wait deadline stopc sigc initialDelay env w ended w1 ev F Ht Hq.
  destruct ended as [|sig| |].
  - inversion H; subst. eexists. split; [exact F|]. intros Qs Qg.
    exfalso. now destruct (Hq Qs Qg) as (_ & N & _).
  - inversion H; subst. eexists. split; [exact F|]. intros Qs Qg.
    exfalso. destruct (Hq Qs Qg) as (_ & _ & N). now apply (N sig).
  - inversion H; subst. eexists. split; [exact F|]. intros Qs Qg.
    destruct (Hq Qs Qg) as (Q & _). split.
    + repeat constructor. exact Q.
    + constructor; [right; now left|constructor].
  - apply pollLoop_sound in H; [|exact HI]. destruct H as (evs & F2 & V).
    eexists. split; [eapply stack_follows_trans; [exact F|exact F2]|].
    intros Qs Qg. destruct (Hq Qs Qg) as (Q & _).
    destruct (V Qs Qg) as (V1 & V2). split; [|exact V2].
    apply Forall_app. split; [repeat constructor; exact Q|exact V1].
Qed.

(** *** Ranging over the statuses *)

Lemma last_cons {A : Type} (x : A) (l : list A) (d : A) :
  last (x :: l) d = last l x.
Proof.
  revert x d. induction l as [|y l IH]; intros x d; [reflexivity|].
  change (last (x :: y :: l) d) with (last (y :: l) d).
  now rewrite (IH y d), (IH y x).
Qed.

Lemma Forall_last {A : Type} (P : A -> Prop) (l : list A) (d : A) :
  Forall P l -> P d -> P (last l d).
Proof.
  intros H. revert d. induction H as [|x l Hx Hl IH]; intros d Hd;
    [exact Hd|].
  rewrite last_cons. now apply IH.
Qed.

(** The range loop ends with the last status received (the zero value when
    none was), and calls nothing but [RecordStatus]. *)
Lemma rangeStatuses_sound (format : string) (ch : list StackStatus) :
  forall st env w,
    exists evs,
      follows w (snd (rangeStatuses format ch st env w)) evs
      /\ undisturbed evs
      /\ fst (rangeStatuses format ch st env w) = last ch st.
Proof.
  induction ch as [|received rest IH]; intros st env w; cbn [rangeStatuses].
  - exists []. split; [apply stack_follows_refl|]. split; [constructor|].
    reflexivity.
  - rewrite last_cons.
    destruct (Error received) as [e|].
    + destruct (IH received env (RecordStatus format e env w))
        as (evs & F & U & L).
      eexists. split.
      * eapply stack_follows_trans; [apply RecordStatus_follows|exact F].
      * split; [|exact L]. apply Forall_app. split; [|exact U].
        now repeat constructor.
    + destruct (IH received env w) as (evs & F & U & L).
      exists evs. split; [exact F|]. split; [exact U|exact L].
Qed.

(** *** [deleteClusterRole] *)

Lemma undisturbed_existsb (evs : list Event) :
  undisturbed evs -> existsb wait_cancelled evs = false.
Proof.
  intro U. induction U as [|ev evs H _ IH]; [reflexivity|].
  cbn [existsb]. now rewrite H, IH.
Qed.

Lemma uncancelled_not_cancelled (e : option error) :
  uncancelled e -> poll_cancelled e = false.
Proof.
  intros [E|[E|[text E]]]; now subst.
Qed.

(** [deleteClusterRole] always returns, and never touches the configuration.
    No wait of its polling is cancelled, what it returns is no cancellation,
    and when it has a stack to delete its first call submits the deletion. *)
Lemma deleteClusterRole_sound (ts : Tester) (env : Env) (w : World) :
  exists r w' evs,
    deleteClusterRole ts env w = Some (r, w')
    /\ follows w w' evs
    /\ undisturbed evs
    /\ uncancelled r
    /\ (ClusterRoleCreate (Params (cfg w)) = true ->
        ClusterRoleCFNStackID (Stat (cfg w)) <> EmptyString ->
        exists rest,
          evs = EvDeleteStack (ClusterRoleCFNStackID (Stat (cfg w))) :: rest).
Proof.
  unfold deleteClusterRole.
  destruct (ClusterRoleCreate (Params (cfg w))) eqn:EC; cbn [negb].
  2:{ exists None, w, []. repeat split; try apply stack_follows_refl;
        try constructor; try reflexivity. discriminate. }
  destruct (String.eqb (ClusterRoleCFNStackID (Stat (cfg w))) EmptyString)
    eqn:EI.
  { exists None, w, []. repeat split; try apply stack_follows_refl;
      try constructor; try reflexivity.
    intros _ N. apply String.eqb_eq in EI. contradiction. }
  step_stack_call (EvDeleteStack (ClusterRoleCFNStackID (Stat (cfg w)))) env w
                  a w1 F.
  assert (U1 : undisturbed
                 [EvDeleteStack (ClusterRoleCFNStackID (Stat (cfg w)))])
    by (now repeat constructor).
  destruct (a_err a) as [text|].
  { eexists _, _, _. split; [reflexivity|]. split; [exact F|].
    split; [exact U1|]. split; [right; right; now exists text|].
    intros _ _. now eexists. }
  set (deadline := now w1 + 10 * Minute).
  set (id := ClusterRoleCFNStackID (Stat (cfg w1))).
  destruct (Poll_returns deadline make_chan make_chan id
                         ResourceStatusDeleteComplete (25 * Second)
                         (10 * Second) env w1) as [[ch w2] EP];
    try (unfold Second; lia).
  rewrite EP.
  apply Poll_sound in EP; try (unfold Second; lia).
  destruct EP as (e2 & F2 & V2).
  destruct (V2 (fun _ => eq_refl) (fun _ => eq_refl)) as (U2 & O2).
  destruct (rangeStatuses_sound "failed to delete role (%v)" ch
                                zeroStackStatus env w2) as (e3 & F3 & U3 & L3).
  destruct (rangeStatuses "failed to delete role (%v)" ch zeroStackStatus
                          env w2) as [st w3].
  cbn [fst snd] in F3, L3.
  assert (O3 : uncancelled (Error st)).
  { rewrite L3. apply Forall_last; [exact O2|now left]. }
  pose proof (stack_follows_trans _ _ _ _ _ F
                (stack_follows_trans _ _ _ _ _ F2 F3)) as F13.
  assert (U13 : undisturbed
                  (List.app
                     [EvDeleteStack (ClusterRoleCFNStackID (Stat (cfg w)))]
                     (List.app e2 e3))).
  { apply Forall_app. split; [exact U1|]. apply Forall_app. now split. }
  destruct (Error st) as [e|] eqn:EE.
  { eexists _, _, _. split; [reflexivity|]. split; [exact F13|].
    split; [exact U13|]. split; [exact O3|]. intros _ _. now eexists. }
  pose proof (stack_Sync_follows env w3) as F4.
  pose proof (stack_Sync_outcome env w3) as O4.
  destruct (Sync env w3) as [r4 w4]. cbn [fst snd] in F4, O4.
  eexists _, _, _. split; [reflexivity|].
  split; [eapply stack_follows_trans; [exact F13|exact F4]|].
  split; [apply Forall_app; split; [exact U13|now repeat constructor]|].
  split; [exact O4|]. intros _ _. cbn [List.app]. now eexists.
Qed.

(** *** The claims about the cluster role *)

(** C3, as the code has it: [deleteClusterRole] always returns and leaves the
    whole configuration, with the stack ID and the role ARN of the status, as
    it found it; so when it had a stack to delete, a second call does not skip
    but submits the deletion of the same stack again. *)
Theorem C3_delete_leaves_stack_id (ts : Tester) (env : Env) (w : World) :
  exists r w',
    deleteClusterRole ts env w = Some (r, w')
    /\ cfg w' = cfg w
    /\ (ClusterRoleCreate (Params (cfg w)) = true ->
        ClusterRoleCFNStackID (Stat (cfg w)) <> EmptyString ->
        forall ts2 env2,
        exists r2 w2 rest,
          deleteClusterRole ts2 env2 w' = Some (r2, w2)
          /\ trace w2 =
               List.app (trace w')
                 (EvDeleteStack (ClusterRoleCFNStackID (Stat (cfg w)))
                    :: rest)).
Proof.
  destruct (deleteClusterRole_sound ts env w)
    as (r & w' & evs & E & (C & _ & _) & _).
  exists r, w'. split; [exact E|]. split; [exact C|].
  intros EC EI ts2 env2.
  destruct (deleteClusterRole_sound ts2 env2 w')
    as (r2 & w2 & evs2 & E2 & (_ & _ & T2) & _ & _ & S2).
  rewrite C in S2. destruct (S2 EC EI) as [rest S]. subst evs2.
  now exists r2, w2, rest.
Qed.

(** C3 fails as stated: the deletion is observed complete at the first query
    and nil is returned, yet the stack ID and the role ARN are still in the
    status, and a second call submits a second deletion. *)
Lemma C3_counterexample :
  a_status (deleteCompletes 2%nat) = ResourceStatusDeleteComplete
  /\ exists w' w'',
       deleteClusterRole unstopped deleteCompletes (startingFrom created)
       = Some (None, w')
       /\ ClusterRoleCFNStackID (Stat (cfg w')) = exampleStackID
       /\ Status_ClusterRoleARN (Stat (cfg w')) = exampleRoleARN
       /\ ClusterRoleCFNStackID (Stat (cfg w')) <> EmptyString
       /\ deletions (trace w') = 1%nat
       /\ deleteClusterRole unstopped deleteCompletes w' = Some (None, w'')
       /\ deletions (trace w'') = 2%nat.
Proof.
  split; [reflexivity|].
  eexists. eexists. split; [vm_compute; reflexivity|].
  split; [reflexivity|]. split; [reflexivity|]. split; [discriminate|].
  split; [reflexivity|]. split; [vm_compute; reflexivity|]. reflexivity.
Qed.

Lemma set_ClusterRoleARN_current (w : World) :
  update (set_ClusterRoleARN (Status_ClusterRoleARN (Stat (cfg w)))) w = w.
Proof.
  destruct w as [[name params [id arn] nlb] t tr]. reflexivity.
Qed.

(** When every key is in the schema, the loop over the outputs returns no
    error and leaves the value of the last output in the status. *)
Lemma installOutputs_known (outputs : list Output) :
  forall w,
    forallb in_schema outputs = true ->
    installOutputs outputs w =
    (None,
     update (set_ClusterRoleARN
               (last (map OutputValue outputs)
                     (Status_ClusterRoleARN (Stat (cfg w))))) w).
Proof.
  induction outputs as [|o rest IH]; intros w H.
  - cbn. now rewrite set_ClusterRoleARN_current.
  - cbn [forallb] in H. apply andb_true_iff in H. destruct H as [Ho Hr].
    cbn [installOutputs]. unfold in_schema in Ho. rewrite Ho.
    rewrite (IH _ Hr). cbn [map]. rewrite last_cons. reflexivity.
Qed.

(** When some key is not in the schema, the loop returns the error of the
    first such key, without any call. *)
Lemma installOutputs_unknown (outputs : list Output) :
  forall w,
    forallb in_schema outputs = false ->
    exists k w',
      installOutputs outputs w =
      (Some (ErrUnexpectedOutputKey k (ClusterRoleCFNStackID (Stat (cfg w)))),
       w')
      /\ In k (map OutputKey outputs)
      /\ k <> "ClusterRoleARN"
      /\ trace w' = trace w.
Proof.
  induction outputs as [|o rest IH]; intros w H; [discriminate|].
  cbn [forallb] in H. cbn [installOutputs].
  destruct (in_schema o) eqn:Ho; unfold in_schema in Ho; rewrite Ho.
  - cbn [andb] in H.
    destruct (IH (update (set_ClusterRoleARN (OutputValue o)) w) H)
      as (k & w' & E & I & N & T).
    exists k, w'. repeat split; try assumption. now right.
  - exists (OutputKey o), w. repeat split; [now left|].
    now apply String.eqb_neq.
Qed.

(** When every output key is in the schema, the loop over the outputs
    installs them (the status ends with the value of the last one) and returns
    no error; when some key is not, it returns the error of an unexpected
    key. *)
Lemma outputs_installed_or_error (outputs : list Output) (w : World) :
  (forallb in_schema outputs = true ->
   fst (installOutputs outputs w) = None
   /\ Status_ClusterRoleARN (Stat (cfg (snd (installOutputs outputs w)))) =
        last (map OutputValue outputs) (Status_ClusterRoleARN (Stat (cfg w))))
  /\ (forallb in_schema outputs = false ->
      exists k,
        fst (installOutputs outputs w) =
          Some (ErrUnexpectedOutputKey
                  k (ClusterRoleCFNStackID (Stat (cfg w))))
        /\ In k (map OutputKey outputs)
        /\ k <> "ClusterRoleARN").
Proof.
  split.
  - intro H. rewrite (installOutputs_known outputs w H). now split.
  - intro H. destruct (installOutputs_unknown outputs w H)
      as (k & w' & E & I & N & _).
    exists k. rewrite E. now repeat split.
Qed.

Lemma nonempty_true (s : string) : s <> EmptyString -> nonempty s = true.
Proof.
  intro N. unfold nonempty. apply String.eqb_neq in N. now rewrite N.
Qed.

(** C5: when creation is not enabled, or a role ARN was given, or a stack ID
    or a role ARN is already in the status, [createClusterRole] returns nil
    and leaves the world as it was: no call is made and the configuration is
    unchanged. *)
Theorem C5_createClusterRole_skips (ts : Tester) (env : Env) (w : World) :
  nothing_to_create (cfg w) ->
  createClusterRole ts env w = Some (None, w).
Proof.
  unfold createClusterRole.
  intros [H|[H|[H|H]]].
  - now rewrite H.
  - destruct (ClusterRoleCreate (Params (cfg w))); [|reflexivity].
    cbn [negb]. now rewrite (nonempty_true _ H).
  - destruct (ClusterRoleCreate (Params (cfg w))); [|reflexivity].
    cbn [negb]. rewrite (nonempty_true _ H). now rewrite orb_true_r.
  - destruct (ClusterRoleCreate (Params (cfg w))); [|reflexivity].
    cbn [negb]. rewrite (nonempty_true _ H). now rewrite orb_true_r.
Qed.

(** The theorem above at a configuration in which creation is not enabled. *)
Lemma C5_witness :
  createClusterRole stopped (createCompletes []) (startingFrom notEnabled)
  = Some (None, startingFrom notEnabled).
Proof.
  exact (C5_createClusterRole_skips
           stopped (createCompletes []) (startingFrom notEnabled)
           (or_introl eq_refl)).
Defined.

(** The poller does end on a signal when it is handed the channels of the
    tester, as [createClusterRole] does: with the stop channel closed, the
    creation is cancelled at the first wait. *)
Lemma createClusterRole_stopped :
  exists w',
    createClusterRole stopped (createCompletes []) (startingFrom toCreate)
    = Some (Some ErrPollStopped, w')
    /\ existsb wait_cancelled (trace w') = true.
Proof.
  eexists. split; vm_compute; reflexivity.
Qed.

(** The same closed stop channel leaves the deletion to run to the deadline
    of its polling when the stack never reports the deletion complete. *)
Lemma deleteClusterRole_stopped_runs_to_deadline :
  exists w',
    deleteClusterRole stopped deleteHangs (startingFrom created)
    = Some (Some ErrPollDeadline, w')
    /\ 10 * Minute <= now w'.
Proof.
  eexists. split; [vm_compute; reflexivity|]. vm_compute. discriminate.
Qed.

(** *** More about [createClusterRole] *)

(** The loop over the outputs makes no call and changes nothing but the role
    ARN of the status. *)
Lemma installOutputs_frame (outputs : list Output) :
  forall w,
    trace (snd (installOutputs outputs w)) = trace w
    /\ now (snd (installOutputs outputs w)) = now w
    /\ Name (cfg (snd (installOutputs outputs w))) = Name (cfg w)
    /\ Params (cfg (snd (installOutputs outputs w))) = Params (cfg w)
    /\ ClusterRoleCFNStackID (Stat (cfg (snd (installOutputs outputs w))))
       = ClusterRoleCFNStackID (Stat (cfg w))
    /\ NLBHelloWorld_Enable (cfg (snd (installOutputs outputs w)))
       = NLBHelloWorld_Enable (cfg w).
Proof.
  induction outputs as [|o rest IH]; intro w; cbn [installOutputs].
  - now repeat split.
  - destruct (String.eqb (OutputKey o) "ClusterRoleARN").
    + destruct (IH (update (set_ClusterRoleARN (OutputValue o)) w))
        as (T & N & A & P & I & E).
      rewrite T, N, A, P, I, E. now repeat split.
    + now repeat split.
Qed.

Lemma must_create_guards (c : Config) :
  must_create c ->
  negb (ClusterRoleCreate (Params c)) = false
  /\ nonempty (Parameters_ClusterRoleARN (Params c))
     || nonempty (ClusterRoleCFNStackID (Stat c))
     || nonempty (Status_ClusterRoleARN (Stat c)) = false.
Proof.
  intros (E & A & I & R). rewrite E, A, I, R. now split.
Qed.

(** [createClusterRole] when it has a role to create and a name for it: it
    returns; its first call submits the stack; the parameters and the name of
    the configuration stay; a failed submission is returned as it is, after
    that one call and with the configuration untouched; after a successful
    one the stack ID of the status is the one submitted, whatever follows;
    and nil is returned only after a final [Sync] of the configuration that
    is left. *)
Lemma createClusterRole_acts (ts : Tester) (env : Env) (w : World) :
  must_create (cfg w) ->
  ClusterRoleName (Params (cfg w)) <> EmptyString ->
  exists r w' evs,
    createClusterRole ts env w = Some (r, w')
    /\ trace w' =
         List.app (trace w) (EvCreateStack (stackInputOf (cfg w)) :: evs)
    /\ Params (cfg w') = Params (cfg w)
    /\ (forall text,
          a_err (env (here w)) = Some text ->
          r = Some (External text) /\ cfg w' = cfg w /\ evs = [])
    /\ (a_err (env (here w)) = None ->
        ClusterRoleCFNStackID (Stat (cfg w')) = a_stackId (env (here w))
        /\ (r = None -> exists evs', evs = List.app evs' [EvSync (cfg w')])).
Proof.
  intros G N. unfold createClusterRole.
  destruct (must_create_guards _ G) as [G1 G2]. rewrite G1, G2.
  apply String.eqb_neq in N. rewrite N.
  pose proof (stack_call_follows (EvCreateStack (stackInputOf (cfg w))) env w)
    as F.
  unfold call in *. cbn [snd] in F.
  set (a := env (here w)) in *.
  set (w1 := logged (EvCreateStack (stackInputOf (cfg w)))
                    (Z.of_N (a_late a)) w) in *.
  destruct (a_err a) as [text|] eqn:EA.
  { exists (Some (External text)), w1, [].
    destruct F as (C & _ & T).
    split; [reflexivity|]. split; [exact T|]. split; [now rewrite C|].
    split; [|discriminate].
    intros text' E. inversion E. now repeat split. }
  set (w2 := update (set_ClusterRoleCFNStackID (a_stackId a)) w1).
  set (deadline := now w2 + 10 * Minute).
  set (id := ClusterRoleCFNStackID (Stat (cfg w2))).
  destruct (Poll_returns deadline (stopCreationCh ts) (interruptSig ts) id
                         ResourceStatusCreateComplete (25 * Second)
                         (10 * Second) env w2) as [[ch w3] EP];
    try (unfold Second; lia).
  rewrite EP.
  apply Poll_sound in EP; try (unfold Second; lia).
  destruct EP as (e2 & F2 & _).
  destruct (rangeStatuses_sound "failed to create role (%v)" ch
                                zeroStackStatus env w3) as (e3 & F3 & _ & _).
  destruct (rangeStatuses "failed to create role (%v)" ch zeroStackStatus
                          env w3) as [st w4].
  cbn [fst snd] in F3.
  pose proof (stack_follows_trans _ _ _ _ _ F2 F3) as F24.
  destruct F24 as (C4 & _ & T4).
  assert (T2 : trace w2 =
               List.app (trace w) [EvCreateStack (stackInputOf (cfg w))]).
  { unfold w2, update. cbn [trace]. now destruct F as (_ & _ & T). }
  assert (C2 : cfg w2 = set_ClusterRoleCFNStackID (a_stackId a) (cfg w)).
  { unfold w2, update. cbn [cfg]. destruct F as (C & _). now rewrite C. }
  assert (T04 : trace w4 =
                List.app (trace w)
                  (EvCreateStack (stackInputOf (cfg w)) :: List.app e2 e3)).
  { rewrite T4, T2, <- app_assoc. reflexivity. }
  destruct (Error st) as [e|].
  { exists (Some e), w4, (List.app e2 e3).
    split; [reflexivity|]. split; [exact T04|].
    rewrite C4, C2. repeat split; try discriminate. }
  destruct (installOutputs_frame (Outputs (Stack st)) w4)
    as (T5 & _ & _ & P5 & I5 & _).
  destruct (installOutputs (Outputs (Stack st)) w4) as [r5 w5].
  cbn [snd] in T5, P5, I5.
  destruct r5 as [e|].
  { exists (Some e), w5, (List.app e2 e3).
    split; [reflexivity|]. split; [now rewrite T5|].
    rewrite P5, I5, C4, C2. repeat split; try discriminate. }
  pose proof (stack_Sync_follows env w5) as F6.
  destruct (Sync env w5) as [r6 w6]. cbn [snd] in F6.
  destruct F6 as (C6 & _ & T6).
  exists r6, w6, (List.app (List.app e2 e3) [EvSync (cfg w5)]).
  split; [reflexivity|]. split.
  { rewrite T6, T5, T04. rewrite <- app_assoc. reflexivity. }
  rewrite C6, P5, I5, C4, C2. repeat split; try discriminate.
  intros _. now eexists.
Qed.

(** A role to create needs a name: without one [createClusterRole] returns an
    error and makes no call. *)
Theorem createClusterRole_needs_name (ts : Tester) (env : Env) (w : World) :
  must_create (cfg w) ->
  ClusterRoleName (Params (cfg w)) = EmptyString ->
  createClusterRole ts env w
  = Some (Some (errors_New "empty Parameters.ClusterRoleName"), w).
Proof.
  intros G N. unfold createClusterRole.
  destruct (must_create_guards _ G) as [G1 G2]. now rewrite G1, G2, N.
Qed.

(** The theorem above at a configuration without a role name. *)
Lemma createClusterRole_needs_name_witness :
  createClusterRole unstopped (createCompletes []) (startingFrom unnamed)
  = Some (Some (errors_New "empty Parameters.ClusterRoleName"),
          startingFrom unnamed).
Proof.
  refine (createClusterRole_needs_name
            unstopped (createCompletes []) (startingFrom unnamed) _ eq_refl).
  now repeat split.
Defined.

(** When the submission of the stack fails, [createClusterRole] returns that
    error after this one call: nothing is polled or synced, and the
    configuration is as it was. *)
Theorem createClusterRole_submission_fails (ts : Tester) (env : Env)
    (w : World) (text : string) :
  must_create (cfg w) ->
  ClusterRoleName (Params (cfg w)) <> EmptyString ->
  a_err (env (here w)) = Some text ->
  exists w',
    createClusterRole ts env w = Some (Some (External text), w')
    /\ cfg w' = cfg w
    /\ trace w' = List.app (trace w) [EvCreateStack (stackInputOf (cfg w))].
Proof.
  intros G N E.
  destruct (createClusterRole_acts ts env w G N)
    as (r & w' & evs & R & T & _ & F & _).
  destruct (F text E) as (Er & C & Ee). subst r evs.
  exists w'. now repeat split.
Qed.

Lemma toCreate_must_create : must_create (cfg (startingFrom toCreate)).
Proof. now repeat split. Qed.

Lemma toCreate_named :
  ClusterRoleName (Params (cfg (startingFrom toCreate))) <> EmptyString.
Proof. discriminate. Qed.

(** The theorem above at a submission that is rejected. *)
Lemma createClusterRole_submission_fails_witness :
  exists w',
    createClusterRole unstopped rejects (startingFrom toCreate)
    = Some (Some (External "AccessDenied"), w')
    /\ cfg w' = cfg (startingFrom toCreate)
    /\ trace w' =
         List.app (trace (startingFrom toCreate))
                  [EvCreateStack (stackInputOf (cfg (startingFrom toCreate)))].
Proof.
  exact (createClusterRole_submission_fails
           unstopped rejects (startingFrom toCreate) "AccessDenied"
           toCreate_must_create toCreate_named eq_refl).
Defined.

Lemma createClusterRole_has_stack (ts : Tester) (env : Env) (w : World) :
  ClusterRoleCFNStackID (Stat (cfg w)) <> EmptyString ->
  createClusterRole ts env w = Some (None, w).
Proof.
  intro H. unfold createClusterRole.
  destruct (ClusterRoleCreate (Params (cfg w))); [|reflexivity].
  cbn [negb]. rewrite (nonempty_true _ H). now rewrite orb_true_r.
Qed.

(** Once the stack is submitted, its ID is in the status on every return of
    [createClusterRole], be it nil, a polling error, a cancellation or an
    unexpected output; a [deleteClusterRole] after it therefore starts by
    submitting the deletion of that stack, and when the ID is not empty a
    second [createClusterRole] returns nil and changes nothing. *)
Theorem createClusterRole_records_stack_id (ts : Tester) (env : Env)
    (w : World) :
  must_create (cfg w) ->
  ClusterRoleName (Params (cfg w)) <> EmptyString ->
  a_err (env (here w)) = None ->
  a_stackId (env (here w)) <> EmptyString ->
  exists r w',
    createClusterRole ts env w = Some (r, w')
    /\ ClusterRoleCFNStackID (Stat (cfg w')) = a_stackId (env (here w))
    /\ (forall ts2 env2, createClusterRole ts2 env2 w' = Some (None, w'))
    /\ (forall ts2 env2,
        exists r2 w2 rest,
          deleteClusterRole ts2 env2 w' = Some (r2, w2)
          /\ trace w2 =
               List.app (trace w')
                        (EvDeleteStack (a_stackId (env (here w))) :: rest)).
Proof.
  intros G N E I.
  destruct (createClusterRole_acts ts env w G N)
    as (r & w' & evs & R & T & P & _ & S).
  destruct (S E) as [Id _].
  exists r, w'. split; [exact R|]. split; [exact Id|]. split.
  - intros ts2 env2. apply createClusterRole_has_stack. now rewrite Id.
  - intros ts2 env2.
    destruct (deleteClusterRole_sound ts2 env2 w')
      as (r2 & w2 & evs2 & E2 & (_ & _ & T2) & _ & _ & S2).
    destruct S2 as [rest S2].
    + rewrite P. now destruct G.
    + now rewrite Id.
    + exists r2, w2, rest. split; [exact E2|]. now rewrite T2, S2, Id.
Qed.

Lemma exampleStackID_nonempty : exampleStackID <> EmptyString.
Proof. discriminate. Qed.

(** The theorem above at a creation that succeeds at the first query. *)
Lemma createClusterRole_records_stack_id_witness :
  exists r w',
    createClusterRole
      unstopped (createCompletes [("ClusterRoleARN", exampleRoleARN)])
      (startingFrom toCreate) = Some (r, w')
    /\ ClusterRoleCFNStackID (Stat (cfg w')) = exampleStackID
    /\ (forall ts2 env2, createClusterRole ts2 env2 w' = Some (None, w'))
    /\ (forall ts2 env2,
        exists r2 w2 rest,
          deleteClusterRole ts2 env2 w' = Some (r2, w2)
          /\ trace w2 =
               List.app (trace w') (EvDeleteStack exampleStackID :: rest)).
Proof.
  exact (createClusterRole_records_stack_id
           unstopped (createCompletes [("ClusterRoleARN", exampleRoleARN)])
           (startingFrom toCreate)
           toCreate_must_create toCreate_named eq_refl
           exampleStackID_nonempty).
Defined.

(** The poller and the range loop never call [Sync]. *)
Lemma PollWait_unsynced (deadline : Z) (stopc : chan unit)
    (sigc : chan Signal) (d : Z) (env : Env) (w : World) :
  exists ev,
    trace (snd (PollWait deadline stopc sigc d env w))
    = List.app (trace w) [ev]
    /\ unsynced [ev].
Proof.
  unfold PollWait.
  destruct (select stopc sigc (here w) (a_pick (env (here w))));
    [| |destruct (deadline <? now w + d)];
    cbn [snd logged trace]; eexists; (split; [reflexivity|]);
    now repeat constructor.
Qed.

Lemma pollLoop_unsynced (fuel : nat) :
  forall deadline stopc sigc stackID desired pollInterval env w ch w',
    pollLoop fuel deadline stopc sigc stackID desired pollInterval env w
    = Some (ch, w') ->
    exists evs, trace w' = List.app (trace w) evs /\ unsynced evs.
Proof.
  induction fuel as [|fuel IH];
    intros deadline stopc sigc id desired I env w ch w' H;
    [discriminate|rewrite pollLoop_step in H].
  unfold call in H.
  set (w1 := logged (EvDescribeStacks id)
                    (Z.of_N (a_late (env (here w)))) w) in H.
  assert (T1 : trace w1 = List.app (trace w) [EvDescribeStacks id])
    by reflexivity.
  assert (U1 : unsynced [EvDescribeStacks id]) by (now repeat constructor).
  destruct (a_err (env (here w))).
  { inversion H; subst. now exists [EvDescribeStacks id]. }
  destruct (String.eqb (a_status (env (here w))) desired).
  { inversion H; subst. now exists [EvDescribeStacks id]. }
  destruct (PollWait_unsynced deadline stopc sigc I env w1) as (ev & T2 & U2).
  destruct (PollWait deadline stopc sigc I env w1) as [ended w2].
  cbn [snd] in T2.
  assert (T12 : trace w2 = List.app (trace w) [EvDescribeStacks id; ev]).
  { rewrite T2, T1, <- app_assoc. reflexivity. }
  assert (U12 : unsynced [EvDescribeStacks id; ev]).
  { inversion U2. now repeat constructor. }
  destruct ended as [|sig| |];
    try (inversion H; subst; now exists [EvDescribeStacks id; ev]).
  destruct (pollLoop fuel deadline stopc sigc id desired I env w2)
    as [[rest w3]|] eqn:E; [|discriminate].
  apply IH in E. destruct E as (evs & T3 & U3).
  inversion H; subst.
  exists (List.app [EvDescribeStacks id; ev] evs).
  split; [now rewrite T3, T12, <- app_assoc|].
  now apply Forall_app.
Qed.

Lemma Poll_unsynced (deadline : Z) (stopc : chan unit) (sigc : chan Signal)
    (stackID desired : string) (pollInterval initialDelay : Z) (env : Env)
    (w : World) (ch : list StackStatus) (w' : World) :
  Poll deadline stopc sigc stackID desired pollInterval initialDelay env w
  = Some (ch, w') ->
  exists evs, trace w' = List.app (trace w) evs /\ unsynced evs.
Proof.
  unfold Poll. intro H.
  destruct (PollWait_unsynced deadline stopc sigc initialDelay env w)
    as (ev & T1 & U1).
  destruct (PollWait deadline stopc sigc initialDelay env w) as [ended w1].
  cbn [snd] in T1.
  destruct ended as [|sig| |];
    try (inversion H; subst; now exists [ev]).
  apply pollLoop_unsynced in H. destruct H as (evs & T2 & U2).
  exists (List.app [ev] evs).
  split; [now rewrite T2, T1, <- app_assoc|].
  now apply Forall_app.
Qed.

Lemma rangeStatuses_unsynced (format : string) (ch : list StackStatus) :
  forall st env w,
    exists evs,
      trace (snd (rangeStatuses format ch st env w)) = List.app (trace w) evs
      /\ unsynced evs.
Proof.
  induction ch as [|received rest IH]; intros st env w; cbn [rangeStatuses].
  - exists []. split; [now rewrite app_nil_r|constructor].
  - destruct (Error received) as [e|].
    + destruct (IH received env (RecordStatus format e env w))
        as (evs & T & U).
      exists (EvRecordStatus format e :: evs). split.
      * rewrite T. unfold RecordStatus, call. cbn [snd logged trace].
        now rewrite <- app_assoc.
      * constructor; [exact I|exact U].
    + apply IH.
Qed.

(** [createClusterRole] calls [Sync] at most once, as its last call, and
    only after the polling ended without an error and every output key was
    the expected one. When it returns nil that [Sync] was made, of the
    configuration it leaves; when it returns a cancellation, the deadline of
    the polling or an unexpected output key, no [Sync] was made at all,
    although the stack ID is already in the configuration in memory. *)
Theorem createClusterRole_syncs_last (ts : Tester) (env : Env) (w : World) :
  must_create (cfg w) ->
  ClusterRoleName (Params (cfg w)) <> EmptyString ->
  a_err (env (here w)) = None ->
  exists r w' body,
    createClusterRole ts env w = Some (r, w')
    /\ unsynced body
    /\ ClusterRoleCFNStackID (Stat (cfg w')) = a_stackId (env (here w))
    /\ (trace w' =
          List.app (trace w) (EvCreateStack (stackInputOf (cfg w)) :: body)
        \/ trace w' =
             List.app (trace w)
               (EvCreateStack (stackInputOf (cfg w))
                  :: List.app body [EvSync (cfg w')]))
    /\ (r = None ->
        trace w' =
          List.app (trace w)
            (EvCreateStack (stackInputOf (cfg w))
               :: List.app body [EvSync (cfg w')]))
    /\ (creation_error r = true ->
        trace w' =
          List.app (trace w) (EvCreateStack (stackInputOf (cfg w)) :: body)).
Proof.
  intros G N EA.
  destruct (createClusterRole_acts ts env w G N)
    as (r0 & w0 & evs0 & R0 & _ & _ & _ & S0).
  destruct (S0 EA) as [Id0 _]. clear S0.
  revert R0 Id0. unfold createClusterRole.
  destruct (must_create_guards _ G) as [G1 G2]. rewrite G1, G2.
  apply String.eqb_neq in N. rewrite N.
  unfold call. rewrite EA.
  set (a := env (here w)).
  set (w1 := logged (EvCreateStack (stackInputOf (cfg w)))
                    (Z.of_N (a_late a)) w).
  set (w2 := update (set_ClusterRoleCFNStackID (a_stackId a)) w1).
  assert (T2 : trace w2 =
               List.app (trace w) [EvCreateStack (stackInputOf (cfg w))])
    by reflexivity.
  destruct (Poll (now w2 + 10 * Minute) (stopCreationCh ts) (interruptSig ts)
                 (ClusterRoleCFNStackID (Stat (cfg w2)))
                 ResourceStatusCreateComplete (25 * Second) (10 * Second)
                 env w2) as [[ch w3]|] eqn:EP; [|discriminate].
  apply Poll_unsynced in EP. destruct EP as (e2 & T3 & U2).
  destruct (rangeStatuses_unsynced "failed to create role (%v)" ch
                                   zeroStackStatus env w3) as (e3 & T4 & U3).
  destruct (rangeStatuses "failed to create role (%v)" ch zeroStackStatus
                          env w3) as [st w4].
  cbn [snd] in T4.
  assert (U23 : unsynced (List.app e2 e3)) by (now apply Forall_app).
  assert (T04 : trace w4 =
                List.app (trace w)
                  (EvCreateStack (stackInputOf (cfg w)) :: List.app e2 e3)).
  { rewrite T4, T3, T2, <- !app_assoc. reflexivity. }
  destruct (Error st) as [e|].
  { intros R Id. inversion R; subst r0 w0.
    exists (Some e), w4, (List.app e2 e3).
    split; [reflexivity|]. split; [exact U23|]. split; [exact Id|].
    split; [now left|]. split; [discriminate|]. intros _. exact T04. }
  destruct (installOutputs_frame (Outputs (Stack st)) w4) as (T5 & _).
  destruct (installOutputs (Outputs (Stack st)) w4) as [r5 w5].
  cbn [snd] in T5.
  destruct r5 as [e|].
  { intros R Id. inversion R; subst r0 w0.
    exists (Some e), w5, (List.app e2 e3).
    split; [reflexivity|]. split; [exact U23|]. split; [exact Id|].
    rewrite T5. split; [now left|]. split; [discriminate|].
    intros _. exact T04. }
  pose proof (stack_Sync_follows env w5) as F6.
  assert (O6 : creation_error (fst (Sync env w5)) = false).
  { unfold Sync, call. cbn [fst]. now destruct (a_err (env (here w5))). }
  destruct (Sync env w5) as [r6 w6]. cbn [fst snd] in F6, O6.
  destruct F6 as (C6 & _ & T6).
  intros R Id. inversion R; subst r0 w0.
  assert (T06 : trace w6 =
                List.app (trace w)
                  (EvCreateStack (stackInputOf (cfg w))
                     :: List.app (List.app e2 e3) [EvSync (cfg w6)])).
  { rewrite T6, T5, T04, C6, <- app_assoc. reflexivity. }
  exists r6, w6, (List.app e2 e3).
  split; [reflexivity|]. split; [exact U23|]. split; [exact Id|].
  split; [now right|]. split; [intros _; exact T06|].
  intro K. rewrite K in O6. discriminate.
Qed.

(** The theorem above at a creation that succeeds at the first query. *)
Lemma createClusterRole_syncs_last_witness :
  exists r w' body,
    createClusterRole
      unstopped (createCompletes [("ClusterRoleARN", exampleRoleARN)])
      (startingFrom toCreate) = Some (r, w')
    /\ unsynced body
    /\ ClusterRoleCFNStackID (Stat (cfg w')) = exampleStackID
    /\ (trace w' =
          List.app (trace (startingFrom toCreate))
            (EvCreateStack (stackInputOf (cfg (startingFrom toCreate)))
               :: body)
        \/ trace w' =
             List.app (trace (startingFrom toCreate))
               (EvCreateStack (stackInputOf (cfg (startingFrom toCreate)))
                  :: List.app body [EvSync (cfg w')]))
    /\ (r = None ->
        trace w' =
          List.app (trace (startingFrom toCreate))
            (EvCreateStack (stackInputOf (cfg (startingFrom toCreate)))
               :: List.app body [EvSync (cfg w')]))
    /\ (creation_error r = true ->
        trace w' =
          List.app (trace (startingFrom toCreate))
            (EvCreateStack (stackInputOf (cfg (startingFrom toCreate)))
               :: body)).
Proof.
  exact (createClusterRole_syncs_last
           unstopped (createCompletes [("ClusterRoleARN", exampleRoleARN)])
           (startingFrom toCreate)
           toCreate_must_create toCreate_named eq_refl).
Defined.

(** *** The stack input *)

Lemma Split_free (c : ascii) (s : string) :
  Strings.free_of c s = true -> Strings.Split s c = [s].
Proof.
  induction s as [|d s IH]; intro H; [reflexivity|].
  cbn [Strings.free_of] in H. apply andb_true_iff in H. destruct H as [Hd Hs].
  cbn [Strings.Split]. apply negb_true_iff in Hd. rewrite Hd.
  now rewrite (IH Hs).
Qed.

Lemma Split_append_sep (c : ascii) (s t : string) :
  Strings.free_of c s = true ->
  Strings.Split (s ++ String c t) c = s :: Strings.Split t c.
Proof.
  induction s as [|d s IH]; intro H.
  - cbn. now rewrite Ascii.eqb_refl.
  - cbn [Strings.free_of] in H. apply andb_true_iff in H.
    destruct H as [Hd Hs]. apply negb_true_iff in Hd.
    cbn [String.append Strings.Split]. rewrite Hd. now rewrite (IH Hs).
Qed.

(** Joining with commas and splitting at commas gives back a list that is
    not empty and whose elements have no comma. *)
Lemma Split_Join (l : list string) :
  l <> [] -> commaFree l -> Strings.Split (Strings.Join l ",") "," = l.
Proof.
  induction l as [|e rest IH]; intros N F; [contradiction|].
  inversion F as [|? ? He Hrest]; subst.
  destruct rest as [|e2 rest].
  - cbn [Strings.Join]. now apply Split_free.
  - change (Strings.Join (e :: e2 :: rest) ",")
      with (e ++ String "," (Strings.Join (e2 :: rest) ",")).
    rewrite (Split_append_sep _ _ _ He). f_equal.
    apply IH; [discriminate|exact Hrest].
Qed.

(** The stack input is named after the role and always carries the role
    name; it carries the service principals, and the managed policy ARNs,
    exactly when the configured list is not empty, and then as the elements
    joined with commas, whatever the elements are; when no element has a
    comma, splitting the parameter at the commas gives the configured list
    back. *)
Theorem stackInput_parameters (c : Config) :
  StackName (stackInputOf c) = ClusterRoleName (Params c)
  /\ parameter "ClusterRoleName" (stackInputOf c)
     = Some (ClusterRoleName (Params c))
  /\ parameter "ClusterRoleServicePrincipals" (stackInputOf c)
     = match ClusterRoleServicePrincipals (Params c) with
       | [] => None
       | _ :: _ =>
           Some (Strings.Join (ClusterRoleServicePrincipals (Params c)) ",")
       end
  /\ parameter "ClusterRoleManagedPolicyARNs" (stackInputOf c)
     = match ClusterRoleManagedPolicyARNs (Params c) with
       | [] => None
       | _ :: _ =>
           Some (Strings.Join (ClusterRoleManagedPolicyARNs (Params c)) ",")
       end
  /\ (ClusterRoleServicePrincipals (Params c) <> [] ->
      commaFree (ClusterRoleServicePrincipals (Params c)) ->
      Strings.Split
        (Strings.Join (ClusterRoleServicePrincipals (Params c)) ",") ","
      = ClusterRoleServicePrincipals (Params c))
  /\ (ClusterRoleManagedPolicyARNs (Params c) <> [] ->
      commaFree (ClusterRoleManagedPolicyARNs (Params c)) ->
      Strings.Split
        (Strings.Join (ClusterRoleManagedPolicyARNs (Params c)) ",") ","
      = ClusterRoleManagedPolicyARNs (Params c)).
Proof.
  unfold stackInputOf, parameter.
  split; [reflexivity|].
  split.
  { destruct (ClusterRoleServicePrincipals (Params c));
      destruct (ClusterRoleManagedPolicyARNs (Params c)); reflexivity. }
  split.
  { destruct (ClusterRoleServicePrincipals (Params c));
      destruct (ClusterRoleManagedPolicyARNs (Params c)); reflexivity. }
  split.
  { destruct (ClusterRoleServicePrincipals (Params c));
      destruct (ClusterRoleManagedPolicyARNs (Params c)); reflexivity. }
  split; intros N F; now apply Split_Join.
Qed.

(** A configuration with two principals and one policy: both parameters are
    there, with their values. *)
Lemma stackInput_customised :
  parameter "ClusterRoleServicePrincipals" (stackInputOf customised)
  = Some "eks.amazonaws.com,ec2.amazonaws.com"
  /\ parameter "ClusterRoleManagedPolicyARNs" (stackInputOf customised)
     = Some "arn:aws:iam::aws:policy/AmazonEKSClusterPolicy"
  /\ TemplateBody (stackInputOf customised) = TemplateClusterRoleNLB.
Proof.
  now repeat split.
Qed.

(** *** More about [deleteClusterRole] *)

(** [deleteClusterRole] deletes nothing when creation was not enabled, even
    with a stack ID in the status, and nothing when there is no stack ID: it
    returns nil and makes no call. *)
Theorem deleteClusterRole_skips (ts : Tester) (env : Env) (w : World) :
  ClusterRoleCreate (Params (cfg w)) = false
  \/ ClusterRoleCFNStackID (Stat (cfg w)) = EmptyString ->
  deleteClusterRole ts env w = Some (None, w).
Proof.
  unfold deleteClusterRole. intros [H|H]; rewrite H; [reflexivity|].
  now destruct (ClusterRoleCreate (Params (cfg w))).
Qed.

(** The theorem above at a stack that this configuration did not enable. *)
Lemma deleteClusterRole_skips_witness :
  deleteClusterRole unstopped deleteCompletes (startingFrom foreign)
  = Some (None, startingFrom foreign).
Proof.
  exact (deleteClusterRole_skips unstopped deleteCompletes
                                 (startingFrom foreign) (or_introl eq_refl)).
Defined.

(** When the submission of the deletion fails, [deleteClusterRole] returns
    that error after this one call, without polling or syncing. *)
Theorem deleteClusterRole_submission_fails (ts : Tester) (env : Env)
    (w : World) (text : string) :
  ClusterRoleCreate (Params (cfg w)) = true ->
  ClusterRoleCFNStackID (Stat (cfg w)) <> EmptyString ->
  a_err (env (here w)) = Some text ->
  exists w',
    deleteClusterRole ts env w = Some (Some (External text), w')
    /\ cfg w' = cfg w
    /\ trace w' =
         List.app (trace w)
                  [EvDeleteStack (ClusterRoleCFNStackID (Stat (cfg w)))].
Proof.
  intros EC EI EA. unfold deleteClusterRole. rewrite EC.
  apply String.eqb_neq in EI. rewrite EI. cbn [negb].
  unfold call. rewrite EA. eexists. split; [reflexivity|]. now split.
Qed.

(** The theorem above at a deletion that is rejected. *)
Lemma deleteClusterRole_submission_fails_witness :
  exists w',
    deleteClusterRole unstopped rejects (startingFrom created)
    = Some (Some (External "AccessDenied"), w')
    /\ cfg w' = cfg (startingFrom created)
    /\ trace w' =
         List.app (trace (startingFrom created))
           [EvDeleteStack
              (ClusterRoleCFNStackID (Stat (cfg (startingFrom created))))].
Proof.
  exact (deleteClusterRole_submission_fails
           unstopped rejects (startingFrom created) "AccessDenied"
           eq_refl exampleStackID_nonempty eq_refl).
Defined.

(** *** The outputs of a created stack *)

(** The loop over the outputs, in one equation: it installs the outputs
    before the first unexpected key, in order, and returns the error of that
    key when there is one. *)
Lemma installOutputs_run (outputs : list Output) :
  forall w,
    installOutputs outputs w =
    (match first_unknown outputs with
     | Some o =>
         Some (ErrUnexpectedOutputKey
                 (OutputKey o) (ClusterRoleCFNStackID (Stat (cfg w))))
     | None => None
     end,
     update (set_ClusterRoleARN
               (last (map OutputValue (schema_prefix outputs))
                     (Status_ClusterRoleARN (Stat (cfg w))))) w).
Proof.
  induction outputs as [|o rest IH]; intro w.
  - cbn. now rewrite set_ClusterRoleARN_current.
  - cbn [installOutputs first_unknown schema_prefix].
    unfold in_schema at 1 2.
    destruct (String.eqb (OutputKey o) "ClusterRoleARN").
    + rewrite IH. cbn [map]. rewrite last_cons. reflexivity.
    + cbn. now rewrite set_ClusterRoleARN_current.
Qed.

(** C4, as the code has it: when [createClusterRole] has submitted the stack
    and its polling ends with a status without an error, it visits the
    outputs of that status in order up to the first key that is not in the
    schema. The role ARN it leaves in the status is the value of the last
    output before that key (none installed: the empty one it started with),
    so every in-schema key before the first unexpected one is installed and
    none after it; and when there is an unexpected key the error of that key
    is returned, otherwise what the final [Sync] returns. *)
Theorem C4_outputs_installed_until_unexpected (ts : Tester) (env : Env)
    (w : World) :
  must_create (cfg w) ->
  ClusterRoleName (Params (cfg w)) <> EmptyString ->
  a_err (env (here w)) = None ->
  exists ch w3 r w',
    createPoll ts env w = Some (ch, w3)
    /\ createClusterRole ts env w = Some (r, w')
    /\ (Error (last ch zeroStackStatus) = None ->
        Status_ClusterRoleARN (Stat (cfg w')) =
          last (map OutputValue
                    (schema_prefix
                       (Outputs (Stack (last ch zeroStackStatus)))))
               EmptyString
        /\ match first_unknown (Outputs (Stack (last ch zeroStackStatus))) with
           | Some o =>
               r = Some (ErrUnexpectedOutputKey
                           (OutputKey o) (a_stackId (env (here w))))
           | None => r = None \/ exists text, r = Some (External text)
           end).
Proof.
  intros G N EA. unfold createPoll, afterSubmission, createClusterRole.
  destruct (must_create_guards _ G) as [G1 G2]. rewrite G1, G2.
  apply String.eqb_neq in N. rewrite N.
  unfold call. cbn [snd]. rewrite EA.
  set (a := env (here w)).
  set (w1 := logged (EvCreateStack (stackInputOf (cfg w)))
                    (Z.of_N (a_late a)) w).
  set (w2 := update (set_ClusterRoleCFNStackID (a_stackId a)) w1).
  assert (A2 : Status_ClusterRoleARN (Stat (cfg w2)) = EmptyString).
  { unfold w2, w1, update, logged. cbn. now destruct G as (_ & _ & _ & R). }
  assert (I2 : ClusterRoleCFNStackID (Stat (cfg w2)) = a_stackId a)
    by reflexivity.
  destruct (Poll_returns (now w2 + 10 * Minute) (stopCreationCh ts)
                         (interruptSig ts)
                         (ClusterRoleCFNStackID (Stat (cfg w2)))
                         ResourceStatusCreateComplete (25 * Second)
                         (10 * Second) env w2) as [[ch w3] EP];
    try (unfold Second; lia).
  rewrite EP. exists ch, w3.
  apply Poll_sound in EP; try (unfold Second; lia).
  destruct EP as (e2 & (C3 & _) & _).
  destruct (rangeStatuses_sound "failed to create role (%v)" ch
                                zeroStackStatus env w3)
    as (e3 & (C4 & _) & _ & L).
  destruct (rangeStatuses "failed to create role (%v)" ch zeroStackStatus
                          env w3) as [st w4].
  cbn [fst snd] in C4, L. subst st.
  destruct (Error (last ch zeroStackStatus)) as [e|].
  { eexists _, _. split; [reflexivity|]. split; [reflexivity|]. discriminate. }
  rewrite installOutputs_run.
  assert (A4 : Status_ClusterRoleARN (Stat (cfg w4)) = EmptyString)
    by (now rewrite C4, C3).
  assert (I4 : ClusterRoleCFNStackID (Stat (cfg w4)) = a_stackId a)
    by (now rewrite C4, C3).
  rewrite A4, I4.
  destruct (first_unknown (Outputs (Stack (last ch zeroStackStatus))))
    as [o|].
  { eexists _, _. split; [reflexivity|]. split; [reflexivity|].
    intros _. split; reflexivity. }
  unfold Sync, call. cbn [fst snd].
  eexists _, _. split; [reflexivity|]. split; [reflexivity|].
  intros _. split; [reflexivity|].
  match goal with
  | |- context [a_err ?x] => destruct (a_err x) as [text|]
  end; [right; now exists text|now left].
Qed.

(** The theorem above at a creation whose stack reports the expected output
    and then one that is not expected. *)
Lemma C4_witness :
  exists ch w3 r w',
    createPoll
      unstopped
      (createCompletes [("ClusterRoleARN", exampleRoleARN);
                        ("ClusterRoleName", "eks-role")])
      (startingFrom toCreate) = Some (ch, w3)
    /\ createClusterRole
         unstopped
         (createCompletes [("ClusterRoleARN", exampleRoleARN);
                           ("ClusterRoleName", "eks-role")])
         (startingFrom toCreate) = Some (r, w')
    /\ (Error (last ch zeroStackStatus) = None ->
        Status_ClusterRoleARN (Stat (cfg w')) =
          last (map OutputValue
                    (schema_prefix
                       (Outputs (Stack (last ch zeroStackStatus)))))
               EmptyString
        /\ match first_unknown (Outputs (Stack (last ch zeroStackStatus))) with
           | Some o =>
               r = Some (ErrUnexpectedOutputKey (OutputKey o) exampleStackID)
           | None => r = None \/ exists text, r = Some (External text)
           end).
Proof.
  exact (C4_outputs_installed_until_unexpected
           unstopped
           (createCompletes [("ClusterRoleARN", exampleRoleARN);
                             ("ClusterRoleName", "eks-role")])
           (startingFrom toCreate)
           toCreate_must_create toCreate_named eq_refl).
Defined.

(** The run of the witness: the expected output is installed, and the
    error of the output after it is returned. *)
Lemma createClusterRole_installs_before_unexpected :
  exists w',
    createClusterRole
      unstopped
      (createCompletes [("ClusterRoleARN", exampleRoleARN);
                        ("ClusterRoleName", "eks-role")])
      (startingFrom toCreate)
    = Some (Some (ErrUnexpectedOutputKey "ClusterRoleName" exampleStackID),
            w')
    /\ Status_ClusterRoleARN (Stat (cfg w')) = exampleRoleARN.
Proof.
  eexists. split; [vm_compute; reflexivity|reflexivity].
Qed.

(** C4 fails as stated: the stack reports an output that is not expected
    and then the expected one; [createClusterRole] returns the error of the
    first, and the role ARN, whose key is in the schema, is not installed. *)
Lemma C4_counterexample :
  a_outputs (unexpectedFirst 2%nat)
  = [("RoleName", "eks-role"); ("ClusterRoleARN", exampleRoleARN)]
  /\ in_schema (mkOutput "ClusterRoleARN" exampleRoleARN) = true
  /\ exists w',
       createClusterRole unstopped unexpectedFirst (startingFrom toCreate)
       = Some (Some (ErrUnexpectedOutputKey "RoleName" exampleStackID), w')
       /\ Status_ClusterRoleARN (Stat (cfg w')) = EmptyString
       /\ Status_ClusterRoleARN (Stat (cfg w')) <> exampleRoleARN.
Proof.
  split; [reflexivity|]. split; [reflexivity|].
  eexists. split; [vm_compute; reflexivity|].
  split; [reflexivity|discriminate].
Qed.

(** *** How the polling of a deletion ends *)

(** One wait on channels that are never written to: it ends by the deadline
    or by its timer. *)
Lemma PollWait_quiet (deadline d : Z) (env : Env) (w : World) :
  PollWait deadline make_chan make_chan d env w =
  if deadline <? now w + d
  then (WaitDeadline,
        logged (EvPollWait d false false WaitDeadline)
               (Z.max 0 (deadline - now w) + Z.of_N (a_late (env (here w))))
               w)
  else (WaitTimer,
        logged (EvPollWait d false false WaitTimer)
               (d + Z.of_N (a_late (env (here w)))) w).
Proof.
  unfold PollWait, select, make_chan. cbn [is_ready].
  now destruct (deadline <? now w + d).
Qed.

Lemma here_logged_stack (ev : Event) (spent : Z) (w : World) :
  here (logged ev spent w) = S (here w).
Proof.
  unfold here, logged. cbn [trace]. rewrite length_app. cbn. lia.
Qed.

(** On channels that are never written to the attempts end at the deadline,
    at a query that failed or at a query that found the desired status, and
    the stream is not empty. *)
Lemma pollLoop_ends (fuel : nat) :
  forall deadline stackID desired pollInterval env w ch w',
    0 <= pollInterval ->
    pollLoop fuel deadline make_chan make_chan stackID desired pollInterval
             env w = Some (ch, w') ->
    exists evs st,
      trace w' = List.app (trace w) evs
      /\ (forall d, last ch d = st)
      /\ poll_ended env (here w) stackID desired deadline evs w' (Error st).
Proof.
  induction fuel as [|fuel IH];
    intros deadline id desired I env w ch w' HI H;
    [discriminate|rewrite pollLoop_step in H].
  unfold call in H.
  set (a := env (here w)) in *.
  set (w1 := logged (EvDescribeStacks id) (Z.of_N (a_late a)) w) in *.
  destruct (a_err a) as [text|] eqn:EA.
  { inversion H; subst ch w'. clear H.
    exists [EvDescribeStacks id], (failed (External text)).
    split; [reflexivity|]. split; [reflexivity|].
    right. left. exists [], text. cbn [List.app List.length].
    rewrite Nat.add_0_r. fold a. now repeat split. }
  destruct (String.eqb (a_status a) desired) eqn:ES.
  { inversion H; subst ch w'. clear H.
    exists [EvDescribeStacks id],
           (mkStackStatus
              (mkStack (a_status a)
                       (map (fun kv => mkOutput (fst kv) (snd kv))
                            (a_outputs a)))
              None).
    split; [reflexivity|]. split; [reflexivity|].
    right. right. exists []. cbn [List.app List.length].
    rewrite Nat.add_0_r. fold a. apply String.eqb_eq in ES.
    now repeat split. }
  rewrite PollWait_quiet in H.
  destruct (deadline <? now w1 + I) eqn:ED.
  { inversion H; subst ch w'. clear H.
    exists [EvDescribeStacks id; EvPollWait I false false WaitDeadline],
           (failed ErrPollDeadline).
    split.
    { unfold w1, logged. cbn [trace]. now rewrite <- app_assoc. }
    split; [reflexivity|].
    left. split; [reflexivity|]. unfold w1, logged. cbn [now]. lia. }
  set (w2 := logged (EvPollWait I false false WaitTimer)
                    (I + Z.of_N (a_late (env (here w1)))) w1) in *.
  destruct (pollLoop fuel deadline make_chan make_chan id desired I env w2)
    as [[rest w3]|] eqn:E; [|discriminate].
  inversion H; subst ch w'. clear H.
  apply IH in E; [|exact HI].
  destruct E as (evs & st & T & L & P).
  exists (EvDescribeStacks id :: EvPollWait I false false WaitTimer :: evs),
         st.
  split.
  { rewrite T. unfold w2, w1, logged. cbn [trace].
    now rewrite <- !app_assoc. }
  split.
  { intro d. rewrite last_cons. apply L. }
  assert (B : here w2 = S (S (here w))).
  { unfold w2, w1. now rewrite !here_logged_stack. }
  destruct P as [P|[(pre & text & Ee & Ea & Er)|(pre & Ee & Ea & Es & Er)]].
  - left. exact P.
  - right. left.
    exists (EvDescribeStacks id :: EvPollWait I false false WaitTimer :: pre),
           text.
    split; [now rewrite Ee|]. split; [|exact Er].
    rewrite <- Ea. do 2 f_equal. rewrite B. cbn [List.length]. lia.
  - right. right.
    exists (EvDescribeStacks id :: EvPollWait I false false WaitTimer :: pre).
    split; [now rewrite Ee|].
    replace (here w
             + List.length
                 (EvDescribeStacks id
                  :: EvPollWait I false false WaitTimer :: pre))%nat
      with (here w2 + List.length pre)%nat
      by (rewrite B; cbn [List.length]; lia).
    now repeat split.
Qed.

Lemma Poll_ends (deadline : Z) (stackID desired : string)
    (pollInterval initialDelay : Z) (env : Env) (w : World)
    (ch : list StackStatus) (w' : World) :
  0 <= pollInterval ->
  Poll deadline make_chan make_chan stackID desired pollInterval initialDelay
       env w = Some (ch, w') ->
  exists ended evs st,
    trace w' =
      List.app (trace w)
               (EvPollWait initialDelay false false ended :: evs)
    /\ (forall d, last ch d = st)
    /\ poll_ended env (S (here w)) stackID desired deadline evs w' (Error st).
Proof.
  intros HI H. unfold Poll in H. rewrite PollWait_quiet in H.
  destruct (deadline <? now w + initialDelay) eqn:ED.
  { inversion H; subst ch w'. clear H.
    exists WaitDeadline, [], (failed ErrPollDeadline).
    split; [reflexivity|]. split; [reflexivity|].
    left. split; [reflexivity|]. unfold logged. cbn [now]. lia. }
  set (w1 := logged (EvPollWait initialDelay false false WaitTimer)
                    (initialDelay + Z.of_N (a_late (env (here w)))) w) in *.
  apply pollLoop_ends in H; [|exact HI].
  destruct H as (evs & st & T & L & P).
  exists WaitTimer, evs, st.
  split.
  { rewrite T. unfold w1, logged. cbn [trace]. now rewrite <- app_assoc. }
  split; [exact L|].
  replace (S (here w)) with (here w1)
    by (unfold w1; now rewrite here_logged_stack).
  exact P.
Qed.

(** The calls of the range loop come after the ones before it, it takes no
    negative time, and it ends with the last status received. *)
Lemma rangeStatuses_appends (format : string) (ch : list StackStatus)
    (st : StackStatus) (env : Env) (w : World) :
  exists evs,
    trace (snd (rangeStatuses format ch st env w)) = List.app (trace w) evs
    /\ now w <= now (snd (rangeStatuses format ch st env w))
    /\ fst (rangeStatuses format ch st env w) = last ch st.
Proof.
  destruct (rangeStatuses_sound format ch st env w)
    as (evs & (_ & N & T) & _ & L).
  now exists evs.
Qed.

(** C9, as the code and the poller of the spec have it: a deletion that was
    accepted polls, and whatever channels the tester holds the polling is
    not cancelled: the first wait and all later ones find no channel ready,
    the error returned is no cancellation, and the run is the same for every
    pair of channels in the tester. The polling does not always run to the
    terminal state or the deadline: it ends at the deadline (ten minutes or
    more have passed), at a query of the stack that found it deleted, or at
    a query that failed, whose error is returned. *)
Theorem C9_delete_polling_uncancelled_to_an_end (ts : Tester) (env : Env)
    (w : World) :
  ClusterRoleCreate (Params (cfg w)) = true ->
  ClusterRoleCFNStackID (Stat (cfg w)) <> EmptyString ->
  a_err (env (here w)) = None ->
  exists r w' ended evs,
    deleteClusterRole ts env w = Some (r, w')
    /\ trace w' =
         List.app (trace w)
                  (EvDeleteStack (ClusterRoleCFNStackID (Stat (cfg w)))
                   :: EvPollWait (10 * Second) false false ended :: evs)
    /\ existsb wait_cancelled evs = false
    /\ poll_cancelled r = false
    /\ (forall stopc sigc,
          deleteClusterRole (mkTester stopc sigc) env w = Some (r, w'))
    /\ ((r = Some ErrPollDeadline /\ now w + 10 * Minute <= now w')
        \/ (exists pre post text,
              evs = List.app pre
                      (EvDescribeStacks (ClusterRoleCFNStackID (Stat (cfg w)))
                       :: post)
              /\ a_err (env (here w + 2 + List.length pre)%nat) = Some text
              /\ r = Some (External text))
        \/ (exists pre post,
              evs = List.app pre
                      (EvDescribeStacks (ClusterRoleCFNStackID (Stat (cfg w)))
                       :: post)
              /\ a_err (env (here w + 2 + List.length pre)%nat) = None
              /\ a_status (env (here w + 2 + List.length pre)%nat)
                 = ResourceStatusDeleteComplete
              /\ (r = None \/ exists text, r = Some (External text)))).
Proof.
  intros EC NI EA.
  destruct (deleteClusterRole_sound ts env w)
    as (r & w' & all & E & (_ & _ & TA) & U & O & _).
  exists r, w'.
  revert E. unfold deleteClusterRole.
  rewrite EC. cbn [negb].
  apply String.eqb_neq in NI. rewrite NI.
  unfold call. rewrite EA.
  set (id := ClusterRoleCFNStackID (Stat (cfg w))).
  set (w1 := logged (EvDeleteStack id) (Z.of_N (a_late (env (here w)))) w).
  change (ClusterRoleCFNStackID (Stat (cfg w1))) with id.
  destruct (Poll (now w1 + 10 * Minute) make_chan make_chan id
                 ResourceStatusDeleteComplete (25 * Second) (10 * Second)
                 env w1) as [[ch w2]|] eqn:EP; [|discriminate].
  apply Poll_ends in EP; [|unfold Second; lia].
  destruct EP as (ended & evs & st & T2 & L & P).
  destruct (rangeStatuses_appends "failed to delete role (%v)" ch
                                  zeroStackStatus env w2)
    as (e3 & T3 & N3 & L3).
  destruct (rangeStatuses "failed to delete role (%v)" ch zeroStackStatus
                          env w2) as [st' w3].
  cbn [fst snd] in T3, N3, L3. rewrite L in L3. subst st'.
  assert (H1 : here w1 = S (here w)) by apply here_logged_stack.
  assert (T1 : trace w1 = List.app (trace w) [EvDeleteStack id])
    by reflexivity.
  assert (N1 : now w <= now w1) by (unfold w1, logged; cbn [now]; lia).
  assert (Cut : forall tail,
             trace w' =
               List.app (trace w)
                        (EvDeleteStack id
                         :: EvPollWait (10 * Second) false false ended
                         :: List.app evs tail) ->
             existsb wait_cancelled (List.app evs tail) = false).
  { intros tail T. rewrite TA in T. apply app_inv_head in T. subst all.
    apply undisturbed_existsb in U.
    cbn [existsb wait_cancelled] in U.
    apply orb_false_iff in U. destruct U as [_ U].
    apply orb_false_iff in U. now destruct U as [_ U]. }
  pose proof (uncancelled_not_cancelled r O) as PC.
  destruct P as [(Er & D)|[(pre & text & Ee & Ea & Er)|(pre & Ee & Ea & Es & Er)]].
  - rewrite Er. intro E. inversion E; subst r w'. clear E.
    assert (T : trace w3 =
                  List.app (trace w)
                           (EvDeleteStack id
                            :: EvPollWait (10 * Second) false false ended
                            :: List.app evs e3)).
    { rewrite T3, T2, T1. rewrite <- !app_assoc. reflexivity. }
    exists ended, (List.app evs e3).
    split; [reflexivity|].
    split; [exact T|]. split; [now apply Cut|].
    split; [reflexivity|]. split; [intros; reflexivity|].
    left. split; [reflexivity|]. lia.
  - rewrite Er. intro E. inversion E; subst r w'. clear E.
    assert (T : trace w3 =
                  List.app (trace w)
                           (EvDeleteStack id
                            :: EvPollWait (10 * Second) false false ended
                            :: List.app evs e3)).
    { rewrite T3, T2, T1. rewrite <- !app_assoc. reflexivity. }
    exists ended, (List.app evs e3).
    split; [reflexivity|].
    split; [exact T|]. split; [now apply Cut|].
    split; [reflexivity|]. split; [intros; reflexivity|].
    right. left. exists pre, e3, text.
    split; [rewrite Ee; now rewrite <- app_assoc|].
    split; [|reflexivity].
    rewrite <- Ea. do 2 f_equal. rewrite H1. lia.
  - rewrite Er. unfold Sync, call. cbn [fst snd]. intro E.
    injection E as Rr Ww.
    assert (T : trace w' =
                  List.app (trace w)
                           (EvDeleteStack id
                            :: EvPollWait (10 * Second) false false ended
                            :: List.app evs
                                 (List.app e3 [EvSync (cfg w3)]))).
    { rewrite <- Ww. unfold logged. cbn [trace].
      rewrite T3, T2, T1. rewrite <- !app_assoc. reflexivity. }
    exists ended, (List.app evs (List.app e3 [EvSync (cfg w3)])).
    split; [now rewrite Rr, Ww|].
    split; [exact T|]. split; [now apply Cut|].
    split; [exact PC|]. split; [intros; now rewrite Rr, Ww|].
    right. right. exists pre, (List.app e3 [EvSync (cfg w3)]).
    split; [rewrite Ee; now rewrite <- app_assoc|].
    split; [rewrite <- Ea; do 2 f_equal; rewrite H1; lia|].
    split; [rewrite <- Es; do 2 f_equal; rewrite H1; lia|].
    destruct O as [O|[O|O]]; [now left| |now right].
    exfalso. rewrite <- Rr in O.
    destruct (a_err (env (here w3))); discriminate.
Qed.

(** The theorem above at a stopped tester whose stack is never reported
    deleted: the run ends at the deadline all the same. *)
Lemma C9_witness :
  exists r w' ended evs,
    deleteClusterRole stopped deleteHangs (startingFrom created)
    = Some (r, w')
    /\ trace w' =
         List.app (trace (startingFrom created))
                  (EvDeleteStack exampleStackID
                   :: EvPollWait (10 * Second) false false ended :: evs)
    /\ existsb wait_cancelled evs = false
    /\ poll_cancelled r = false
    /\ (forall stopc sigc,
          deleteClusterRole (mkTester stopc sigc) deleteHangs
                            (startingFrom created) = Some (r, w'))
    /\ ((r = Some ErrPollDeadline
         /\ now (startingFrom created) + 10 * Minute <= now w')
        \/ (exists pre post text,
              evs = List.app pre (EvDescribeStacks exampleStackID :: post)
              /\ a_err (deleteHangs
                          (here (startingFrom created) + 2
                           + List.length pre)%nat) = Some text
              /\ r = Some (External text))
        \/ (exists pre post,
              evs = List.app pre (EvDescribeStacks exampleStackID :: post)
              /\ a_err (deleteHangs
                          (here (startingFrom created) + 2
                           + List.length pre)%nat) = None
              /\ a_status (deleteHangs
                             (here (startingFrom created) + 2
                              + List.length pre)%nat)
                 = ResourceStatusDeleteComplete
              /\ (r = None \/ exists text, r = Some (External text)))).
Proof.
  apply (C9_delete_polling_uncancelled_to_an_end
           stopped deleteHangs (startingFrom created)).
  - reflexivity.
  - discriminate.
  - reflexivity.
Defined.

(** C9 fails as stated: the deletion is accepted and the first query of the
    stack fails. The run ends with that error ten seconds after it began:
    the stack was never seen deleted and the deadline is far. *)
Lemma C9_counterexample :
  exists w',
    deleteClusterRole stopped describeFails (startingFrom created)
    = Some (Some (External "Throttling"), w')
    /\ trace w' =
         [EvDeleteStack exampleStackID;
          EvPollWait (10 * Second) false false WaitTimer;
          EvDescribeStacks exampleStackID;
          EvRecordStatus "failed to delete role (%v)" (External "Throttling")]
    /\ now w' - now (startingFrom created) = 10 * Second
    /\ now w' < now (startingFrom created) + 10 * Minute
    /\ forall n, a_status (describeFails n) <> ResourceStatusDeleteComplete.
Proof.
  eexists. split; [vm_compute; reflexivity|].
  split; [reflexivity|]. split; [reflexivity|]. split; [reflexivity|].
  intro n. discriminate.
Qed.

End RoleFacts.
